(** * intel-gpu-tools: the KMS display model, its commit engine and the pipe CRC reader

    A shallow embedding of [lib/igt_kms.c] (pipes, planes, outputs, the
    change tracker and the legacy / universal / atomic commit paths) and of
    the pipe CRC capture code of the debugfs helpers, followed by the
    properties that the specification states about them.

    C integers are [Z].  A pointer into [display->pipes[p].planes[i]] is the
    pair of indices [(p, i)]; a nullable pointer is an [option].  The kernel
    driver is an oracle ([env]) that answers every libdrm call from the
    history of calls made so far; every call is logged with its answer. *)

From Stdlib Require Import ZArith Lia Ascii.
From stdpp Require Import base option list strings pretty.

Local Open Scope Z_scope.

(* ================================================================== *)
(** ** Data model (igt_kms.h is not part of the tree; the fields are the
       ones igt_kms.c reads and writes) *)
(* ================================================================== *)

(** enum igt_commit_style *)
Inductive igt_commit_style := COMMIT_LEGACY | COMMIT_UNIVERSAL | COMMIT_ATOMIC.

Global Instance igt_commit_style_eq_dec : EqDecision igt_commit_style :=
  ltac:(solve_decision).

(** enum igt_plane: the enumerators in the order of the name table of
    [kmstest_plane_name]; the cursor is the last one. *)
Definition IGT_PLANE_1 : Z := 0.
Definition IGT_PLANE_PRIMARY : Z := IGT_PLANE_1.
Definition IGT_PLANE_2 : Z := 1.
Definition IGT_PLANE_3 : Z := 2.
Definition IGT_PLANE_4 : Z := 3.
Definition IGT_PLANE_5 : Z := 4.
Definition IGT_PLANE_6 : Z := 5.
Definition IGT_PLANE_7 : Z := 6.
Definition IGT_PLANE_8 : Z := 7.
Definition IGT_PLANE_9 : Z := 8.
Definition IGT_PLANE_CURSOR : Z := 9.

(** enum pipe: PIPE_NONE precedes PIPE_A = 0. *)
Definition PIPE_NONE : Z := -1.

(** struct igt_fb, the fields used by the KMS library. *)
Record igt_fb := {
  fb_id : Z;
  gem_handle : Z;
  width : Z;
  height : Z
}.

(** drmModeModeInfo, the fields used by the KMS library. *)
Record drmModeModeInfo := {
  mode_type : Z;
  hdisplay : Z;
  vdisplay : Z;
  mode_name : string
}.

(** igt_plane_t *)
Record igt_plane := {
  index : Z;
  is_primary : bool;
  is_cursor : bool;
  fb_changed : bool;
  position_changed : bool;
  rotation_changed : bool;
  size_changed : bool;
  drm_plane : option Z;          (* drm_plane->plane_id, None for NULL *)
  fb : option igt_fb;
  rotation_property : Z;
  crtc_x : Z;
  crtc_y : Z;
  crtc_w : Z;
  crtc_h : Z;
  src_x : Z;
  src_y : Z;
  src_w : Z;
  src_h : Z;
  rotation : Z;
  atomic_props_plane : list Z
}.

(** struct igt_pipe; [planes] is the populated prefix of the plane array,
    so that [n_planes] is its length. *)
Record igt_pipe := {
  pipe : Z;
  enabled : bool;
  planes : list igt_plane;
  atomic_props_crtc : list Z;
  background : Z;
  background_changed : bool;
  background_property : Z;
  degamma_blob : Z;
  degamma_property : Z;
  ctm_blob : Z;
  ctm_property : Z;
  gamma_blob : Z;
  gamma_property : Z;
  color_mgmt_changed : bool;
  crtc_id : Z;
  mode_blob : Z;
  mode_changed : bool
}.

Definition n_planes (p : igt_pipe) : Z := Z.of_nat (length (planes p)).

(** drmModeConnector and drmModeEncoder as returned by libdrm. *)
Record drmModeConnector := {
  connector_id : Z;
  connector_type : Z;
  connector_type_id : Z;
  encoders : list Z;
  modes : list drmModeModeInfo;
  connection : Z
}.

Record drmModeEncoder := {
  encoder_id : Z;
  possible_crtcs : Z
}.

(** struct kmstest_connector_config *)
Record kmstest_connector_config := {
  config_crtc : option Z;        (* crtc->crtc_id, None for NULL *)
  config_connector : option drmModeConnector;
  config_encoder : option drmModeEncoder;
  default_mode : drmModeModeInfo;
  config_pipe : Z;
  pipe_changed : bool;
  connector_scaling_mode_changed : bool;
  connector_scaling_mode : Z;
  atomic_props_connector : list Z;
  valid_crtc_idx_mask : Z
}.

(** igt_output_t *)
Record igt_output := {
  output_id : Z;
  config : kmstest_connector_config;
  name : option string;
  force_reprobe : bool;
  pending_crtc_idx_mask : Z;
  use_override_mode : bool;
  override_mode : drmModeModeInfo
}.

(** struct igt_display; [n_pipes] and [n_outputs] are the lengths of the
    two arrays. *)
Record igt_display := {
  drm_fd : Z;
  pipes_in_use : Z;
  outputs : list igt_output;
  pipes : list igt_pipe;
  has_cursor_plane : bool;
  is_atomic : Z
}.

Definition n_pipes (d : igt_display) : nat := length (pipes d).
Definition n_outputs (d : igt_display) : nat := length (outputs d).

(* ------------------------------------------------------------------ *)
(** *** Field updates *)
(* ------------------------------------------------------------------ *)

Definition plane_with_rect (pl : igt_plane) (f : option igt_fb)
    (cx cy cw ch sx sy sw sh : Z) : igt_plane :=
  {| index := index pl; is_primary := is_primary pl; is_cursor := is_cursor pl;
     fb_changed := fb_changed pl; position_changed := position_changed pl;
     rotation_changed := rotation_changed pl; size_changed := size_changed pl;
     drm_plane := drm_plane pl; fb := f;
     rotation_property := rotation_property pl;
     crtc_x := cx; crtc_y := cy; crtc_w := cw; crtc_h := ch;
     src_x := sx; src_y := sy; src_w := sw; src_h := sh;
     rotation := rotation pl; atomic_props_plane := atomic_props_plane pl |}.

Definition plane_with_flags (pl : igt_plane) (fbc posc rotc sizec : bool)
    : igt_plane :=
  {| index := index pl; is_primary := is_primary pl; is_cursor := is_cursor pl;
     fb_changed := fbc; position_changed := posc;
     rotation_changed := rotc; size_changed := sizec;
     drm_plane := drm_plane pl; fb := fb pl;
     rotation_property := rotation_property pl;
     crtc_x := crtc_x pl; crtc_y := crtc_y pl;
     crtc_w := crtc_w pl; crtc_h := crtc_h pl;
     src_x := src_x pl; src_y := src_y pl; src_w := src_w pl; src_h := src_h pl;
     rotation := rotation pl; atomic_props_plane := atomic_props_plane pl |}.

Definition plane_with_rotation (pl : igt_plane) (r : Z) : igt_plane :=
  {| index := index pl; is_primary := is_primary pl; is_cursor := is_cursor pl;
     fb_changed := fb_changed pl; position_changed := position_changed pl;
     rotation_changed := rotation_changed pl; size_changed := size_changed pl;
     drm_plane := drm_plane pl; fb := fb pl;
     rotation_property := rotation_property pl;
     crtc_x := crtc_x pl; crtc_y := crtc_y pl;
     crtc_w := crtc_w pl; crtc_h := crtc_h pl;
     src_x := src_x pl; src_y := src_y pl; src_w := src_w pl; src_h := src_h pl;
     rotation := r; atomic_props_plane := atomic_props_plane pl |}.

(** The fields of a pipe that the commit paths write. *)
Definition pipe_with (p : igt_pipe) (en : bool) (pls : list igt_plane)
    (bgc cmc : bool) (mb : Z) (mc : bool) : igt_pipe :=
  {| pipe := pipe p; enabled := en; planes := pls;
     atomic_props_crtc := atomic_props_crtc p;
     background := background p; background_changed := bgc;
     background_property := background_property p;
     degamma_blob := degamma_blob p; degamma_property := degamma_property p;
     ctm_blob := ctm_blob p; ctm_property := ctm_property p;
     gamma_blob := gamma_blob p; gamma_property := gamma_property p;
     color_mgmt_changed := cmc; crtc_id := crtc_id p;
     mode_blob := mb; mode_changed := mc |}.

Definition pipe_set_enabled (en : bool) (p : igt_pipe) : igt_pipe :=
  pipe_with p en (planes p) (background_changed p) (color_mgmt_changed p)
            (mode_blob p) (mode_changed p).

Definition pipe_set_mode_blob (mb : Z) (p : igt_pipe) : igt_pipe :=
  pipe_with p (enabled p) (planes p) (background_changed p)
            (color_mgmt_changed p) mb (mode_changed p).

Definition pipe_set_mode_changed (mc : bool) (p : igt_pipe) : igt_pipe :=
  pipe_with p (enabled p) (planes p) (background_changed p)
            (color_mgmt_changed p) (mode_blob p) mc.

Definition config_with_flags (c : kmstest_connector_config)
    (pc smc : bool) : kmstest_connector_config :=
  {| config_crtc := config_crtc c; config_connector := config_connector c;
     config_encoder := config_encoder c; default_mode := default_mode c;
     config_pipe := config_pipe c; pipe_changed := pc;
     connector_scaling_mode_changed := smc;
     connector_scaling_mode := connector_scaling_mode c;
     atomic_props_connector := atomic_props_connector c;
     valid_crtc_idx_mask := valid_crtc_idx_mask c |}.

(** The fields of a connector configuration that probing rewrites; the two
    dirty flags and the scaling mode are not among them. *)
Definition config_with_probe (c : kmstest_connector_config)
    (crtc : option Z) (conn : option drmModeConnector)
    (enc : option drmModeEncoder) (dm : drmModeModeInfo) (cp : Z)
    (props : list Z) (mask : Z) : kmstest_connector_config :=
  {| config_crtc := crtc; config_connector := conn; config_encoder := enc;
     default_mode := dm; config_pipe := cp; pipe_changed := pipe_changed c;
     connector_scaling_mode_changed := connector_scaling_mode_changed c;
     connector_scaling_mode := connector_scaling_mode c;
     atomic_props_connector := props; valid_crtc_idx_mask := mask |}.

Definition output_with (o : igt_output) (c : kmstest_connector_config)
    (nm : option string) (fr : bool) (mask : Z) : igt_output :=
  {| output_id := output_id o; config := c; name := nm; force_reprobe := fr;
     pending_crtc_idx_mask := mask;
     use_override_mode := use_override_mode o;
     override_mode := override_mode o |}.

Definition output_set_config (c : kmstest_connector_config) (o : igt_output)
    : igt_output :=
  output_with o c (name o) (force_reprobe o) (pending_crtc_idx_mask o).

Definition output_set_name (nm : option string) (o : igt_output)
    : igt_output :=
  output_with o (config o) nm (force_reprobe o) (pending_crtc_idx_mask o).

Definition output_set_force_reprobe (fr : bool) (o : igt_output)
    : igt_output :=
  output_with o (config o) (name o) fr (pending_crtc_idx_mask o).

Definition output_set_pending_crtc_idx_mask (mask : Z) (o : igt_output)
    : igt_output :=
  output_with o (config o) (name o) (force_reprobe o) mask.

Definition config_set_pipe (v : Z) (c : kmstest_connector_config)
    : kmstest_connector_config :=
  config_with_probe c (config_crtc c) (config_connector c) (config_encoder c)
    (default_mode c) v (atomic_props_connector c) (valid_crtc_idx_mask c).

Definition config_set_crtc (v : option Z) (c : kmstest_connector_config)
    : kmstest_connector_config :=
  config_with_probe c v (config_connector c) (config_encoder c)
    (default_mode c) (config_pipe c) (atomic_props_connector c)
    (valid_crtc_idx_mask c).

Definition config_set_connector (v : option drmModeConnector)
    (c : kmstest_connector_config) : kmstest_connector_config :=
  config_with_probe c (config_crtc c) v (config_encoder c)
    (default_mode c) (config_pipe c) (atomic_props_connector c)
    (valid_crtc_idx_mask c).

Definition config_set_encoder (v : option drmModeEncoder)
    (c : kmstest_connector_config) : kmstest_connector_config :=
  config_with_probe c (config_crtc c) (config_connector c) v
    (default_mode c) (config_pipe c) (atomic_props_connector c)
    (valid_crtc_idx_mask c).

Definition config_set_default_mode (v : drmModeModeInfo)
    (c : kmstest_connector_config) : kmstest_connector_config :=
  config_with_probe c (config_crtc c) (config_connector c) (config_encoder c)
    v (config_pipe c) (atomic_props_connector c) (valid_crtc_idx_mask c).

Definition config_set_atomic_props_connector (v : list Z)
    (c : kmstest_connector_config) : kmstest_connector_config :=
  config_with_probe c (config_crtc c) (config_connector c) (config_encoder c)
    (default_mode c) (config_pipe c) v (valid_crtc_idx_mask c).

Definition config_set_valid_crtc_idx_mask (v : Z)
    (c : kmstest_connector_config) : kmstest_connector_config :=
  config_with_probe c (config_crtc c) (config_connector c) (config_encoder c)
    (default_mode c) (config_pipe c) (atomic_props_connector c) v.

Definition config_set_pipe_changed (v : bool) (c : kmstest_connector_config)
    : kmstest_connector_config :=
  config_with_flags c v (connector_scaling_mode_changed c).

(** kmstest_free_connector_config *)
Definition kmstest_free_connector_config (config : kmstest_connector_config)
    : kmstest_connector_config :=
  config_set_connector None (config_set_encoder None
    (config_set_crtc None config)).

Definition display_with (d : igt_display) (inuse : Z)
    (outs : list igt_output) (ps : list igt_pipe) : igt_display :=
  {| drm_fd := drm_fd d; pipes_in_use := inuse; outputs := outs; pipes := ps;
     has_cursor_plane := has_cursor_plane d; is_atomic := is_atomic d |}.

(* ================================================================== *)
(** ** Mutators of the change tracker (no driver call) *)
(* ================================================================== *)

(** igt_plane_set_fb *)
Definition igt_plane_set_fb (plane : igt_plane) (f : option igt_fb)
    : igt_plane :=
  let plane :=
    match f with
    | Some b =>
        (* set default plane size and src pos/size as fb size *)
        plane_with_rect plane f (crtc_x plane) (crtc_y plane)
                        (width b) (height b) 0 0 (width b) (height b)
    | None =>
        plane_with_rect plane f (crtc_x plane) (crtc_y plane) 0 0 0 0 0 0
    end in
  plane_with_flags plane true (position_changed plane)
                   (rotation_changed plane) true.

(** igt_plane_set_position *)
Definition igt_plane_set_position (plane : igt_plane) (x y : Z) : igt_plane :=
  let plane :=
    plane_with_rect plane (fb plane) x y (crtc_w plane) (crtc_h plane)
                    (src_x plane) (src_y plane) (src_w plane) (src_h plane) in
  plane_with_flags plane (fb_changed plane) true (rotation_changed plane)
                   (size_changed plane).

(** igt_plane_set_size *)
Definition igt_plane_set_size (plane : igt_plane) (w h : Z) : igt_plane :=
  let plane :=
    plane_with_rect plane (fb plane) (crtc_x plane) (crtc_y plane) w h
                    (src_x plane) (src_y plane) (src_w plane) (src_h plane) in
  plane_with_flags plane (fb_changed plane) (position_changed plane)
                   (rotation_changed plane) true.

(** igt_fb_set_position *)
Definition igt_fb_set_position (plane : igt_plane) (x y : Z) : igt_plane :=
  let plane :=
    plane_with_rect plane (fb plane) (crtc_x plane) (crtc_y plane)
                    (crtc_w plane) (crtc_h plane)
                    x y (src_w plane) (src_h plane) in
  plane_with_flags plane true (position_changed plane)
                   (rotation_changed plane) (size_changed plane).

(** igt_fb_set_size *)
Definition igt_fb_set_size (plane : igt_plane) (w h : Z) : igt_plane :=
  let plane :=
    plane_with_rect plane (fb plane) (crtc_x plane) (crtc_y plane)
                    (crtc_w plane) (crtc_h plane)
                    (src_x plane) (src_y plane) w h in
  plane_with_flags plane true (position_changed plane)
                   (rotation_changed plane) (size_changed plane).

(** igt_crtc_set_background *)
Definition igt_crtc_set_background (pipe_obj : igt_pipe) (v : Z) : igt_pipe :=
  {| pipe := pipe pipe_obj; enabled := enabled pipe_obj;
     planes := planes pipe_obj;
     atomic_props_crtc := atomic_props_crtc pipe_obj;
     background := v; background_changed := true;
     background_property := background_property pipe_obj;
     degamma_blob := degamma_blob pipe_obj;
     degamma_property := degamma_property pipe_obj;
     ctm_blob := ctm_blob pipe_obj; ctm_property := ctm_property pipe_obj;
     gamma_blob := gamma_blob pipe_obj;
     gamma_property := gamma_property pipe_obj;
     color_mgmt_changed := color_mgmt_changed pipe_obj;
     crtc_id := crtc_id pipe_obj;
     mode_blob := mode_blob pipe_obj; mode_changed := mode_changed pipe_obj |}.

(** igt_plane_get_fb_id, igt_plane_get_fb_gem_handle *)
Definition igt_plane_get_fb_id (plane : igt_plane) : Z :=
  match fb plane with Some b => fb_id b | None => 0 end.

Definition igt_plane_get_fb_gem_handle (plane : igt_plane) : Z :=
  match fb plane with Some b => gem_handle b | None => 0 end.

(* ================================================================== *)
(** ** Results of code that can fail an igt_assert *)
(* ================================================================== *)

(** A call either returns a value or leaves through a failed igt_assert
    (igt_fail longjmps out of the test). *)
Inductive outcome (A : Type) : Type :=
| Ret (a : A)
| Abort.
Global Arguments Ret {A} a.
Global Arguments Abort {A}.

(** igt_pipe_get_plane: the slot of the plane array whose address is
    returned (for the cursor kind on a pipe without planes that is the
    slot before the array). *)
Definition igt_pipe_get_plane (p : igt_pipe) (plane : Z) : outcome Z :=
  (* Cursor plane is always the highest index *)
  if plane =? IGT_PLANE_CURSOR then Ret (n_planes p - 1)
  else if (0 <=? plane) && (plane <? n_planes p) then Ret plane
  else Abort.

(** Modelled from the spec: the enum igt_rotation_t of igt_kms.h is
    missing; its four values are the rotation bits of the kernel's
    property, 1 << 0 to 1 << 3. *)
Definition IGT_ROTATION_0 : Z := 1.
Definition IGT_ROTATION_90 : Z := 2.
Definition IGT_ROTATION_180 : Z := 4.
Definition IGT_ROTATION_270 : Z := 8.

(** rotation_name *)
Definition rotation_name (rotation : Z) : outcome string :=
  if rotation =? IGT_ROTATION_0 then Ret "0°"
  else if rotation =? IGT_ROTATION_90 then Ret "90°"
  else if rotation =? IGT_ROTATION_180 then Ret "180°"
  else if rotation =? IGT_ROTATION_270 then Ret "270°"
  else Abort.                        (* igt_assert(0) *)

(** igt_plane_set_rotation: the name of the rotation is worked out for
    the log before the plane is written. *)
Definition igt_plane_set_rotation (plane : igt_plane) (rotation : Z)
    : outcome igt_plane :=
  match rotation_name rotation with
  | Ret _ =>
      let plane := plane_with_rotation plane rotation in
      Ret (plane_with_flags plane (fb_changed plane) (position_changed plane)
                            true (size_changed plane))
  | Abort => Abort
  end.

(* ================================================================== *)
(** ** The driver boundary *)
(* ================================================================== *)

(** One request of an atomic transaction: object, property, value. *)
Definition atomic_item : Type := Z * Z * Z.

(** The libdrm entry points the library calls. *)
Inductive drm_call :=
| drmModeSetPlane (plane_id crtc fb_ flags crtc_x_ crtc_y_ crtc_w_ crtc_h_
                   src_x_ src_y_ src_w_ src_h_ : Z)
| drmModeSetCursor (crtc bo_handle w h : Z)
| drmModeMoveCursor (crtc x y : Z)
| drmModeSetCrtc (crtc buffer_id x y : Z) (connectors : list Z)
                 (mode : option drmModeModeInfo)
| drmModeObjectSetProperty (object_id object_type property_id value : Z)
| drmModeAtomicCommit (req : list atomic_item) (flags : Z)
| drmModeCreatePropertyBlob (data : option drmModeModeInfo)
| drmModeDestroyPropertyBlob (blob : Z)
| drmWaitVBlank (request_type sequence : Z)
| drmModeGetResources
| drmModeGetConnector (connector : Z)
| drmModeGetConnectorCurrent (connector : Z)
| drmModeGetEncoder (encoder : Z)
| drmModeGetCrtc (crtc : Z)
| drmModeObjectGetProperties (object_id object_type : Z).

(** A logged call with the integer it returned (0 for the calls that
    return a pointer). *)
Definition event : Type := drm_call * Z.

(** What lies outside igt_kms.c: the driver, answering each call from the
    history of calls, and three facts the missing headers and the C
    semantics leave open. *)
Record env := {
  drm_ret : list event -> drm_call -> Z;
  drm_resources : list event -> option (list Z);
  drm_connector : list event -> Z -> bool -> option drmModeConnector;
  drm_encoder : list event -> Z -> option drmModeEncoder;
  drm_crtc : list event -> Z -> option Z;
  drm_properties : list event -> Z -> option (list (Z * string));
  drm_blob_id : list event -> Z;
  (* kmstest_connector_type_str, defined outside the tree *)
  kmstest_connector_type_str : Z -> string;
  (* igt_plane_supports_rotation, an inline of igt_kms.h *)
  igt_plane_supports_rotation : igt_plane -> bool;
  (* the indeterminate value of do_display_commit's local ret, which is
     read before being written only when the display has no pipe *)
  ret_uninit : Z
}.

(** libdrm constants *)
Definition DRM_MODE_OBJECT_CRTC : Z := 0xcccccccc.
Definition DRM_MODE_OBJECT_CONNECTOR : Z := 0xc0c0c0c0.
Definition DRM_MODE_OBJECT_PLANE : Z := 0xeeeeeeee.
Definition DRM_MODE_ATOMIC_TEST_ONLY : Z := 0x0100.
Definition DRM_MODE_ATOMIC_ALLOW_MODESET : Z := 0x0400.
Definition DRM_MODE_TYPE_PREFERRED : Z := 8.
Definition DRM_MODE_CONNECTED : Z := 1.
Definition DRM_VBLANK_RELATIVE : Z := 0x1.
Definition _DRM_VBLANK_SECONDARY : Z := 0x20000000.
Definition DRM_VBLANK_HIGH_CRTC_MASK : Z := 0x0000003e.

(** Indices into the property-id caches, in the order of
    igt_plane_prop_names, igt_crtc_prop_names, igt_connector_prop_names. *)
Definition IGT_PLANE_SRC_X : nat := 0.
Definition IGT_PLANE_SRC_Y : nat := 1.
Definition IGT_PLANE_SRC_W : nat := 2.
Definition IGT_PLANE_SRC_H : nat := 3.
Definition IGT_PLANE_CRTC_X : nat := 4.
Definition IGT_PLANE_CRTC_Y : nat := 5.
Definition IGT_PLANE_CRTC_W : nat := 6.
Definition IGT_PLANE_CRTC_H : nat := 7.
Definition IGT_PLANE_FB_ID : nat := 8.
Definition IGT_PLANE_CRTC_ID : nat := 9.
Definition IGT_PLANE_TYPE : nat := 10.
Definition IGT_PLANE_ROTATION : nat := 11.
Definition IGT_CRTC_BACKGROUND : nat := 0.
Definition IGT_CRTC_CTM : nat := 1.
Definition IGT_CRTC_DEGAMMA_LUT : nat := 2.
Definition IGT_CRTC_GAMMA_LUT : nat := 3.
Definition IGT_CRTC_MODE_ID : nat := 4.
Definition IGT_CRTC_ACTIVE : nat := 5.
Definition IGT_CONNECTOR_SCALING_MODE : nat := 0.
Definition IGT_CONNECTOR_CRTC_ID : nat := 1.

Definition igt_connector_prop_names : list string :=
  ["scaling mode"; "CRTC_ID"]%string.

Definition to_uint32 (x : Z) : Z := x mod 2 ^ 32.
Definition to_uint64 (x : Z) : Z := x mod 2 ^ 64.

(** Modelled from the spec: the macro IGT_FIXED of igt_kms.h is missing;
    the source rectangle is passed in 16.16 fixed point, integer part [i]
    and fraction [f]. *)
Definition IGT_FIXED (i f : Z) : Z := Z.lor (Z.shiftl i 16) f.

(** ffs(3): one plus the index of the least significant set bit, 0 for 0. *)
Fixpoint ctz (p : positive) : Z :=
  match p with
  | xO q => 1 + ctz q
  | _ => 0
  end.

Definition ffs (x : Z) : Z :=
  match x with
  | Z0 => 0
  | Zpos p => 1 + ctz p
  | Zneg p => 1 + ctz p
  end.

(* ================================================================== *)
(** ** The monad of library code: display state, call log, igt_assert *)
(* ================================================================== *)

Record state := {
  display : igt_display;
  calls : list event
}.

Definition M (A : Type) : Type := state -> outcome A * state.

Global Instance M_ret : MRet M := fun A a st => (Ret a, st).

Global Instance M_bind : MBind M := fun A B f m st =>
  match m st with
  | (Ret a, st') => f a st'
  | (Abort, st') => (Abort, st')
  end.

Definition igt_assert (b : bool) : M unit :=
  fun st => (if b then Ret tt else Abort, st).

(** A fault of the C program (NULL dereference). *)
Definition crash {A} : M A := fun st => (Abort, st).

Definition get_display : M igt_display := fun st => (Ret (display st), st).

Definition modify_display (f : igt_display -> igt_display) : M unit :=
  fun st => (Ret tt, {| display := f (display st); calls := calls st |}).

(** Dereferencing a pointer: a fault when it is NULL or points past the
    array. *)
Definition deref {A} (x : option A) : M A :=
  fun st => match x with
            | Some a => (Ret a, st)
            | None => (Abort, st)
            end.

Definition get_pipe (p : nat) : M igt_pipe :=
  d ← get_display; deref (pipes d !! p).

Definition get_plane (p i : nat) : M igt_plane :=
  pipe_obj ← get_pipe p; deref (planes pipe_obj !! i).

Definition get_output (o : nat) : M igt_output :=
  d ← get_display; deref (outputs d !! o).

Definition modify_pipe (p : nat) (f : igt_pipe -> igt_pipe) : M unit :=
  modify_display (fun d =>
    display_with d (pipes_in_use d) (outputs d) (alter f p (pipes d))).

Definition modify_output (o : nat) (f : igt_output -> igt_output) : M unit :=
  modify_display (fun d =>
    display_with d (pipes_in_use d) (alter f o (outputs d)) (pipes d)).

(** A write through [&output->config]. *)
Definition modify_config (o : nat)
    (f : kmstest_connector_config -> kmstest_connector_config) : M unit :=
  modify_output o (fun out => output_set_config (f (config out)) out).

Definition set_pipes_in_use (v : Z) : M unit :=
  modify_display (fun d => display_with d v (outputs d) (pipes d)).

(** for (...) body, without early exit *)
Fixpoint for_each {A} (l : list A) (body : A -> M unit) : M unit :=
  match l with
  | [] => mret tt
  | x :: l' => body x ;; for_each l' body
  end.

(** for (...) body that appends to a local accumulator *)
Fixpoint fold_each {A B} (l : list A) (body : A -> B -> M B) (acc : B) : M B :=
  match l with
  | [] => mret acc
  | x :: l' => acc' ← body x acc; fold_each l' body acc'
  end.

(** The macro CHECK_RETURN(r, fail), followed by the rest [k] of the
    function that uses it. *)
Definition CHECK_RETURN (r : Z) (fail : bool) (k : M Z) : M Z :=
  if negb (r =? 0) && negb fail then mret r
  else igt_assert (r =? 0) ;; k.

(* ================================================================== *)
(** ** The KMS library over a driver *)
(* ================================================================== *)

Section KMS.

Variable E : env.

Definition log (c : drm_call) (r : Z) (st : state) : state :=
  {| display := display st; calls := calls st ++ [(c, r)] |}.

(** A libdrm call that returns an int. *)
Definition ioctl (c : drm_call) : M Z :=
  fun st => let r := drm_ret E (calls st) c in (Ret r, log c r st).

(** A libdrm call that returns an object or NULL. *)
Definition query {A} (c : drm_call) (reply : list event -> A) : M A :=
  fun st => (Ret (reply (calls st)), log c 0 st).

(** A value a libdrm call stores through an out pointer. *)
Definition out_param {A} (reply : list event -> A) : M A :=
  fun st => (Ret (reply (calls st)), st).

(* ------------------------------------------------------------------ *)
(** *** Connector configuration *)
(* ------------------------------------------------------------------ *)

Definition mode_zero : drmModeModeInfo :=
  {| mode_type := 0; hdisplay := 0; vdisplay := 0; mode_name := EmptyString |}.

Definition mode_preferred (m : drmModeModeInfo) : bool :=
  negb (Z.land (mode_type m) DRM_MODE_TYPE_PREFERRED =? 0).

(** The loop of kmstest_get_connector_default_mode from index [i]. *)
Fixpoint default_mode_from (i : nat) (ms : list drmModeModeInfo)
    (mode : drmModeModeInfo) : drmModeModeInfo :=
  match ms with
  | [] => mode
  | m :: ms' =>
      if (i =? 0)%nat || mode_preferred m then
        if mode_preferred m then m else default_mode_from (S i) ms' m
      else default_mode_from (S i) ms' mode
  end.

(** kmstest_get_connector_default_mode: the success flag and the mode
    stored through the out pointer. *)
Definition kmstest_get_connector_default_mode (connector : drmModeConnector)
    (mode : drmModeModeInfo) : bool * drmModeModeInfo :=
  match modes connector with
  | [] => (false, mode)
  | ms => (true, default_mode_from 0 ms mode)
  end.

(** _kmstest_connector_config_crtc_mask *)
Definition _kmstest_connector_config_crtc_mask (connector : drmModeConnector)
    : M Z :=
  fold_each (encoders connector)
    (fun e mask =>
       encoder ← query (drmModeGetEncoder e) (fun h => drm_encoder E h e);
       match encoder with
       | None => mret mask
       | Some enc => mret (Z.lor mask (possible_crtcs enc))
       end)
    0.

(** _kmstest_connector_config_find_encoder *)
Fixpoint _kmstest_connector_config_find_encoder (es : list Z) (pipe : Z)
    : M drmModeEncoder :=
  match es with
  | [] => _ ← igt_assert false; crash
  | e :: es' =>
      encoder ← query (drmModeGetEncoder e) (fun h => drm_encoder E h e);
      match encoder with
      | None => _kmstest_connector_config_find_encoder es' pipe
      | Some enc =>
          if negb (Z.land (possible_crtcs enc) (Z.shiftl 1 pipe) =? 0)
          then mret enc
          else _kmstest_connector_config_find_encoder es' pipe
      end
  end.

(** _kmstest_connector_config on [&output->config] of the output [o]; the
    fields are written in place. *)
Definition _kmstest_connector_config (connector_id_ crtc_idx_mask : Z)
    (o : nat) (probe : bool) : M bool :=
  modify_config o (config_set_pipe PIPE_NONE) ;;
  resources ← query drmModeGetResources (drm_resources E);
  match resources with
  | None => mret false
  | Some crtcs =>
      (* First, find the connector & mode *)
      connector ←
        (if probe
         then query (drmModeGetConnector connector_id_)
                    (fun h => drm_connector E h connector_id_ true)
         else query (drmModeGetConnectorCurrent connector_id_)
                    (fun h => drm_connector E h connector_id_ false));
      match connector with
      | None => mret false
      | Some connector =>
          if negb (connector_id connector =? connector_id_)
          then mret false
          else
            mask ← _kmstest_connector_config_crtc_mask connector;
            modify_config o (config_set_valid_crtc_idx_mask mask) ;;
            found ←
              match modes connector with
              | [] =>
                  modify_config o (config_set_default_mode mode_zero) ;;
                  mret true
              | _ =>
                  output ← get_output o;
                  let '(found, mode) :=
                    kmstest_get_connector_default_mode
                      connector (default_mode (config output)) in
                  modify_config o (config_set_default_mode mode) ;;
                  mret found
              end;
            if negb found then mret false
            else
              modify_config o (config_set_connector (Some connector)) ;;
              let crtc_idx_mask := Z.land crtc_idx_mask mask in
              if crtc_idx_mask =? 0 then
                (* Keep config->connector *)
                mret false
              else
                let pipe := ffs crtc_idx_mask - 1 in
                modify_config o (config_set_pipe pipe) ;;
                encoder ←
                  _kmstest_connector_config_find_encoder (encoders connector)
                                                         pipe;
                modify_config o (config_set_encoder (Some encoder)) ;;
                let crtc_ := nth (Z.to_nat pipe) crtcs 0 in
                crtc ← query (drmModeGetCrtc crtc_)
                             (fun h => drm_crtc E h crtc_);
                modify_config o (config_set_crtc crtc) ;;
                if negb (connection connector =? DRM_MODE_CONNECTED)
                then mret false
                else
                  match modes connector with
                  | [] => mret false
                  | _ => mret true
                  end
      end
  end.

(** The position of the first name of [names] equal to [nm]. *)
Fixpoint prop_index (names : list string) (nm : string) : option nat :=
  match names with
  | [] => None
  | n :: names' =>
      if String.eqb nm n then Some 0%nat
      else option_map S (prop_index names' nm)
  end.

(** igt_atomic_fill_connector_props: the property-id cache after the
    walk over the properties the driver reports. *)
Definition igt_atomic_fill_connector_props (o : nat) : M unit :=
  output ← get_output o;
  connector ← deref (config_connector (config output));
  props ← query (drmModeObjectGetProperties (connector_id connector)
                                            DRM_MODE_OBJECT_CONNECTOR)
                (fun h => drm_properties E h (connector_id connector));
  match props with
  | None => _ ← igt_assert false; crash
  | Some props =>
      modify_config o (fun c =>
        config_set_atomic_props_connector
          (fold_left
             (fun cache '(prop, nm) =>
                match prop_index igt_connector_prop_names nm with
                | Some j => <[j := prop]> cache
                | None => cache
                end)
             props (atomic_props_connector c))
          c)
  end.

(** igt_output_refresh *)
Definition igt_output_refresh (o : nat) (final : bool) : M unit :=
  output ← get_output o;
  display_ ← get_display;
  let crtc_idx_mask := pending_crtc_idx_mask output in
  (* we mask out the pipes already in use *)
  let crtc_idx_mask :=
    if final then Z.land crtc_idx_mask (Z.lnot (pipes_in_use display_))
    else crtc_idx_mask in
  modify_config o kmstest_free_connector_config ;;
  _ ← _kmstest_connector_config (output_id output) crtc_idx_mask o
        (force_reprobe output);
  modify_output o (output_set_force_reprobe false) ;;
  output ← get_output o;
  match name output, config_connector (config output) with
  | None, Some c =>
      modify_output o (output_set_name
        (Some (kmstest_connector_type_str E (connector_type c)
               +:+ "-" +:+ pretty (connector_type_id c))))
  | _, _ => mret tt
  end ;;
  match config_connector (config output) with
  | Some _ => igt_atomic_fill_connector_props o
  | None => mret tt
  end ;;
  (if use_override_mode output
   then modify_config o (config_set_default_mode (override_mode output))
   else mret tt) ;;
  output ← get_output o;
  if config_pipe (config output) =? PIPE_NONE then mret tt
  else if final then
    d ← get_display;
    set_pipes_in_use
      (Z.lor (pipes_in_use d) (Z.shiftl 1 (config_pipe (config output))))
  else mret tt.

(** igt_display_refresh *)
Definition igt_display_refresh : M unit :=
  set_pipes_in_use 0 ;;
  display_ ← get_display;
  (* Check that two outputs aren't trying to use the same pipe *)
  for_each (seq 0 (n_outputs display_)) (fun i =>
    a ← get_output i;
    if pending_crtc_idx_mask a =? 0 then mret tt
    else
      for_each (seq 0 (n_outputs display_)) (fun j =>
        b ← get_output j;
        if (i =? j)%nat then mret tt
        else igt_assert (negb (pending_crtc_idx_mask a
                               =? pending_crtc_idx_mask b)))) ;;
  for_each (seq 0 (n_outputs display_)) (fun i => igt_output_refresh i true).

(** igt_output_get_driving_pipe: the index of the pipe, None for NULL. *)
Definition igt_output_get_driving_pipe (o : nat) : M (option nat) :=
  output ← get_output o;
  display_ ← get_display;
  if pending_crtc_idx_mask output =? 0 then
    (* The user hasn't specified a pipe to use, return none. *)
    mret None
  else
    let pipe := ffs (pending_crtc_idx_mask output) - 1 in
    igt_assert ((0 <=? pipe) && (pipe <? Z.of_nat (n_pipes display_))) ;;
    mret (Some (Z.to_nat pipe)).

(** igt_pipe_get_output: the index of the first output bound to the pipe,
    None for NULL. *)
Definition igt_pipe_get_output (p : nat) : M (option nat) :=
  pipe_obj ← get_pipe p;
  display_ ← get_display;
  mret (fst <$> list_find
          (fun output =>
             pending_crtc_idx_mask output = Z.shiftl 1 (pipe pipe_obj))
          (outputs display_)).

(** igt_output_get_mode *)
Definition igt_output_get_mode (output : igt_output) : drmModeModeInfo :=
  default_mode (config output).

(** igt_output_set_pipe *)
Definition igt_output_set_pipe (o : nat) (pipe : Z) : M unit :=
  output ← get_output o;
  igt_assert (bool_decide (is_Some (name output))) ;;
  (if negb (pending_crtc_idx_mask output =? 0) then
     old_pipe ← igt_output_get_driving_pipe o;
     match old_pipe with
     | Some old => modify_pipe old (pipe_set_mode_changed true)
     | None => crash
     end
   else mret tt) ;;
  (if pipe =? PIPE_NONE then
     modify_output o (output_set_pending_crtc_idx_mask 0)
   else
     modify_output o (output_set_pending_crtc_idx_mask (Z.shiftl 1 pipe)) ;;
     (if 0 <=? pipe then
        _ ← get_pipe (Z.to_nat pipe);
        modify_pipe (Z.to_nat pipe) (pipe_set_mode_changed true)
      else crash)) ;;
  (if negb (pipe =? config_pipe (config output)) then
     modify_config o (config_set_pipe_changed true)
   else mret tt) ;;
  igt_output_refresh o false.

(* ------------------------------------------------------------------ *)
(** *** Property writes *)
(* ------------------------------------------------------------------ *)

(** igt_plane_set_property *)
Definition igt_plane_set_property (plane : igt_plane) (prop_id value : Z)
    : M Z :=
  plane_id ← deref (drm_plane plane);
  ioctl (drmModeObjectSetProperty plane_id DRM_MODE_OBJECT_PLANE
                                  prop_id value).

(** igt_crtc_set_property: a void function, the driver's answer is
    dropped. *)
Definition igt_crtc_set_property (pipe_obj : igt_pipe) (prop_id value : Z)
    : M unit :=
  _ ← ioctl (drmModeObjectSetProperty (crtc_id pipe_obj) DRM_MODE_OBJECT_CRTC
                                      prop_id value);
  mret tt.

(* ------------------------------------------------------------------ *)
(** *** Atomic protocol: building the transaction *)
(* ------------------------------------------------------------------ *)

(** Modelled from the spec: the macros igt_atomic_populate_plane_req,
    igt_atomic_populate_crtc_req and igt_atomic_populate_connector_req of
    igt_kms.h are missing; each appends one changed property of the object
    to the transaction, the property id being read from the object's
    cache and the value converted to the uint64_t that
    drmModeAtomicAddProperty takes. *)
Definition igt_atomic_populate_plane_req (req : list atomic_item)
    (plane : igt_plane) (prop : nat) (value : Z) : M (list atomic_item) :=
  plane_id ← deref (drm_plane plane);
  mret (req ++ [(plane_id, nth prop (atomic_props_plane plane) 0,
                 to_uint64 value)]).

Definition igt_atomic_populate_crtc_req (req : list atomic_item)
    (pipe_obj : igt_pipe) (prop : nat) (value : Z) : M (list atomic_item) :=
  mret (req ++ [(crtc_id pipe_obj,
                 nth prop (atomic_props_crtc pipe_obj) 0, to_uint64 value)]).

Definition igt_atomic_populate_connector_req (req : list atomic_item)
    (output : igt_output) (prop : nat) (value : Z) : M (list atomic_item) :=
  connector ← deref (config_connector (config output));
  mret (req ++ [(connector_id connector,
                 nth prop (atomic_props_connector (config output)) 0,
                 to_uint64 value)]).

(** igt_atomic_prepare_plane_commit *)
Definition igt_atomic_prepare_plane_commit (p i : nat)
    (req : list atomic_item) : M (list atomic_item) :=
  plane ← get_plane p i;
  pipe_obj ← get_pipe p;
  igt_assert (bool_decide (is_Some (drm_plane plane))) ;;
  (* it's an error to try an unsupported feature *)
  igt_assert (igt_plane_supports_rotation E plane
              || negb (rotation_changed plane)) ;;
  let fb_id := igt_plane_get_fb_id plane in
  let crtc_id := crtc_id pipe_obj in
  req ←
    (if fb_changed plane then
       req ← igt_atomic_populate_plane_req req plane IGT_PLANE_CRTC_ID
               (if negb (fb_id =? 0) then crtc_id else 0);
       igt_atomic_populate_plane_req req plane IGT_PLANE_FB_ID fb_id
     else mret req);
  req ←
    (if position_changed plane || size_changed plane then
       let src_x := to_uint32 (IGT_FIXED (src_x plane) 0) in
       let src_y := to_uint32 (IGT_FIXED (src_y plane) 0) in
       let src_w := to_uint32 (IGT_FIXED (src_w plane) 0) in
       let src_h := to_uint32 (IGT_FIXED (src_h plane) 0) in
       (* int32_t: the macro converts them to the uint64_t of a property *)
       let crtc_x := crtc_x plane in
       let crtc_y := crtc_y plane in
       let crtc_w := to_uint32 (crtc_w plane) in
       let crtc_h := to_uint32 (crtc_h plane) in
       req ← igt_atomic_populate_plane_req req plane IGT_PLANE_SRC_X src_x;
       req ← igt_atomic_populate_plane_req req plane IGT_PLANE_SRC_Y src_y;
       req ← igt_atomic_populate_plane_req req plane IGT_PLANE_SRC_W src_w;
       req ← igt_atomic_populate_plane_req req plane IGT_PLANE_SRC_H src_h;
       req ← igt_atomic_populate_plane_req req plane IGT_PLANE_CRTC_X crtc_x;
       req ← igt_atomic_populate_plane_req req plane IGT_PLANE_CRTC_Y crtc_y;
       req ← igt_atomic_populate_plane_req req plane IGT_PLANE_CRTC_W crtc_w;
       igt_atomic_populate_plane_req req plane IGT_PLANE_CRTC_H crtc_h
     else mret req);
  if rotation_changed plane then
    igt_atomic_populate_plane_req req plane IGT_PLANE_ROTATION
                                  (rotation plane)
  else mret req.

(** igt_pipe_replace_blob, for the mode blob of the pipe: [ptr] is the
    mode or NULL, the length is that of the mode. *)
Definition igt_pipe_replace_blob (p : nat) (ptr : option drmModeModeInfo)
    : M unit :=
  pipe_obj ← get_pipe p;
  (if negb (mode_blob pipe_obj =? 0) then
     r ← ioctl (drmModeDestroyPropertyBlob (mode_blob pipe_obj));
     igt_assert (r =? 0)
   else mret tt) ;;
  blob_id ←
    match ptr with
    | Some _ =>
        r ← ioctl (drmModeCreatePropertyBlob ptr);
        igt_assert (r =? 0) ;;
        out_param (drm_blob_id E)
    | None => mret 0
    end;
  modify_pipe p (pipe_set_mode_blob blob_id).

(** igt_atomic_prepare_crtc_commit *)
Definition igt_atomic_prepare_crtc_commit (p : nat) (req : list atomic_item)
    : M (list atomic_item) :=
  pipe_obj ← get_pipe p;
  req ←
    (if background_changed pipe_obj then
       igt_atomic_populate_crtc_req req pipe_obj IGT_CRTC_BACKGROUND
                                    (background pipe_obj)
     else mret req);
  req ←
    (if color_mgmt_changed pipe_obj then
       req ← igt_atomic_populate_crtc_req req pipe_obj IGT_CRTC_DEGAMMA_LUT
               (degamma_blob pipe_obj);
       req ← igt_atomic_populate_crtc_req req pipe_obj IGT_CRTC_CTM
               (ctm_blob pipe_obj);
       igt_atomic_populate_crtc_req req pipe_obj IGT_CRTC_GAMMA_LUT
               (gamma_blob pipe_obj)
     else mret req);
  if mode_changed pipe_obj then
    output ← igt_pipe_get_output p;
    match output with
    | None => igt_pipe_replace_blob p None
    | Some o =>
        output ← get_output o;
        igt_pipe_replace_blob p (Some (igt_output_get_mode output))
    end ;;
    pipe_obj ← get_pipe p;
    req ← igt_atomic_populate_crtc_req req pipe_obj IGT_CRTC_MODE_ID
            (mode_blob pipe_obj);
    igt_atomic_populate_crtc_req req pipe_obj IGT_CRTC_ACTIVE
            (match output with Some _ => 1 | None => 0 end)
  else mret req.

(** igt_atomic_prepare_connector_commit *)
Definition igt_atomic_prepare_connector_commit (o : nat)
    (req : list atomic_item) : M (list atomic_item) :=
  output ← get_output o;
  let config := config output in
  req ←
    (if connector_scaling_mode_changed config then
       igt_atomic_populate_connector_req req output
         IGT_CONNECTOR_SCALING_MODE (connector_scaling_mode config)
     else mret req);
  if pipe_changed config then
    crtc_id ←
      (if negb (config_pipe config =? PIPE_NONE)
       then deref (config_crtc config)
       else mret 0);
    igt_atomic_populate_connector_req req output IGT_CONNECTOR_CRTC_ID
                                      crtc_id
  else mret req.

(** igt_atomic_commit *)
Definition igt_atomic_commit (flags : Z) : M Z :=
  display_ ← get_display;
  if negb (is_atomic display_ =? 1) then mret (-1)
  else
    req ←
      fold_each (seq 0 (n_pipes display_))
        (fun pipe req =>
           pipe_obj ← get_pipe pipe;
           (* Add CRTC Properties to the property set *)
           req ← igt_atomic_prepare_crtc_commit pipe req;
           fold_each (seq 0 (length (planes pipe_obj)))
             (fun i req => igt_atomic_prepare_plane_commit pipe i req) req)
        [];
    req ←
      fold_each (seq 0 (n_outputs display_))
        (fun i req =>
           output ← get_output i;
           match config_connector (config output) with
           | None => mret req
           | Some _ => igt_atomic_prepare_connector_commit i req
           end)
        req;
    ioctl (drmModeAtomicCommit req flags).

(* ------------------------------------------------------------------ *)
(** *** Legacy and universal-plane protocols *)
(* ------------------------------------------------------------------ *)

(** igt_drm_plane_commit *)
Definition igt_drm_plane_commit (p i : nat) (fail_on_error : bool) : M Z :=
  plane ← get_plane p i;
  pipe_obj ← get_pipe p;
  igt_assert (bool_decide (is_Some (drm_plane plane))) ;;
  (* it's an error to try an unsupported feature *)
  igt_assert (igt_plane_supports_rotation E plane
              || negb (rotation_changed plane)) ;;
  plane_id ← deref (drm_plane plane);
  let fb_id := igt_plane_get_fb_id plane in
  let crtc_id := crtc_id pipe_obj in
  let rotate : M Z :=
    if rotation_changed plane then
      ret ← igt_plane_set_property plane (rotation_property plane)
                                   (rotation plane);
      CHECK_RETURN ret fail_on_error (mret 0)
    else mret 0 in
  if (fb_changed plane || size_changed plane) && (fb_id =? 0) then
    ret ← ioctl (drmModeSetPlane plane_id crtc_id fb_id 0
                   0 0 0 0
                   (IGT_FIXED 0 0) (IGT_FIXED 0 0)
                   (IGT_FIXED 0 0) (IGT_FIXED 0 0));
    CHECK_RETURN ret fail_on_error rotate
  else if fb_changed plane || position_changed plane || size_changed plane
  then
    let src_x := to_uint32 (IGT_FIXED (src_x plane) 0) in
    let src_y := to_uint32 (IGT_FIXED (src_y plane) 0) in
    let src_w := to_uint32 (IGT_FIXED (src_w plane) 0) in
    let src_h := to_uint32 (IGT_FIXED (src_h plane) 0) in
    let crtc_x := crtc_x plane in
    let crtc_y := crtc_y plane in
    let crtc_w := to_uint32 (crtc_w plane) in
    let crtc_h := to_uint32 (crtc_h plane) in
    ret ← ioctl (drmModeSetPlane plane_id crtc_id fb_id 0
                   crtc_x crtc_y crtc_w crtc_h
                   src_x src_y src_w src_h);
    CHECK_RETURN ret fail_on_error rotate
  else rotate.

(** igt_cursor_commit_legacy *)
Definition igt_cursor_commit_legacy (p i : nat) (fail_on_error : bool)
    : M Z :=
  cursor ← get_plane p i;
  pipe_obj ← get_pipe p;
  let crtc_id := crtc_id pipe_obj in
  let move : M Z :=
    if position_changed cursor then
      let x := crtc_x cursor in
      let y := crtc_y cursor in
      ret ← ioctl (drmModeMoveCursor crtc_id x y);
      CHECK_RETURN ret fail_on_error (mret 0)
    else mret 0 in
  if fb_changed cursor then
    let gem_handle := igt_plane_get_fb_gem_handle cursor in
    ret ←
      (if negb (gem_handle =? 0) then
         ioctl (drmModeSetCursor crtc_id gem_handle
                                 (to_uint32 (crtc_w cursor))
                                 (to_uint32 (crtc_h cursor)))
       else
         ioctl (drmModeSetCursor crtc_id 0 0 0));
    CHECK_RETURN ret fail_on_error move
  else move.

(** igt_primary_plane_commit_legacy *)
Definition igt_primary_plane_commit_legacy (p i : nat) (fail_on_error : bool)
    : M Z :=
  primary ← get_plane p i;
  pipe_obj ← get_pipe p;
  output ← igt_pipe_get_output p;
  (* Primary planes can't be windowed when using a legacy commit *)
  igt_assert ((crtc_x primary =? 0) && (crtc_y primary =? 0)) ;;
  (* nor rotated *)
  igt_assert (negb (rotation_changed primary)) ;;
  if negb (fb_changed primary) && negb (position_changed primary)
     && negb (size_changed primary)
  then mret 0
  else
    let crtc_id := crtc_id pipe_obj in
    let fb_id := igt_plane_get_fb_id primary in
    ret ←
      (if negb (fb_id =? 0) then
         o ← deref output;
         output ← get_output o;
         let mode := igt_output_get_mode output in
         ioctl (drmModeSetCrtc crtc_id fb_id (src_x primary) (src_y primary)
                               [output_id output] (Some mode))
       else
         ioctl (drmModeSetCrtc crtc_id fb_id 0 0 [] None));
    CHECK_RETURN ret fail_on_error
      (modify_pipe p (pipe_set_enabled (negb (fb_id =? 0))) ;;
       mret 0).

(** igt_plane_commit *)
Definition igt_plane_commit (p i : nat) (s : igt_commit_style)
    (fail_on_error : bool) : M Z :=
  plane ← get_plane p i;
  if is_cursor plane && bool_decide (s = COMMIT_LEGACY) then
    igt_cursor_commit_legacy p i fail_on_error
  else if is_primary plane && bool_decide (s = COMMIT_LEGACY) then
    igt_primary_plane_commit_legacy p i fail_on_error
  else
    igt_drm_plane_commit p i fail_on_error.

(** kmstest_get_vbl_flag *)
Definition kmstest_get_vbl_flag (pipe_id : Z) : M Z :=
  if pipe_id =? 0 then mret 0
  else if pipe_id =? 1 then mret _DRM_VBLANK_SECONDARY
  else
    let pipe_flag := to_uint32 (Z.shiftl pipe_id 1) in
    igt_assert (Z.land pipe_flag (Z.lnot DRM_VBLANK_HIGH_CRTC_MASK) =? 0) ;;
    mret pipe_flag.

(** igt_wait_for_vblank *)
Definition igt_wait_for_vblank (pipe : Z) : M unit :=
  pipe_id_flag ← kmstest_get_vbl_flag (to_uint32 pipe);
  r ← ioctl (drmWaitVBlank (Z.lor DRM_VBLANK_RELATIVE pipe_id_flag) 1);
  igt_assert (r =? 0).

(** The plane loop of igt_pipe_commit from the planes [ids] on, followed
    by the rest [k] of the function. *)
Fixpoint igt_pipe_commit_planes (p : nat) (s : igt_commit_style)
    (fail_on_error : bool) (ids : list nat) (need_wait_for_vblank : bool)
    (k : bool -> M Z) : M Z :=
  match ids with
  | [] => k need_wait_for_vblank
  | i :: ids' =>
      plane ← get_plane p i;
      let need_wait_for_vblank :=
        if fb_changed plane || position_changed plane || size_changed plane
        then true else need_wait_for_vblank in
      ret ← igt_plane_commit p i s fail_on_error;
      CHECK_RETURN ret fail_on_error
        (igt_pipe_commit_planes p s fail_on_error ids' need_wait_for_vblank k)
  end.

(** igt_pipe_commit *)
Definition igt_pipe_commit (p : nat) (s : igt_commit_style)
    (fail_on_error : bool) : M Z :=
  pipe_obj ← get_pipe p;
  (if background_changed pipe_obj then
     igt_crtc_set_property pipe_obj (background_property pipe_obj)
                           (background pipe_obj)
   else mret tt) ;;
  (if color_mgmt_changed pipe_obj then
     igt_crtc_set_property pipe_obj (degamma_property pipe_obj)
                           (degamma_blob pipe_obj) ;;
     igt_crtc_set_property pipe_obj (ctm_property pipe_obj)
                           (ctm_blob pipe_obj) ;;
     igt_crtc_set_property pipe_obj (gamma_property pipe_obj)
                           (gamma_blob pipe_obj)
   else mret tt) ;;
  igt_pipe_commit_planes p s fail_on_error
    (seq 0 (length (planes pipe_obj))) false
    (fun need_wait_for_vblank =>
       (* If the crtc is enabled, wait until the next vblank before
          returning if we made changes to any of the planes. *)
       pipe_obj ← get_pipe p;
       (if need_wait_for_vblank && enabled pipe_obj
        then igt_wait_for_vblank (pipe pipe_obj)
        else mret tt) ;;
       mret 0).

End KMS.

(* ------------------------------------------------------------------ *)
(** *** Clearing the change tracker *)
(* ------------------------------------------------------------------ *)

(** display_commit_changed *)
Definition display_commit_changed (display : igt_display)
    (s : igt_commit_style) : igt_display :=
  display_with display (pipes_in_use display)
    (map (fun output =>
            let c := config output in
            output_set_config
              (config_with_flags c
                 (if bool_decide (s <> COMMIT_UNIVERSAL) then false
                  else pipe_changed c)
                 (if bool_decide (s = COMMIT_ATOMIC) then false
                  else connector_scaling_mode_changed c))
              output)
         (outputs display))
    (map (fun pipe_obj =>
            pipe_with pipe_obj (enabled pipe_obj)
              (map (fun plane =>
                      plane_with_flags plane false false
                        (if bool_decide (s <> COMMIT_LEGACY)
                            || negb (is_primary plane || is_cursor plane)
                         then false else rotation_changed plane)
                        false)
                   (planes pipe_obj))
              false false (mode_blob pipe_obj)
              (if bool_decide (s <> COMMIT_UNIVERSAL) then false
               else mode_changed pipe_obj))
         (pipes display)).

(* ------------------------------------------------------------------ *)
(** *** Commit entry points *)
(* ------------------------------------------------------------------ *)

Section Commit.

Variable E : env.

(** The tail of do_display_commit, from LOG_UNINDENT on. *)
Definition do_display_commit_finish (s : igt_commit_style) (ret : Z) : M Z :=
  if negb (ret =? 0) then mret ret
  else
    modify_display (fun d => display_commit_changed d s) ;;
    mret 0.

(** The pipe loop of the non-atomic branch of do_display_commit from the
    pipes [ps] on, followed by the rest [k] of the branch. *)
Fixpoint do_display_commit_pipes (s : igt_commit_style)
    (fail_on_error : bool) (ps : list nat) (ret valid_outs : Z)
    (k : Z -> Z -> M Z) : M Z :=
  match ps with
  | [] => k ret valid_outs
  | pipe :: ps' =>
      output ← igt_pipe_get_output pipe;
      let valid_outs :=
        match output with Some _ => valid_outs + 1 | None => valid_outs end in
      ret ← igt_pipe_commit E pipe s fail_on_error;
      CHECK_RETURN ret fail_on_error
        (do_display_commit_pipes s fail_on_error ps' ret valid_outs k)
  end.

(** do_display_commit *)
Definition do_display_commit (s : igt_commit_style) (fail_on_error : bool)
    : M Z :=
  igt_display_refresh E ;;
  if bool_decide (s = COMMIT_ATOMIC) then
    ret ← igt_atomic_commit E DRM_MODE_ATOMIC_ALLOW_MODESET;
    CHECK_RETURN ret fail_on_error (do_display_commit_finish s ret)
  else
    display_ ← get_display;
    do_display_commit_pipes s fail_on_error (seq 0 (n_pipes display_))
      (ret_uninit E) 0
      (fun ret valid_outs =>
         CHECK_RETURN ret fail_on_error
           (if valid_outs =? 0 then mret (-1)
            else do_display_commit_finish s ret)).

(** igt_display_try_commit_atomic *)
Definition igt_display_try_commit_atomic (flags : Z) : M Z :=
  igt_display_refresh E ;;
  ret ← igt_atomic_commit E flags;
  if negb (ret =? 0) || negb (Z.land flags DRM_MODE_ATOMIC_TEST_ONLY =? 0)
  then mret ret
  else
    modify_display (fun d => display_commit_changed d COMMIT_ATOMIC) ;;
    mret 0.

(** igt_display_commit_atomic *)
Definition igt_display_commit_atomic (flags : Z) : M unit :=
  ret ← igt_display_try_commit_atomic flags;
  igt_assert (ret =? 0).

(** igt_display_commit2 *)
Definition igt_display_commit2 (s : igt_commit_style) : M Z :=
  do_display_commit s true ;;
  mret 0.

(** igt_display_try_commit2 *)
Definition igt_display_try_commit2 (s : igt_commit_style) : M Z :=
  do_display_commit s false.

(** igt_display_commit *)
Definition igt_display_commit : M Z :=
  igt_display_commit2 COMMIT_LEGACY.

End Commit.

(* ================================================================== *)
(** ** Pipe CRC capture *)
(* ================================================================== *)

Module PipeCrc.

(** igt_crc_t *)
Record igt_crc := {
  frame : Z;
  has_valid_frame : bool;
  n_words : Z;
  crc : list Z                   (* the entries of the array *)
}.

(** struct _igt_pipe_crc *)
Record igt_pipe_crc := {
  ctl_fd : Z;
  crc_fd : Z;
  flags : Z;
  is_legacy : bool;
  pipe : Z;
  source : nat                   (* enum intel_pipe_crc_source *)
}.

Definition MAX_CRC_ENTRIES : Z := 10.
Definition MAX_LINE_LEN : Z := 10 + 11 * MAX_CRC_ENTRIES + 1.
(* (6 fields, 8 chars each, space separated (5) + '\n') *)
Definition LEGACY_LINE_LEN : Z := 6 * 8 + 5 + 1.



(** kmstest_pipe_name *)
Definition kmstest_pipe_name (pipe : Z) : string :=
  if pipe =? PIPE_NONE then "None"
  else if 2 <? pipe then "invalid"
  else nth (Z.to_nat pipe) ["A"; "B"; "C"]%string EmptyString.

(** What one read(2) on the CRC data file leaves behind: the return
    value, errno, and the buffer as a string. *)
Record read_reply := {
  rd_ret : Z;
  rd_errno : Z;
  rd_buf : string
}.

(** System calls made on the debugfs files. *)
Inductive sys_call :=
| sys_write (fd : Z) (buf : string)
| sys_read (fd : Z) (len : Z)
| sys_close (fd : Z)
| sys_open (path : string) (mode : Z)
| sys_usleep (usec : Z).

(** What lies outside the CRC code: the answers of write(2) and of
    igt_debugfs_open (return value and errno afterwards), the libc
    scanners, and the platform's constants. *)
Record env := {
  write_reply : list sys_call -> Z -> string -> Z * Z;
  open_reply : list sys_call -> string -> Z -> Z * Z;
  (* sscanf(line, "%8u %8x %8x %8x %8x %8x", ...): its return value n,
     the value it converted for the frame (when 1 <= n) and the values it
     converted for the words, in order (n - 1 of them) *)
  sscanf_crc : string -> Z * Z * list Z;
  (* strtoul(s, NULL, 16) *)
  strtoul16 : string -> Z;
  EAGAIN : positive;
  EINVAL : positive;
  O_NONBLOCK : Z;
  (* the number of entries of the array crc of an igt_crc_t
     (igt_debugfs.h) *)
  DRM_MAX_CRC_NR : nat
}.

(** The capture object, the answers the data file will give to the next
    reads, and the log of system calls. *)
Record state := {
  pipe_crc : igt_pipe_crc;
  replies : list read_reply;
  sys_log : list sys_call
}.

(** A call returns, fails an igt_assert, or is still polling when the
    answers of the data file are used up. *)
Inductive result (A : Type) : Type :=
| Done (a : A)
| Failed
| Pending.
Global Arguments Done {A} a.
Global Arguments Failed {A}.
Global Arguments Pending {A}.

Definition M (A : Type) : Type := state -> result A * state.

Global Instance M_ret : MRet M := fun A a st => (Done a, st).

Global Instance M_bind : MBind M := fun A B f m st =>
  match m st with
  | (Done a, st') => f a st'
  | (Failed, st') => (Failed, st')
  | (Pending, st') => (Pending, st')
  end.

Definition igt_assert (b : bool) : M unit :=
  fun st => (if b then Done tt else Failed, st).

Definition get_pipe_crc : M igt_pipe_crc := fun st => (Done (pipe_crc st), st).


Definition logged (c : sys_call) (st : state) : state :=
  {| pipe_crc := pipe_crc st; replies := replies st;
     sys_log := sys_log st ++ [c] |}.

Section Crc.

Variable E : env.


(** read(2) on the data file: takes the next answer. *)
Definition read (fd : Z) (len : Z) : M read_reply :=
  fun st =>
    match replies st with
    | [] => (Pending, st)
    | r :: rs =>
        (Done r,
         {| pipe_crc := pipe_crc st; replies := rs;
            sys_log := sys_log st ++ [sys_read fd len] |})
    end.


Definition usleep (usec : Z) : M unit :=
  fun st => (Done tt, logged (sys_usleep usec) st).


Definition strlen (s : string) : Z := Z.of_nat (String.length s).

(** The word loop of pipe_crc_init_from_string on the generic ABI:
    [buf] advances by 11 characters until it points at a newline. *)
Fixpoint crc_words (fuel : nat) (buf : string) : list Z :=
  match fuel with
  | O => []
  | S fuel' =>
      let next := String.substring 11 (String.length buf - 11) buf in
      match buf with
      | String c _ =>
          if Ascii.eqb c (Ascii.ascii_of_nat 10) then []
          else strtoul16 E buf :: crc_words fuel' next
      | EmptyString => strtoul16 E buf :: crc_words fuel' next
      end
  end.

(** The stores crc->crc[i] = w, one for each word of [ws], from slot [i]
    on; the other entries of the array stay.  The array has DRM_MAX_CRC_NR
    entries: a store past its end lies outside the record, which keeps
    its size here. *)
Fixpoint store_words (ws : list Z) (i : nat) (crc : list Z) : list Z :=
  match ws with
  | [] => crc
  | w :: ws' => store_words ws' (S i) (<[i := w]> crc)
  end.

(** pipe_crc_init_from_string: the return value and the record left in
    [*crc].  sscanf stores what it converts and nothing else: the frame
    after one conversion, crc[i] after i + 2; the fields a line does not
    reach stay what they were. *)
Definition pipe_crc_init_from_string (pipe_crc : igt_pipe_crc)
    (crc_ : igt_crc) (line : string) : bool * igt_crc :=
  if is_legacy pipe_crc then
    let '(n, frame_, words) := sscanf_crc E line in
    (n =? 6,
     {| frame := if 1 <=? n then frame_ else frame crc_;
        has_valid_frame := true; n_words := 5;
        crc := store_words (take (Z.to_nat (n - 1)) words) 0 (crc crc_) |})
  else
    let words := crc_words (String.length line) (String.substring 10 (String.length line - 10) line) in
    (true,
     if String.eqb (String.substring 0 10 line) "XXXXXXXXXX" then
       {| frame := frame crc_; has_valid_frame := false;
          n_words := Z.of_nat (length words);
          crc := store_words words 0 (crc crc_) |}
     else
       {| frame := strtoul16 E line; has_valid_frame := true;
          n_words := Z.of_nat (length words);
          crc := store_words words 0 (crc crc_) |}).

(** read_crc: the return value and the record left in [*out].  After a
    read that failed with another error than EAGAIN, bytes_read is
    negative: the code ends the string at buf[bytes_read] and scans what
    the buffer holds, for which [rd_buf] stands. *)
Definition read_crc (out : igt_crc) : M (Z * igt_crc) :=
  pipe_crc ← get_pipe_crc;
  let read_len :=
    if is_legacy pipe_crc then LEGACY_LINE_LEN else MAX_LINE_LEN in
  reply ← read (crc_fd pipe_crc) read_len;
  bytes_read ←
    (if (rd_ret reply <? 0) && (rd_errno reply =? Z.pos (EAGAIN E)) then
       igt_assert (negb (Z.land (flags pipe_crc) (O_NONBLOCK E) =? 0)) ;;
       mret 0
     else mret (rd_ret reply));
  if negb (bytes_read =? 0) then
    let '(parsed, out') :=
      pipe_crc_init_from_string pipe_crc out (rd_buf reply) in
    if negb parsed then mret (- Z.pos (EINVAL E), out')
    else mret (bytes_read, out')
  else mret (bytes_read, out).

(** The loop of read_one_crc; [n] bounds the number of reads by the
    number of answers left, after which [read] is pending. *)
Fixpoint read_one_crc_loop (n : nat) (out : igt_crc) : M igt_crc :=
  match n with
  | O => fun st => (Pending, st)
  | S n' =>
      '(r, out) ← read_crc out;
      if r =? 0 then usleep 1000 ;; read_one_crc_loop n' out
      else mret out
  end.

(** read_one_crc *)
Definition read_one_crc (out : igt_crc) : M igt_crc :=
  fun st => read_one_crc_loop (S (length (replies st))) out st.



(** A zeroed igt_crc_t. *)
Definition crc_zero : igt_crc :=
  {| frame := 0; has_valid_frame := false; n_words := 0;
     crc := replicate (DRM_MAX_CRC_NR E) 0 |}.



(** What read_crc makes of one answer when the capture object has the
    flags [fl]: an empty poll (it returns 0), or a record or an error (it
    returns non-zero). *)
Definition empty_poll (fl : Z) (r : read_reply) : bool :=
  if (rd_ret r <? 0) && (rd_errno r =? Z.pos (EAGAIN E))
  then negb (Z.land fl (O_NONBLOCK E) =? 0)
  else rd_ret r =? 0.

Definition delivers (r : read_reply) : bool :=
  negb ((rd_ret r <? 0) && (rd_errno r =? Z.pos (EAGAIN E)))
  && negb (rd_ret r =? 0).

End Crc.

End PipeCrc.

(* ================================================================== *)
(** ** The kmstest_ helpers of igt_kms.c *)
(* ================================================================== *)

(* ------------------------------------------------------------------ *)
(** *** EDID blocks *)
(* ------------------------------------------------------------------ *)

(** A store through an unsigned char lvalue. *)
Definition to_uchar (x : Z) : Z := x mod 256.

(** A store through a char lvalue; the platform decides whether char is
    signed. *)
Definition to_char (char_signed : bool) (x : Z) : Z :=
  if char_signed then (x + 128) mod 256 - 128 else x mod 256.

(** update_edid_csum on the bytes of a block; [tm_year] is the year that
    localtime reports.  The function writes edid[17] and edid[127]: a
    block of less than 128 bytes is written out of bounds. *)
Definition update_edid_csum (tm_year : Z) (edid : list Z)
    : option (list Z) :=
  if (length edid <? 128)%nat then None
  else
    (* year of manufacture *)
    let edid := <[17%nat := to_uchar (tm_year - 90)]> edid in
    (* calculate checksum *)
    let sum := fold_left (fun sum b => sum + b) (take 127 edid) 0 in
    Some (<[127%nat := to_uchar (256 - sum)]> edid).

(** The stores new_edid[pos++] = b, one for each byte of [bs]. *)
Fixpoint store_bytes (bs : list Z) (pos : nat) (new_edid : list Z)
    : list Z :=
  match bs with
  | [] => new_edid
  | b :: bs' => store_bytes bs' (S pos) (<[pos := b]> new_edid)
  end.

(** kmstest_edid_add_3d: the new block and its length, which the
    function stores through its two out pointers.  [edid] holds the
    [length] bytes that are copied. *)
Definition kmstest_edid_add_3d (char_signed : bool) (edid : list Z)
    : list Z * Z :=
  let length_ := length edid in
  let cea_header_len := 4 in
  let video_block_len := 6 in
  let vsdb_block_len := 11 in
  let new_length := Z.of_nat length_ + 128 in
  (* calloc and memcpy *)
  let new_edid := edid ++ replicate 128 0 in
  let n_extensions := nth 126 new_edid 0 in
  let n_extensions := n_extensions + 1 in
  let new_edid := <[126%nat := to_uchar n_extensions]> new_edid in
  (* recompute checksum *)
  let sum :=
    fold_left (fun sum b => to_char char_signed (sum + b))
              (take 127 new_edid) 0 in
  let new_edid := <[127%nat := to_uchar (256 - sum)]> new_edid in
  let new_edid :=
    store_bytes
      [ (* add a cea-861 extension block *)
        0x2; 0x3; cea_header_len + video_block_len + vsdb_block_len; 0x0;
        (* video block (id | length) *)
        Z.lor (Z.shiftl 2 5) (video_block_len - 1);
        Z.lor 32 0x80;  (* 1080p @ 24Hz | (native) *)
        5;              (* 1080i @ 60Hz *)
        20;             (* 1080i @ 50Hz *)
        4;              (* 720p @ 60Hz *)
        19;             (* 720p @ 50Hz *)
        (* vsdb block ( id | length ) *)
        Z.lor (Z.shiftl 3 5) (vsdb_block_len - 1);
        (* registration id *)
        0x3; 0xc; 0x0;
        (* source physical address *)
        0x10; 0x00;
        (* Supports_AI ... etc *)
        0x00;
        (* Max TMDS Clock *)
        0x00;
        (* Latency present, HDMI Video Present *)
        0x20;
        (* HDMI Video *)
        0x80; 0x00 ]
      length_ new_edid in
  (* checksum *)
  let sum :=
    fold_left (fun sum b => to_char char_signed (sum + b))
              (take 127 (drop length_ new_edid)) 0 in
  (<[(length_ + 127)%nat := to_uchar (256 - sum)]> new_edid, new_length).

(* ------------------------------------------------------------------ *)
(** *** Pipe names and vblank flags *)
(* ------------------------------------------------------------------ *)

(** kmstest_pipe_to_index; [EINVAL] is the platform's errno value. *)
Definition kmstest_pipe_to_index (EINVAL : positive) (pipe : Ascii.ascii)
    : Z :=
  if Ascii.eqb pipe "A"%char then 0
  else if Ascii.eqb pipe "B"%char then 1
  else if Ascii.eqb pipe "C"%char then 2
  else - Z.pos EINVAL.

Definition DRM_VBLANK_HIGH_CRTC_SHIFT : Z := 1.
Definition DRM_VBLANK_SECONDARY : Z := _DRM_VBLANK_SECONDARY.

(** pipe_select *)
Definition pipe_select (pipe : Z) : Z :=
  if 1 <? pipe then to_uint32 (Z.shiftl pipe DRM_VBLANK_HIGH_CRTC_SHIFT)
  else if 0 <? pipe then DRM_VBLANK_SECONDARY
  else 0.

(* ------------------------------------------------------------------ *)
(** *** CRTC lookup *)
(* ------------------------------------------------------------------ *)

(** The loop of kmstest_get_crtc_idx from index [i] on; [crtcs] are the
    entries res->crtcs[i..count_crtcs). *)
Fixpoint kmstest_get_crtc_idx_from (i : Z) (crtcs : list Z) (crtc_id : Z)
    : outcome Z :=
  match crtcs with
  | [] => Abort                      (* igt_assert(false) *)
  | c :: crtcs' =>
      if c =? crtc_id then Ret i
      else kmstest_get_crtc_idx_from (i + 1) crtcs' crtc_id
  end.

(** kmstest_get_crtc_idx *)
Definition kmstest_get_crtc_idx (res_crtcs : list Z) (crtc_id : Z)
    : outcome Z :=
  kmstest_get_crtc_idx_from 0 res_crtcs crtc_id.

(** The inner loop of kmstest_find_crtc_for_connector,
    for (j = 0; possible_crtcs >> j; j++), from [j] on: the first j with
    bit j of [possible_crtcs] set, None when the loop ends without one. *)
Fixpoint find_crtc_bit (n : nat) (j : Z) (possible_crtcs : Z) : option Z :=
  match n with
  | O => None
  | S n' =>
      if Z.shiftr possible_crtcs j =? 0 then None
      else if negb (Z.land possible_crtcs (Z.shiftl 1 j) =? 0) then Some j
      else find_crtc_bit n' (j + 1) possible_crtcs
  end.

Section Kmstest.

Variable E : env.

(** The encoder loop of kmstest_find_crtc_for_connector over the
    encoders [es] that are left. *)
Fixpoint kmstest_find_crtc_for_connector_from (res_crtcs : list Z)
    (es : list Z) (crtc_blacklist_idx_mask : Z) : M Z :=
  match es with
  | [] => _ ← igt_assert false; crash
  | e_ :: es' =>
      e ← query (drmModeGetEncoder e_) (fun h => drm_encoder E h e_);
      e ← deref e;
      let possible_crtcs :=
        Z.land (possible_crtcs e)
               (to_uint32 (Z.lnot crtc_blacklist_idx_mask)) in
      (* a uint32_t has 32 bits: the loop ends within 32 rounds *)
      match find_crtc_bit 32 0 possible_crtcs with
      | Some j => deref (res_crtcs !! Z.to_nat j)
      | None =>
          kmstest_find_crtc_for_connector_from res_crtcs es'
                                               crtc_blacklist_idx_mask
      end
  end.

(** kmstest_find_crtc_for_connector *)
Definition kmstest_find_crtc_for_connector (res_crtcs : list Z)
    (connector : drmModeConnector) (crtc_blacklist_idx_mask : Z) : M Z :=
  kmstest_find_crtc_for_connector_from res_crtcs (encoders connector)
                                       crtc_blacklist_idx_mask.

(** kmstest_unset_all_crtcs *)
Definition kmstest_unset_all_crtcs (res_crtcs : list Z) : M unit :=
  for_each res_crtcs (fun crtc =>
    rc ← ioctl E (drmModeSetCrtc crtc 0 0 0 [] None);
    igt_assert (rc =? 0)).

End Kmstest.

(* ------------------------------------------------------------------ *)
(** *** Outputs: mode override and plane lookup *)
(* ------------------------------------------------------------------ *)

Definition output_set_override (use : bool) (m : drmModeModeInfo)
    (o : igt_output) : igt_output :=
  {| output_id := output_id o; config := config o; name := name o;
     force_reprobe := force_reprobe o;
     pending_crtc_idx_mask := pending_crtc_idx_mask o;
     use_override_mode := use; override_mode := m |}.

(** igt_output_override_mode; [mode] is None for NULL. *)
Definition igt_output_override_mode (o : nat)
    (mode : option drmModeModeInfo) : M unit :=
  pipe ← igt_output_get_driving_pipe o;
  output ← get_output o;
  match mode with
  | Some m =>
      modify_output o (output_set_override (use_override_mode output) m)
  | None =>
      (* restore default_mode, may have been overwritten in
         igt_output_refresh *)
      connector ← deref (config_connector (config output));
      modify_config o
        (config_set_default_mode
           (snd (kmstest_get_connector_default_mode
                   connector (default_mode (config output)))))
  end ;;
  modify_output o (fun out =>
    output_set_override (bool_decide (is_Some mode)) (override_mode out)
                        out) ;;
  match pipe with
  | Some p => modify_pipe p (pipe_set_mode_changed true)
  | None => mret tt
  end.

(** igt_output_get_plane: the pipe and the slot of the plane whose
    address is returned. *)
Definition igt_output_get_plane (o : nat) (plane : Z) : M (nat * Z) :=
  pipe ← igt_output_get_driving_pipe o;
  igt_assert (bool_decide (is_Some pipe)) ;;
  p ← deref pipe;
  pipe_obj ← get_pipe p;
  match igt_pipe_get_plane pipe_obj plane with
  | Ret idx => mret (p, idx)
  | Abort => _ ← igt_assert false; crash
  end.

(* ------------------------------------------------------------------ *)
(** *** Pipe of a CRTC *)
(* ------------------------------------------------------------------ *)

Section PipeOfCrtc.

Variable E : env.

(** The loop of kmstest_get_pipe_from_crtc_id from index [i] on, over the
    entries of res->crtcs that are left: the value of i when the loop
    ends. *)
Fixpoint kmstest_get_pipe_from_crtc_id_from (i : Z) (crtcs : list Z)
    (crtc_id : Z) : M Z :=
  match crtcs with
  | [] => mret i
  | c :: crtcs' =>
      crtc ← query (drmModeGetCrtc c) (fun h => drm_crtc E h c);
      igt_assert (bool_decide (is_Some crtc)) ;;
      cur_id ← deref crtc;
      if cur_id =? crtc_id then mret i
      else kmstest_get_pipe_from_crtc_id_from (i + 1) crtcs' crtc_id
  end.

(** kmstest_get_pipe_from_crtc_id *)
Definition kmstest_get_pipe_from_crtc_id (crtc_id : Z) : M Z :=
  res ← query drmModeGetResources (drm_resources E);
  igt_assert (bool_decide (is_Some res)) ;;
  res_crtcs ← deref res;
  i ← kmstest_get_pipe_from_crtc_id_from 0 res_crtcs crtc_id;
  igt_assert (i <? Z.of_nat (length res_crtcs)) ;;
  mret i.

End PipeOfCrtc.

(* ================================================================== *)
(** ** Reading several CRCs *)
(* ================================================================== *)

Section CrcReader.

Import PipeCrc.

Variable E : PipeCrc.env.

(** What read_crc leaves in the array when it was given &crcs[n] and
    returned [ret]: it writes the record only when it has read something,
    and a write to a slot outside the array is a fault, counted with the
    failures. *)
Definition store_crc (crcs : list igt_crc) (n : Z) (ret : Z) (crc_ : igt_crc)
    : M (list igt_crc) :=
  if ret =? 0 then mret crcs
  else if (0 <=? n) && (n <? Z.of_nat (length crcs))
  then mret (<[Z.to_nat n := crc_]> crcs)
  else fun st => (Failed, st).

(** The do-while loop of igt_pipe_crc_get_crcs with [n] records captured;
    each round makes one read, so [fuel] rounds are enough when [fuel]
    exceeds the number of answers that are left. *)
Fixpoint igt_pipe_crc_get_crcs_loop (fuel : nat) (n_crcs : Z)
    (crcs : list igt_crc) (n : Z) : M (Z * list igt_crc) :=
  match fuel with
  | O => fun st => (Pending, st)
  | S fuel' =>
      '(ret, crc_) ← read_crc E (nth (Z.to_nat n) crcs (crc_zero E));
      crcs ← store_crc crcs n ret crc_;
      if ret <? 0 then
        (* continue *)
        if n <? n_crcs then igt_pipe_crc_get_crcs_loop fuel' n_crcs crcs n
        else mret (n, crcs)
      else if ret =? 0 then
        (* break *)
        mret (n, crcs)
      else
        let n := n + 1 in
        if n <? n_crcs then igt_pipe_crc_get_crcs_loop fuel' n_crcs crcs n
        else mret (n, crcs)
  end.

(** igt_pipe_crc_get_crcs: the number of CRCs captured and the array. *)
Definition igt_pipe_crc_get_crcs (n_crcs : Z) : M (Z * list igt_crc) :=
  fun st =>
    igt_pipe_crc_get_crcs_loop (S (length (replies st))) n_crcs
      (replicate (Z.to_nat n_crcs) (crc_zero E)) 0 st.

End CrcReader.

(* ================================================================== *)
(** ** Vocabulary of the properties *)
(* ================================================================== *)

(** The state of the change tracker: the dirty flags of every plane,
    pipe and output. *)
Definition plane_dirty (pl : igt_plane) : bool * bool * bool * bool :=
  (fb_changed pl, position_changed pl, size_changed pl, rotation_changed pl).

Definition pipe_dirty (p : igt_pipe)
    : bool * bool * bool * list (bool * bool * bool * bool) :=
  (mode_changed p, background_changed p, color_mgmt_changed p,
   map plane_dirty (planes p)).

Definition output_dirty (o : igt_output) : bool * bool :=
  (pipe_changed (config o), connector_scaling_mode_changed (config o)).

Definition change_tracker (d : igt_display) :=
  (map pipe_dirty (pipes d), map output_dirty (outputs d)).

(** What programming the hardware never writes: the planes, the dirty
    flags and the pending bindings. *)
Definition pipe_frame (p : igt_pipe) :=
  (planes p, mode_changed p, background_changed p, color_mgmt_changed p).

Definition output_frame (o : igt_output) :=
  (pending_crtc_idx_mask o, output_dirty o).

Definition frame (d : igt_display) :=
  (map pipe_frame (pipes d), map output_frame (outputs d)).

(** The plane in slot [i] of pipe [p]. *)
Definition plane_at (d : igt_display) (p i : nat) : option igt_plane :=
  pipes d !! p ≫= fun pipe_obj => planes pipe_obj !! i.

(** The programming calls whose result a commit passes to CHECK_RETURN or
    returns. *)
Definition checked (c : drm_call) : bool :=
  match c with
  | drmModeSetPlane _ _ _ _ _ _ _ _ _ _ _ _ => true
  | drmModeSetCursor _ _ _ _ => true
  | drmModeMoveCursor _ _ _ => true
  | drmModeSetCrtc _ _ _ _ _ _ => true
  | drmModeObjectSetProperty _ ty _ _ => ty =? DRM_MODE_OBJECT_PLANE
  | drmModeAtomicCommit _ _ => true
  | _ => false
  end.

(** No call of the class [watched] in the log [l] failed. *)
Definition clean (watched : drm_call -> bool) (l : list event) : Prop :=
  forall c r, In (c, r) l -> watched c = true -> r = 0.

(** [st'] is reached from [st] without touching the frame. *)
Definition keeps (st st' : state) : Prop :=
  frame (display st') = frame (display st)
  /\ exists new, calls st' = calls st ++ new.

(** ... and without a failed checked call. *)
Definition steady (st st' : state) : Prop :=
  frame (display st') = frame (display st)
  /\ exists new, calls st' = calls st ++ new /\ clean checked new.

(** Every run of [m] relates its start to its end by [R]. *)
Definition stable {A} (R : state -> state -> Prop) (m : M A) : Prop :=
  forall st r st', m st = (r, st') -> R st st'.

(** Every run of [m] leaves the state as it is. *)
Definition silent {A} (m : M A) : Prop := stable eq m.

(** A try-commit in style [s] from [st]: whenever a call of the class
    [watched] returned a non-zero code, the commit returned that code,
    made no further call, and cleared no dirty flag. *)
Definition first_error_halts (watched : drm_call -> bool) (E : env)
    (s : igt_commit_style) (st : state) : Prop :=
  forall r st' pre c r0 post,
    igt_display_try_commit2 E s st = (r, st') ->
    calls st' = calls st ++ pre ++ (c, r0) :: post ->
    watched c = true ->
    r0 <> 0 ->
    r = Ret r0 /\ post = []
    /\ change_tracker (display st') = change_tracker (display st).

(** All four dirty flags of every plane of [d] are false. *)
Definition planes_clean (d : igt_display) : Prop :=
  forall p i pl, plane_at d p i = Some pl ->
    plane_dirty pl = (false, false, false, false).

(** Two kinds that igt_pipe_get_plane accepts on [p]. *)
Definition valid_kind (p : igt_pipe) (k : Z) : Prop :=
  k = IGT_PLANE_CURSOR \/ (0 <= k < n_planes p).

(** A run of [m] either returns 0 after clearing the tracker of a display
    with the frame it started from, or ends otherwise with the frame it
    started from. *)
Definition commits (s : igt_commit_style) (m : M Z) : Prop :=
  forall st r st', m st = (r, st') ->
    (r = Ret 0
     /\ exists d1, frame d1 = frame (display st)
                   /\ display st' = display_commit_changed d1 s)
    \/ (r <> Ret 0 /\ frame (display st') = frame (display st)).

(** What the legacy protocol asserts of a primary plane. *)
Definition legacy_primary_ok (pl : igt_plane) : Prop :=
  crtc_x pl = 0 /\ crtc_y pl = 0 /\ rotation_changed pl = false.

(** A run of [m] in which either no checked call failed, or the last call
    made is a checked call that failed and the run returned its code. *)
Definition halts_on_error (m : M Z) : Prop :=
  forall st r st', m st = (r, st') ->
    exists new, calls st' = calls st ++ new
      /\ (clean checked new
          \/ exists pre c r0,
               new = pre ++ [(c, r0)] /\ clean checked pre
               /\ checked c = true /\ r0 <> 0 /\ r = Ret r0).

(** The state in which igt_display_refresh runs its check. *)
Definition refresh_start (st : state) : state :=
  {| display := display_with (display st) 0 (outputs (display st))
                             (pipes (display st));
     calls := calls st |}.





(** The read returned the bytes of a record. *)
Definition carries_record (r : PipeCrc.read_reply) : Prop :=
  0 < PipeCrc.rd_ret r.


(** The pending pipe bindings of the outputs, in order. *)
Definition pendings (st : state) : list Z :=
  map pending_crtc_idx_mask (outputs (display st)).

(** [st'] is reached from [st] without touching a pending binding. *)
Definition same_pendings (st st' : state) : Prop :=
  pendings st' = pendings st.

(** The sum of the bytes of a block. *)
Definition byte_sum (l : list Z) : Z := foldr Z.add 0 l.

(** The call by which kmstest_unset_all_crtcs turns a CRTC off. *)
Definition crtc_off (crtc : Z) : drm_call := drmModeSetCrtc crtc 0 0 0 [] None.

(** The calls that read the driver's state and program nothing. *)
Definition is_query (c : drm_call) : bool :=
  match c with
  | drmModeGetResources => true
  | drmModeGetConnector _ => true
  | drmModeGetConnectorCurrent _ => true
  | drmModeGetEncoder _ => true
  | drmModeGetCrtc _ => true
  | drmModeObjectGetProperties _ _ => true
  | _ => false
  end.

(** Every call of the log [l] is a query. *)
Definition only_queries (l : list event) : Prop :=
  Forall (fun e => is_query (fst e) = true) l.

(** What probing the connectors never writes in an output. *)
Definition output_request (o : igt_output) :=
  (output_id o, pending_crtc_idx_mask o, output_dirty o,
   use_override_mode o, override_mode o).

(** [st'] is reached from [st] by probing: the pipes, the atomic flag and
    the requests of the outputs are what they were, and the calls made
    are queries. *)
Definition probes (st st' : state) : Prop :=
  pipes (display st') = pipes (display st)
  /\ is_atomic (display st') = is_atomic (display st)
  /\ map output_request (outputs (display st'))
     = map output_request (outputs (display st))
  /\ exists new, calls st' = calls st ++ new /\ only_queries new.

(** No two outputs hold the same non-empty pending pipe binding. *)
Definition bindings_distinct (d : igt_display) : Prop :=
  forall i j a b,
    outputs d !! i = Some a -> outputs d !! j = Some b -> i <> j ->
    pending_crtc_idx_mask a <> 0 ->
    pending_crtc_idx_mask a <> pending_crtc_idx_mask b.

(** A plane, a pipe, an output and a display on which a commit in style
    [s] finds nothing to program. *)
Definition idle_plane (s : igt_commit_style) (pl : igt_plane) : Prop :=
  fb_changed pl = false /\ position_changed pl = false
  /\ size_changed pl = false
  /\ (rotation_changed pl = false
      \/ (s = COMMIT_LEGACY /\ is_primary pl || is_cursor pl = true)).

Definition idle_pipe (s : igt_commit_style) (x : igt_pipe) : Prop :=
  background_changed x = false /\ color_mgmt_changed x = false
  /\ (s = COMMIT_ATOMIC -> mode_changed x = false)
  /\ forall i pl, planes x !! i = Some pl -> idle_plane s pl.

Definition idle_output (s : igt_commit_style) (o : igt_output) : Prop :=
  s = COMMIT_ATOMIC ->
  pipe_changed (config o) = false
  /\ connector_scaling_mode_changed (config o) = false.

Definition settled (s : igt_commit_style) (d : igt_display) : Prop :=
  (forall p x, pipes d !! p = Some x -> idle_pipe s x)
  /\ (forall o out, outputs d !! o = Some out -> idle_output s out).

(** Every run of [m] from [st] ends in [st], with the value [a] or with a
    failed assertion. *)
Definition inert_at {A} (st : state) (a : A) (m : M A) : Prop :=
  forall r st', m st = (r, st') -> st' = st /\ (r = Ret a \/ r = Abort).

(** [st'] is reached from [st] without a call. *)
Definition mute (st st' : state) : Prop := calls st' = calls st.

(** [st'] is reached from [st] with the atomic flag of the display as it
    was. *)
Definition same_backend (st st' : state) : Prop :=
  is_atomic (display st') = is_atomic (display st).

(** No output asks for a pipe of the display. *)
Definition unbound (d : igt_display) : Prop :=
  forall x out, x ∈ pipes d -> out ∈ outputs d ->
    pending_crtc_idx_mask out <> Z.shiftl 1 (pipe x).

(** [st'] is reached from [st] without touching the index of a pipe or
    the pending binding of an output. *)
Definition wired (st st' : state) : Prop :=
  map pipe (pipes (display st')) = map pipe (pipes (display st))
  /\ pendings st' = pendings st.

(** [st'] is reached from [st] without touching the output [o]. *)
Definition spares (o : nat) (st st' : state) : Prop :=
  outputs (display st') !! o = outputs (display st) !! o.

(** The output [o] carries the override mode [m]. *)
Definition overridden (o : nat) (m : drmModeModeInfo) (d : igt_display)
    : Prop :=
  exists out, outputs d !! o = Some out
              /\ use_override_mode out = true /\ override_mode out = m.

(** A read that returns the bytes of a line the capture object [pc] can
    parse. *)
Definition good_line (E : PipeCrc.env) (pc : PipeCrc.igt_pipe_crc)
    (r : PipeCrc.read_reply) : Prop :=
  0 < PipeCrc.rd_ret r
  /\ forall out,
       fst (PipeCrc.pipe_crc_init_from_string E pc out (PipeCrc.rd_buf r))
       = true.

(** The record read_crc makes of a line into a zeroed slot. *)
Definition parsed (E : PipeCrc.env) (pc : PipeCrc.igt_pipe_crc)
    (r : PipeCrc.read_reply) : PipeCrc.igt_crc :=
  snd (PipeCrc.pipe_crc_init_from_string E pc (PipeCrc.crc_zero E)
         (PipeCrc.rd_buf r)).

(** The reads of [k] lines in a row. *)
Definition line_reads (pc : PipeCrc.igt_pipe_crc) (k : nat)
    : list PipeCrc.sys_call :=
  replicate k
    (PipeCrc.sys_read (PipeCrc.crc_fd pc)
       (if PipeCrc.is_legacy pc then PipeCrc.LEGACY_LINE_LEN
        else PipeCrc.MAX_LINE_LEN)).

(** [st'] is reached from [st] without writing the display. *)
Definition reads_only (st st' : state) : Prop := display st' = display st.

(* ================================================================== *)
(** ** Sample drivers and displays *)
(* ================================================================== *)

Module Samples.

Definition mode_1080p : drmModeModeInfo :=
  {| mode_type := DRM_MODE_TYPE_PREFERRED; hdisplay := 1920; vdisplay := 1080;
     mode_name := "1920x1080" |}.

Definition hdmi (id : Z) : drmModeConnector :=
  {| connector_id := id; connector_type := 11; connector_type_id := 1;
     encoders := [30]; modes := [mode_1080p];
     connection := DRM_MODE_CONNECTED |}.

(** A driver with one CRTC (id 10) and an encoder that reaches it, that
    answers every call as [answer] says. *)
Definition driver (answer : list event -> drm_call -> Z) : env :=
  {| drm_ret := answer;
     drm_resources := fun _ => Some [10];
     drm_connector := fun _ id _ => Some (hdmi id);
     drm_encoder := fun _ id => Some {| encoder_id := id; possible_crtcs := 1 |};
     drm_crtc := fun _ id => Some id;
     drm_properties := fun _ _ => Some [(41, "CRTC_ID"%string)];
     drm_blob_id := fun h => 100 + Z.of_nat (length h);
     kmstest_connector_type_str := fun _ => "HDMI-A"%string;
     igt_plane_supports_rotation := fun pl => negb (rotation_property pl =? 0);
     ret_uninit := 0 |}.

(** Every call succeeds. *)
Definition quiet_driver : env := driver (fun _ _ => 0).

(** Writing a CRTC property fails with -EINVAL, everything else succeeds. *)
Definition no_crtc_props_driver : env :=
  driver (fun _ c =>
            match c with
            | drmModeObjectSetProperty _ ty _ _ =>
                if ty =? DRM_MODE_OBJECT_CRTC then -22 else 0
            | _ => 0
            end).

(** drmModeSetPlane fails with -EINVAL, everything else succeeds. *)
Definition no_setplane_driver : env :=
  driver (fun _ c =>
            match c with
            | drmModeSetPlane _ _ _ _ _ _ _ _ _ _ _ _ => -22
            | _ => 0
            end).

(** The atomic commit is rejected with -EINVAL. *)
Definition rejecting_driver : env :=
  driver (fun _ c =>
            match c with
            | drmModeAtomicCommit _ _ => -22
            | _ => 0
            end).

Definition fb_1080p : igt_fb :=
  {| fb_id := 70; gem_handle := 7; width := 1920; height := 1080 |}.

Definition plane0 : igt_plane :=
  {| index := 0; is_primary := false; is_cursor := false;
     fb_changed := false; position_changed := false;
     rotation_changed := false; size_changed := false;
     drm_plane := Some 20; fb := None; rotation_property := 5;
     crtc_x := 0; crtc_y := 0; crtc_w := 0; crtc_h := 0;
     src_x := 0; src_y := 0; src_w := 0; src_h := 0; rotation := 1;
     atomic_props_plane := [1; 2; 3; 4; 5; 6; 7; 8; 9; 10; 11; 12] |}.

Definition primary_plane : igt_plane :=
  {| index := 0; is_primary := true; is_cursor := false;
     fb_changed := false; position_changed := false;
     rotation_changed := false; size_changed := false;
     drm_plane := Some 20; fb := None; rotation_property := 5;
     crtc_x := 0; crtc_y := 0; crtc_w := 0; crtc_h := 0;
     src_x := 0; src_y := 0; src_w := 0; src_h := 0; rotation := 1;
     atomic_props_plane := [1; 2; 3; 4; 5; 6; 7; 8; 9; 10; 11; 12] |}.

Definition overlay_plane : igt_plane :=
  {| index := 1; is_primary := false; is_cursor := false;
     fb_changed := false; position_changed := false;
     rotation_changed := false; size_changed := false;
     drm_plane := Some 21; fb := None; rotation_property := 5;
     crtc_x := 0; crtc_y := 0; crtc_w := 0; crtc_h := 0;
     src_x := 0; src_y := 0; src_w := 0; src_h := 0; rotation := 1;
     atomic_props_plane := [1; 2; 3; 4; 5; 6; 7; 8; 9; 10; 11; 12] |}.

Definition cursor_plane : igt_plane :=
  {| index := 2; is_primary := false; is_cursor := true;
     fb_changed := false; position_changed := false;
     rotation_changed := false; size_changed := false;
     drm_plane := Some 22; fb := None; rotation_property := 5;
     crtc_x := 0; crtc_y := 0; crtc_w := 0; crtc_h := 0;
     src_x := 0; src_y := 0; src_w := 0; src_h := 0; rotation := 1;
     atomic_props_plane := [1; 2; 3; 4; 5; 6; 7; 8; 9; 10; 11; 12] |}.

(** Pipe A with the planes [pls]. *)
Definition pipe_A (pls : list igt_plane) : igt_pipe :=
  {| pipe := 0; enabled := false; planes := pls;
     atomic_props_crtc := [31; 32; 33; 34; 35; 36];
     background := 0; background_changed := false; background_property := 31;
     degamma_blob := 0; degamma_property := 33;
     ctm_blob := 0; ctm_property := 32;
     gamma_blob := 0; gamma_property := 34;
     color_mgmt_changed := false; crtc_id := 10;
     mode_blob := 0; mode_changed := true |}.

Definition config0 : kmstest_connector_config :=
  {| config_crtc := None; config_connector := None; config_encoder := None;
     default_mode := mode_1080p; config_pipe := PIPE_NONE;
     pipe_changed := true; connector_scaling_mode_changed := false;
     connector_scaling_mode := 0; atomic_props_connector := [0; 0];
     valid_crtc_idx_mask := 0 |}.

(** An output with connector id [id] that asks for the pipes of [mask]. *)
Definition output_on (id mask : Z) : igt_output :=
  {| output_id := id; config := config0; name := Some "HDMI-A-1"%string;
     force_reprobe := false; pending_crtc_idx_mask := mask;
     use_override_mode := false; override_mode := mode_1080p |}.

(** One pipe with the planes [pls], and the outputs [outs]. *)
Definition display_of (pls : list igt_plane) (outs : list igt_output)
    : igt_display :=
  {| drm_fd := 3; pipes_in_use := 0; outputs := outs;
     pipes := [pipe_A pls]; has_cursor_plane := true; is_atomic := 1 |}.

Definition start (d : igt_display) : state :=
  {| display := d; calls := [] |}.

(** A cursor whose rotation was set, next to an idle primary plane. *)
Definition rotated_cursor : igt_plane :=
  match igt_plane_set_rotation cursor_plane IGT_ROTATION_180 with
  | Ret plane => plane
  | Abort => cursor_plane
  end.

Definition display_rotated_cursor : igt_display :=
  display_of [primary_plane; rotated_cursor] [output_on 50 1].

(** A primary plane with a framebuffer, an overlay, a cursor. *)
Definition display_three_planes : igt_display :=
  display_of [igt_plane_set_fb primary_plane (Some fb_1080p);
              igt_plane_set_fb overlay_plane (Some fb_1080p);
              cursor_plane]
             [output_on 50 1].

(** Two outputs that ask for pipe A. *)
Definition display_two_outputs : igt_display :=
  display_of [primary_plane; cursor_plane] [output_on 50 1; output_on 51 1].

(** The background colour of the pipe was set and the primary plane got
    a framebuffer. *)
Definition display_background : igt_display :=
  {| drm_fd := 3; pipes_in_use := 0; outputs := [output_on 50 1];
     pipes := [igt_crtc_set_background
                 (pipe_A [igt_plane_set_fb primary_plane (Some fb_1080p);
                          cursor_plane])
                 0xffff];
     has_cursor_plane := true; is_atomic := 1 |}.

(** The primary plane was moved to (5, 0). *)
Definition display_windowed_primary : igt_display :=
  display_of [igt_plane_set_position primary_plane 5 0; cursor_plane]
             [output_on 50 1].

(** Two outputs without a pipe, then both bound to pipe A. *)
Definition two_outputs_bound : state :=
  Eval vm_compute in
  snd (igt_output_set_pipe quiet_driver 1 0
         (snd (igt_output_set_pipe quiet_driver 0 0
                 (start (display_of [primary_plane; cursor_plane]
                                    [output_on 50 0; output_on 51 0]))))).

(** Debugfs files on which every write is complete and every open
    succeeds. *)
Definition crc_env : PipeCrc.env :=
  {| PipeCrc.write_reply := fun _ _ buf => (PipeCrc.strlen buf, 0);
     PipeCrc.open_reply := fun _ _ _ => (9, 0);
     PipeCrc.sscanf_crc := fun line =>
       if String.eqb line EmptyString then (-1, 0, [])
       else (6, Z.of_nat (String.length line), [1; 2; 3; 4; 5]);
     PipeCrc.strtoul16 := fun _ => 0;
     PipeCrc.EAGAIN := 35;
     PipeCrc.EINVAL := 22;
     PipeCrc.O_NONBLOCK := 4;
     PipeCrc.DRM_MAX_CRC_NR := 10 |}.

Definition legacy_crc : PipeCrc.igt_pipe_crc :=
  {| PipeCrc.ctl_fd := 7; PipeCrc.crc_fd := 8; PipeCrc.flags := 4;
     PipeCrc.is_legacy := true; PipeCrc.pipe := 0; PipeCrc.source := 9 |}.

Definition generic_crc : PipeCrc.igt_pipe_crc :=
  {| PipeCrc.ctl_fd := 7; PipeCrc.crc_fd := -1; PipeCrc.flags := 0;
     PipeCrc.is_legacy := false; PipeCrc.pipe := 0; PipeCrc.source := 9 |}.

Definition no_data : PipeCrc.read_reply :=
  {| PipeCrc.rd_ret := -1; PipeCrc.rd_errno := 35; PipeCrc.rd_buf := EmptyString |}.

Definition crc_line (s : string) : PipeCrc.read_reply :=
  {| PipeCrc.rd_ret := Z.of_nat (String.length s); PipeCrc.rd_errno := 0;
     PipeCrc.rd_buf := s |}.





(** A block of 128 bytes. *)
Definition edid_block : list Z := map Z.of_nat (seq 0 128).

(** A display whose driver has no atomic support. *)
Definition display_legacy_only : igt_display :=
  {| drm_fd := 3; pipes_in_use := 0; outputs := [output_on 50 1];
     pipes := [pipe_A [primary_plane; cursor_plane]];
     has_cursor_plane := true; is_atomic := 0 |}.

(** Two outputs that ask for different pipes. *)
Definition display_two_pipes : igt_display :=
  {| drm_fd := 3; pipes_in_use := 0;
     outputs := [output_on 50 1; output_on 51 2];
     pipes := [pipe_A [primary_plane; cursor_plane];
               pipe_A [primary_plane; cursor_plane]];
     has_cursor_plane := true; is_atomic := 1 |}.

(** An output that asks for no pipe. *)
Definition display_unbound : igt_display :=
  display_of [igt_plane_set_fb overlay_plane (Some fb_1080p)]
             [output_on 50 0].

(** The three-plane display after a universal commit. *)
Definition committed_once : state :=
  Eval vm_compute in
  snd (do_display_commit quiet_driver COMMIT_UNIVERSAL true
         (start display_three_planes)).

(** A driver with two encoders: the first reaches CRTC 0 only, the
    second CRTCs 1 and 2. *)
Definition two_encoder_driver : env :=
  {| drm_ret := fun _ _ => 0;
     drm_resources := fun _ => Some [10; 11; 12];
     drm_connector := fun _ id _ => Some (hdmi id);
     drm_encoder := fun _ id =>
       Some {| encoder_id := id;
               possible_crtcs := if id =? 30 then 1 else 6 |};
     drm_crtc := fun _ id => Some id;
     drm_properties := fun _ _ => Some [(41, "CRTC_ID"%string)];
     drm_blob_id := fun h => 100 + Z.of_nat (length h);
     kmstest_connector_type_str := fun _ => "HDMI-A"%string;
     igt_plane_supports_rotation := fun pl => negb (rotation_property pl =? 0);
     ret_uninit := 0 |}.

Definition dual_link : drmModeConnector :=
  {| connector_id := 50; connector_type := 11; connector_type_id := 1;
     encoders := [30; 31]; modes := [mode_1080p];
     connection := DRM_MODE_CONNECTED |}.

(** The second SetCrtc is refused. *)
Definition second_crtc_busy : env :=
  driver (fun h _ => if (length h =? 1)%nat then -16 else 0).

Definition mode_720p : drmModeModeInfo :=
  {| mode_type := 0; hdisplay := 1280; vdisplay := 720;
     mode_name := "1280x720" |}.

(** Debugfs files whose lines sscanf converts only in part. *)
Definition short_scan_env : PipeCrc.env :=
  {| PipeCrc.write_reply := fun _ _ buf => (PipeCrc.strlen buf, 0);
     PipeCrc.open_reply := fun _ _ _ => (9, 0);
     PipeCrc.sscanf_crc := fun line => (2, 1, [3]);
     PipeCrc.strtoul16 := fun _ => 0;
     PipeCrc.EAGAIN := 35;
     PipeCrc.EINVAL := 22;
     PipeCrc.O_NONBLOCK := 4;
     PipeCrc.DRM_MAX_CRC_NR := 10 |}.

End Samples.

(* ================================================================== *)
(** * Properties *)
(* ================================================================== *)

Import Samples.

(* ================================================================== *)
(** ** Reasoning about runs *)
(* ================================================================== *)

Lemma bind_run {A B} (m : M A) (k : A -> M B) st r st' :
  (m ≫= k) st = (r, st') ->
  (exists a st1, m st = (Ret a, st1) /\ k a st1 = (r, st'))
  \/ (m st = (Abort, st') /\ r = Abort).
Proof.
  unfold mbind, M_bind. destruct (m st) as [[a|] st1] eqn:Hm; intros H.
  - left. eauto.
  - right. injection H as <- <-. auto.
Qed.

Lemma bind_ret_run {A B} (m : M A) (k : A -> M B) st a st1 :
  m st = (Ret a, st1) -> (m ≫= k) st = k a st1.
Proof. unfold mbind, M_bind. intros ->. reflexivity. Qed.

Lemma bind_abort_run {A B} (m : M A) (k : A -> M B) st st1 :
  m st = (Abort, st1) -> (m ≫= k) st = (Abort, st1).
Proof. unfold mbind, M_bind. intros ->. reflexivity. Qed.

Lemma bind_run_done {A B} (m : PipeCrc.M A) (k : A -> PipeCrc.M B) st a st1 :
  m st = (PipeCrc.Done a, st1) -> (m ≫= k) st = k a st1.
Proof. unfold mbind, PipeCrc.M_bind. intros ->. reflexivity. Qed.

Global Instance keeps_preorder : PreOrder keeps.
Proof.
  split.
  - intros st. split; [reflexivity|]. exists []. symmetry. apply app_nil_r.
  - intros st1 st2 st3 [F1 [n1 C1]] [F2 [n2 C2]]. split; [congruence|].
    exists (n1 ++ n2). rewrite C2, C1. symmetry. apply app_assoc.
Qed.

Lemma clean_nil w : clean w [].
Proof. intros c r []. Qed.

Lemma clean_app w l1 l2 : clean w l1 -> clean w l2 -> clean w (l1 ++ l2).
Proof.
  intros H1 H2 c r Hin. apply in_app_or in Hin as [Hin|Hin]; eauto.
Qed.

Lemma clean_one w c r : (w c = true -> r = 0) -> clean w [(c, r)].
Proof. intros H c' r' [Heq|[]]. injection Heq as <- <-. exact H. Qed.

Global Instance steady_preorder : PreOrder steady.
Proof.
  split.
  - intros st. split; [reflexivity|]. exists []. split.
    + symmetry. apply app_nil_r.
    + apply clean_nil.
  - intros st1 st2 st3 [F1 [n1 [C1 K1]]] [F2 [n2 [C2 K2]]].
    split; [congruence|]. exists (n1 ++ n2). split.
    + rewrite C2, C1. symmetry. apply app_assoc.
    + apply clean_app; assumption.
Qed.

Lemma steady_keeps st st' : steady st st' -> keeps st st'.
Proof. intros [F [new [C _]]]. split; eauto. Qed.

Section Stable.

Context (R : state -> state -> Prop) `{!PreOrder R}.

Lemma silent_stable {A} (m : M A) : silent m -> stable R m.
Proof. intros H st r st' Hm. rewrite <- (H _ _ _ Hm). reflexivity. Qed.

Lemma stable_ret {A} (a : A) : stable R (mret a).
Proof. intros st r st' H. injection H as <- <-. reflexivity. Qed.

Lemma stable_bind {A B} (m : M A) (k : A -> M B) :
  stable R m -> (forall a, stable R (k a)) -> stable R (m ≫= k).
Proof.
  intros Hm Hk st r st' H.
  apply bind_run in H as [(a & st1 & H1 & H2)|[H1 _]].
  - transitivity st1; [exact (Hm _ _ _ H1)|exact (Hk _ _ _ _ H2)].
  - exact (Hm _ _ _ H1).
Qed.

Lemma stable_assert b : stable R (igt_assert b).
Proof. intros st r st' H. injection H as <- <-. reflexivity. Qed.

Lemma stable_crash {A} : stable R (@crash A).
Proof. intros st r st' H. injection H as <- <-. reflexivity. Qed.

Lemma stable_get_display : stable R get_display.
Proof. intros st r st' H. injection H as <- <-. reflexivity. Qed.

Lemma stable_deref {A} (x : option A) : stable R (deref x).
Proof.
  intros st r st' H. unfold deref in H.
  destruct x; injection H as <- <-; reflexivity.
Qed.

Lemma stable_out_param {A} (f : list event -> A) : stable R (out_param f).
Proof. intros st r st' H. injection H as <- <-. reflexivity. Qed.

Lemma stable_for_each {A} (l : list A) (body : A -> M unit) :
  (forall x, stable R (body x)) -> stable R (for_each l body).
Proof.
  intros Hb. induction l as [|x l IH]; cbn [for_each].
  - apply stable_ret.
  - apply stable_bind; [apply Hb|intros _; exact IH].
Qed.

Lemma stable_fold_each {A B} (l : list A) (body : A -> B -> M B) (acc : B) :
  (forall x b, stable R (body x b)) -> stable R (fold_each l body acc).
Proof.
  intros Hb. revert acc. induction l as [|x l IH]; intros acc;
    cbn [fold_each].
  - apply stable_ret.
  - apply stable_bind; [apply Hb|intros b; apply IH].
Qed.

Lemma stable_CHECK_RETURN r fail k :
  stable R k -> stable R (CHECK_RETURN r fail k).
Proof.
  intros Hk. unfold CHECK_RETURN.
  destruct (negb (r =? 0) && negb fail).
  - apply stable_ret.
  - apply stable_bind; [apply stable_assert|intros _; exact Hk].
Qed.

End Stable.

Create HintDb stable discriminated.

#[global] Hint Resolve stable_ret stable_assert stable_crash
  stable_get_display stable_deref stable_out_param : stable.

(** One step of a proof that a program is stable: follow its syntax. *)
Ltac stable_step :=
  lazymatch goal with
  | |- stable _ (mbind _ _) =>
      apply stable_bind; [try typeclasses eauto| |intros ?]
  | |- stable _ (CHECK_RETURN _ _ _) =>
      apply stable_CHECK_RETURN; [try typeclasses eauto|]
  | |- stable _ (for_each _ _) =>
      apply stable_for_each; [try typeclasses eauto|intros ?]
  | |- stable _ (fold_each _ _ _) =>
      apply stable_fold_each; [try typeclasses eauto|intros ? ?]
  | |- stable _ (match ?x with _ => _ end) => destruct x
  | |- stable _ (let _ := _ in _) => cbv zeta
  | |- stable _ ((fun _ => _) _) => cbv beta
  end.

Ltac stable_tac :=
  repeat first [solve [eauto 2 with stable typeclass_instances] | stable_step].

(* ------------------------------------------------------------------ *)
(** *** The frame of the writes made while programming *)
(* ------------------------------------------------------------------ *)

Lemma map_alter_same {A B} (g : A -> B) (f : A -> A) (i : nat) (l : list A) :
  (forall x, g (f x) = g x) -> map g (alter f i l) = map g l.
Proof.
  intros H. revert i. induction l as [|x l IH]; intros [|i]; cbn;
    try reflexivity.
  - rewrite H. reflexivity.
  - f_equal. apply IH.
Qed.

Lemma steady_modify_display (f : igt_display -> igt_display) :
  (forall d, frame (f d) = frame d) -> stable steady (modify_display f).
Proof.
  intros H st r st' Hm. injection Hm as <- <-. split; cbn.
  - apply H.
  - exists []. split; [symmetry; apply app_nil_r|apply clean_nil].
Qed.

Lemma steady_modify_pipe p (f : igt_pipe -> igt_pipe) :
  (forall x, pipe_frame (f x) = pipe_frame x) -> stable steady (modify_pipe p f).
Proof.
  intros H. apply steady_modify_display. intros d. unfold frame. cbn.
  rewrite (map_alter_same pipe_frame f p _ H). reflexivity.
Qed.

Lemma steady_modify_output o (f : igt_output -> igt_output) :
  (forall x, output_frame (f x) = output_frame x) ->
  stable steady (modify_output o f).
Proof.
  intros H. apply steady_modify_display. intros d. unfold frame. cbn.
  rewrite (map_alter_same output_frame f o _ H). reflexivity.
Qed.

Lemma steady_modify_config o f :
  (forall c, pipe_changed (f c) = pipe_changed c
             /\ connector_scaling_mode_changed (f c)
                = connector_scaling_mode_changed c) ->
  stable steady (modify_config o f).
Proof.
  intros H. apply steady_modify_output. intros x.
  unfold output_frame, output_dirty. cbn. destruct (H (config x)) as [-> ->].
  reflexivity.
Qed.

Lemma steady_set_pipes_in_use v : stable steady (set_pipes_in_use v).
Proof. apply steady_modify_display. intros d. reflexivity. Qed.

Lemma steady_query {A} c (reply : list event -> A) :
  stable steady (query c reply).
Proof.
  intros st r st' H. injection H as <- <-. split; [reflexivity|].
  exists [(c, 0)]. split; [reflexivity|]. apply clean_one. reflexivity.
Qed.

Lemma steady_ioctl E c : checked c = false -> stable steady (ioctl E c).
Proof.
  intros Hc st r st' H. injection H as <- <-. split; [reflexivity|].
  eexists. split; [reflexivity|]. apply clean_one. congruence.
Qed.

Lemma keeps_ioctl E c : stable keeps (ioctl E c).
Proof.
  intros st r st' H. injection H as <- <-. split; [reflexivity|].
  eexists. reflexivity.
Qed.

Lemma steady_stable_keeps {A} (m : M A) : stable steady m -> stable keeps m.
Proof. intros H st r st' Hm. apply steady_keeps. exact (H _ _ _ Hm). Qed.

#[global] Hint Resolve steady_set_pipes_in_use steady_query keeps_ioctl
  : stable.

#[global] Hint Extern 1 (stable steady (modify_config _ _)) =>
  (apply steady_modify_config; intros ?; split; reflexivity) : stable.
#[global] Hint Extern 1 (stable steady (modify_output _ _)) =>
  (apply steady_modify_output; intros ?; reflexivity) : stable.
#[global] Hint Extern 1 (stable steady (modify_pipe _ _)) =>
  (apply steady_modify_pipe; intros ?; reflexivity) : stable.
#[global] Hint Extern 1 (stable steady (ioctl _ _)) =>
  (apply steady_ioctl; reflexivity) : stable.

Section Frames.

Variable E : env.
Context (R : state -> state -> Prop) `{!PreOrder R}.

Lemma stable_get_pipe p : stable R (get_pipe p).
Proof. unfold get_pipe. stable_tac. Qed.

Lemma stable_get_output o : stable R (get_output o).
Proof. unfold get_output. stable_tac. Qed.

Hint Resolve stable_get_pipe stable_get_output : stable.

Lemma stable_get_plane p i : stable R (get_plane p i).
Proof. unfold get_plane. stable_tac. Qed.

Lemma stable_igt_pipe_get_output p : stable R (igt_pipe_get_output p).
Proof. unfold igt_pipe_get_output. stable_tac. Qed.

End Frames.

#[global] Hint Resolve stable_get_pipe stable_get_output stable_get_plane
  stable_igt_pipe_get_output : stable.

Section Steady.

Variable E : env.

Lemma steady_crtc_mask connector :
  stable steady (_kmstest_connector_config_crtc_mask E connector).
Proof. unfold _kmstest_connector_config_crtc_mask. stable_tac. Qed.

Lemma steady_find_encoder es pipe :
  stable steady (_kmstest_connector_config_find_encoder E es pipe).
Proof.
  induction es as [|e es IH]; cbn [_kmstest_connector_config_find_encoder];
    stable_tac.
Qed.

Hint Resolve steady_crtc_mask steady_find_encoder : stable.

Lemma steady_connector_config id mask o probe :
  stable steady (_kmstest_connector_config E id mask o probe).
Proof. unfold _kmstest_connector_config. stable_tac. Qed.

Lemma steady_fill_connector_props o :
  stable steady (igt_atomic_fill_connector_props E o).
Proof. unfold igt_atomic_fill_connector_props. stable_tac. Qed.

Hint Resolve steady_connector_config steady_fill_connector_props : stable.

Lemma steady_igt_output_refresh o final :
  stable steady (igt_output_refresh E o final).
Proof. unfold igt_output_refresh. stable_tac. Qed.

Hint Resolve steady_igt_output_refresh : stable.

Lemma steady_igt_display_refresh : stable steady (igt_display_refresh E).
Proof. unfold igt_display_refresh. stable_tac. Qed.

End Steady.

(* ================================================================== *)
(** ** Properties of the mutators *)
(* ================================================================== *)


(** C3, as stated, fails: igt_plane_set_fb with a null framebuffer leaves
    the destination origin (crtc_x, crtc_y) of a moved plane where it
    was. *)
Lemma C3_null_fb_keeps_position :
  crtc_x (igt_plane_set_fb (igt_plane_set_position plane0 5 7) None) = 5
  /\ crtc_y (igt_plane_set_fb (igt_plane_set_position plane0 5 7) None) = 7
  /\ ~ (crtc_x (igt_plane_set_fb (igt_plane_set_position plane0 5 7) None) = 0
        /\ crtc_y (igt_plane_set_fb (igt_plane_set_position plane0 5 7) None)
           = 0).
Proof. cbn. repeat split; try reflexivity. intros [H _]. discriminate H. Qed.

(** C3, amended: igt_plane_set_fb with a null framebuffer unbinds the
    framebuffer, zeroes the source rectangle (x, y, w, h) and the
    destination size (w, h), sets fb_changed and size_changed, and leaves
    the destination origin and the two other dirty flags as they were. *)
Theorem C3_set_fb_null (plane : igt_plane) :
  let plane' := igt_plane_set_fb plane None in
  fb plane' = None
  /\ (src_x plane', src_y plane', src_w plane', src_h plane') = (0, 0, 0, 0)
  /\ (crtc_w plane', crtc_h plane') = (0, 0)
  /\ fb_changed plane' = true /\ size_changed plane' = true
  /\ (crtc_x plane', crtc_y plane') = (crtc_x plane, crtc_y plane)
  /\ position_changed plane' = position_changed plane
  /\ rotation_changed plane' = rotation_changed plane.
Proof. cbn. repeat split. Qed.

(** C10: igt_plane_set_fb with a framebuffer resets the source position
    to (0,0) and sets the source size and the destination size to the
    framebuffer's width and height, whatever igt_fb_set_position,
    igt_fb_set_size and igt_plane_set_size recorded before; the
    destination position and the rotation are left unchanged. *)
Theorem C10_set_fb_defaults (plane : igt_plane) (b : igt_fb)
    (x y w h w' h' : Z) :
  let before :=
    igt_plane_set_size
      (igt_fb_set_size (igt_fb_set_position plane x y) w h) w' h' in
  let reset (pl : igt_plane) :=
    let pl' := igt_plane_set_fb pl (Some b) in
    fb pl' = Some b
    /\ (src_x pl', src_y pl') = (0, 0)
    /\ (src_w pl', src_h pl') = (width b, height b)
    /\ (crtc_w pl', crtc_h pl') = (width b, height b)
    /\ (crtc_x pl', crtc_y pl') = (crtc_x pl, crtc_y pl)
    /\ rotation pl' = rotation pl in
  reset plane /\ reset before
  /\ (src_x before, src_y before, src_w before, src_h before,
      crtc_w before, crtc_h before) = (x, y, w, h, w', h').
Proof. cbn. repeat split. Qed.

(* ================================================================== *)
(** ** Plane lookup *)
(* ================================================================== *)

(** C4, as stated, fails: on a pipe with three populated slots, the kinds
    IGT_PLANE_3 and IGT_PLANE_CURSOR are both accepted and resolve to the
    same slot. *)
Lemma C4_cursor_shares_slot :
  let p := pipe_A [primary_plane; overlay_plane; cursor_plane] in
  valid_kind p IGT_PLANE_3 /\ valid_kind p IGT_PLANE_CURSOR
  /\ IGT_PLANE_3 <> IGT_PLANE_CURSOR
  /\ igt_pipe_get_plane p IGT_PLANE_3 = Ret 2
  /\ igt_pipe_get_plane p IGT_PLANE_CURSOR = Ret 2
  /\ ~ (forall k1 k2, valid_kind p k1 -> valid_kind p k2 -> k1 <> k2 ->
        igt_pipe_get_plane p k1 <> igt_pipe_get_plane p k2).
Proof.
  cbn zeta.
  assert (V3 : valid_kind (pipe_A [primary_plane; overlay_plane; cursor_plane])
                          IGT_PLANE_3).
  { right. unfold n_planes, IGT_PLANE_3. cbn. lia. }
  assert (VC : valid_kind (pipe_A [primary_plane; overlay_plane; cursor_plane])
                          IGT_PLANE_CURSOR) by (left; reflexivity).
  assert (Hne : IGT_PLANE_3 <> IGT_PLANE_CURSOR) by discriminate.
  repeat split; try assumption; try reflexivity.
  intros H. exact (H _ _ V3 VC Hne eq_refl).
Qed.

(** C4, amended: igt_pipe_get_plane is a function of the pipe and the
    kind alone; the cursor kind resolves to slot n_planes - 1, every other
    kind k with 0 <= k < n_planes resolves to slot k, and two accepted
    kinds resolve to the same slot only when they are equal or one of
    them is the cursor kind and the other is n_planes - 1. *)
Theorem C4_get_plane_slots (p : igt_pipe) :
  igt_pipe_get_plane p IGT_PLANE_CURSOR = Ret (n_planes p - 1)
  /\ (forall k, k <> IGT_PLANE_CURSOR -> 0 <= k < n_planes p ->
        igt_pipe_get_plane p k = Ret k)
  /\ (forall k1 k2, valid_kind p k1 -> valid_kind p k2 ->
        igt_pipe_get_plane p k1 = igt_pipe_get_plane p k2 ->
        k1 = k2
        \/ (k1 = IGT_PLANE_CURSOR /\ k2 = n_planes p - 1)
        \/ (k2 = IGT_PLANE_CURSOR /\ k1 = n_planes p - 1)).
Proof.
  assert (Hc : igt_pipe_get_plane p IGT_PLANE_CURSOR = Ret (n_planes p - 1)).
  { unfold igt_pipe_get_plane. rewrite Z.eqb_refl. reflexivity. }
  assert (Hk : forall k, k <> IGT_PLANE_CURSOR -> 0 <= k < n_planes p ->
                 igt_pipe_get_plane p k = Ret k).
  { intros k Hne [H0 Hn]. unfold igt_pipe_get_plane.
    destruct (Z.eqb_spec k IGT_PLANE_CURSOR) as [->|_]; [contradiction|].
    destruct (Z.leb_spec 0 k); [|lia].
    destruct (Z.ltb_spec k (n_planes p)); [|lia]. reflexivity. }
  split; [exact Hc|]. split; [exact Hk|].
  intros k1 k2 V1 V2 Heq.
  destruct (Z.eq_dec k1 IGT_PLANE_CURSOR) as [E1|N1];
    destruct (Z.eq_dec k2 IGT_PLANE_CURSOR) as [E2|N2].
  - left. congruence.
  - destruct V2 as [V2|V2]; [contradiction|].
    subst k1. rewrite Hc, (Hk _ N2 V2) in Heq. injection Heq as Heq.
    right. left. split; [reflexivity|]. symmetry; exact Heq.
  - destruct V1 as [V1|V1]; [contradiction|].
    subst k2. rewrite Hc, (Hk _ N1 V1) in Heq. injection Heq as Heq.
    right. right. split; [reflexivity|]. exact Heq.
  - destruct V1 as [V1|V1]; [contradiction|].
    destruct V2 as [V2|V2]; [contradiction|].
    rewrite (Hk _ N1 V1), (Hk _ N2 V2) in Heq. injection Heq as Heq.
    left. exact Heq.
Qed.

#[global] Hint Resolve steady_igt_display_refresh steady_igt_output_refresh
  : stable.

#[global] Hint Extern 5 (stable keeps _) =>
  (apply steady_stable_keeps; solve [eauto 2 with stable]) : stable.

Section Programming.

Variable E : env.

Lemma steady_igt_crtc_set_property pipe_obj prop v :
  stable steady (igt_crtc_set_property E pipe_obj prop v).
Proof. unfold igt_crtc_set_property. stable_tac. Qed.

Lemma steady_kmstest_get_vbl_flag pipe_id :
  stable steady (kmstest_get_vbl_flag pipe_id).
Proof. unfold kmstest_get_vbl_flag. stable_tac. Qed.

Hint Resolve steady_igt_crtc_set_property steady_kmstest_get_vbl_flag
  : stable.

Lemma steady_igt_wait_for_vblank pipe :
  stable steady (igt_wait_for_vblank E pipe).
Proof. unfold igt_wait_for_vblank. stable_tac. Qed.

Lemma steady_populate_plane req plane prop v :
  stable steady (igt_atomic_populate_plane_req req plane prop v).
Proof. unfold igt_atomic_populate_plane_req. stable_tac. Qed.

Lemma steady_populate_crtc req pipe_obj prop v :
  stable steady (igt_atomic_populate_crtc_req req pipe_obj prop v).
Proof. unfold igt_atomic_populate_crtc_req. stable_tac. Qed.

Lemma steady_populate_connector req output prop v :
  stable steady (igt_atomic_populate_connector_req req output prop v).
Proof. unfold igt_atomic_populate_connector_req. stable_tac. Qed.

Hint Resolve steady_igt_wait_for_vblank steady_populate_plane
  steady_populate_crtc steady_populate_connector : stable.

Lemma steady_prepare_plane p i req :
  stable steady (igt_atomic_prepare_plane_commit E p i req).
Proof. unfold igt_atomic_prepare_plane_commit. stable_tac. Qed.

Lemma steady_replace_blob p ptr :
  stable steady (igt_pipe_replace_blob E p ptr).
Proof. unfold igt_pipe_replace_blob. stable_tac. Qed.

Hint Resolve steady_prepare_plane steady_replace_blob : stable.

Lemma steady_prepare_crtc p req :
  stable steady (igt_atomic_prepare_crtc_commit E p req).
Proof. unfold igt_atomic_prepare_crtc_commit. stable_tac. Qed.

Lemma steady_prepare_connector o req :
  stable steady (igt_atomic_prepare_connector_commit o req).
Proof. unfold igt_atomic_prepare_connector_commit. stable_tac. Qed.

Hint Resolve steady_prepare_crtc steady_prepare_connector : stable.

Lemma keeps_igt_atomic_commit flags :
  stable keeps (igt_atomic_commit E flags).
Proof. unfold igt_atomic_commit. stable_tac. Qed.

Lemma keeps_igt_plane_set_property plane prop v :
  stable keeps (igt_plane_set_property E plane prop v).
Proof. unfold igt_plane_set_property. stable_tac. Qed.

Hint Resolve keeps_igt_plane_set_property : stable.

Lemma keeps_igt_drm_plane_commit p i fail :
  stable keeps (igt_drm_plane_commit E p i fail).
Proof. unfold igt_drm_plane_commit. stable_tac. Qed.

Lemma keeps_igt_cursor_commit_legacy p i fail :
  stable keeps (igt_cursor_commit_legacy E p i fail).
Proof. unfold igt_cursor_commit_legacy. stable_tac. Qed.

Lemma keeps_igt_primary_plane_commit_legacy p i fail :
  stable keeps (igt_primary_plane_commit_legacy E p i fail).
Proof. unfold igt_primary_plane_commit_legacy. stable_tac. Qed.

Hint Resolve keeps_igt_drm_plane_commit keeps_igt_cursor_commit_legacy
  keeps_igt_primary_plane_commit_legacy : stable.

Lemma keeps_igt_plane_commit p i s fail :
  stable keeps (igt_plane_commit E p i s fail).
Proof. unfold igt_plane_commit. stable_tac. Qed.

Hint Resolve keeps_igt_plane_commit : stable.

Lemma keeps_igt_pipe_commit_planes p s fail ids need k :
  (forall b, stable keeps (k b)) ->
  stable keeps (igt_pipe_commit_planes E p s fail ids need k).
Proof.
  intros Hk. revert need.
  induction ids as [|i ids IH]; intros need; cbn [igt_pipe_commit_planes].
  - apply Hk.
  - stable_tac.
Qed.

Lemma keeps_igt_pipe_commit p s fail :
  stable keeps (igt_pipe_commit E p s fail).
Proof.
  unfold igt_pipe_commit. stable_tac.
  all: apply keeps_igt_pipe_commit_planes; intros b; stable_tac.
Qed.

End Programming.

#[global] Hint Resolve keeps_igt_atomic_commit keeps_igt_pipe_commit
  keeps_igt_plane_commit steady_igt_crtc_set_property
  steady_igt_wait_for_vblank steady_prepare_plane steady_prepare_crtc
  steady_prepare_connector : stable.

Lemma frame_change_tracker d d' :
  frame d' = frame d -> change_tracker d' = change_tracker d.
Proof.
  unfold frame, change_tracker. intros H. injection H as Hp Ho.
  f_equal.
  - transitivity
      (map (fun '(pls, mc, bg, cm) => (mc, bg, cm, map plane_dirty pls))
           (map pipe_frame (pipes d'))).
    + rewrite map_map. reflexivity.
    + rewrite Hp, map_map. reflexivity.
  - transitivity (map snd (map output_frame (outputs d'))).
    + rewrite map_map. reflexivity.
    + rewrite Ho, map_map. reflexivity.
Qed.

Lemma frame_plane_at d d' p i :
  frame d' = frame d -> plane_at d' p i = plane_at d p i.
Proof.
  unfold frame, plane_at. intros H. injection H as Hp _.
  assert (Hl : (planes <$> pipes d') = (planes <$> pipes d)).
  { transitivity (map (fun x => fst (fst (fst x))) (map pipe_frame (pipes d'))).
    - rewrite map_map. reflexivity.
    - rewrite Hp, map_map. reflexivity. }
  assert (Hi : (planes <$> pipes d') !! p = (planes <$> pipes d) !! p)
    by (rewrite Hl; reflexivity).
  rewrite !list_lookup_fmap in Hi.
  destruct (pipes d' !! p), (pipes d !! p); cbn in *; congruence.
Qed.

(* ================================================================== *)
(** ** Test-only commits *)
(* ================================================================== *)

(** C5: igt_display_try_commit_atomic with DRM_MODE_ATOMIC_TEST_ONLY
    leaves every dirty flag of every pipe, plane and output as it was,
    whatever the driver answers and however the call ends. *)
Theorem C5_test_only_keeps_tracker (E : env) (flags : Z) (st : state) :
  Z.land flags DRM_MODE_ATOMIC_TEST_ONLY <> 0 ->
  forall r st',
    igt_display_try_commit_atomic E flags st = (r, st') ->
    change_tracker (display st') = change_tracker (display st).
Proof.
  intros Hflag r st' Hrun. apply frame_change_tracker.
  assert (Hs : stable keeps (igt_display_try_commit_atomic E flags)).
  { unfold igt_display_try_commit_atomic.
    destruct (Z.eqb_spec (Z.land flags DRM_MODE_ATOMIC_TEST_ONLY) 0) as [H0|_];
      [contradiction|].
    cbn [negb]. apply stable_bind; [typeclasses eauto|stable_tac|intros _].
    apply stable_bind; [typeclasses eauto|stable_tac|intros ret].
    rewrite orb_true_r. stable_tac. }
  exact (proj1 (Hs _ _ _ Hrun)).
Qed.

(* ================================================================== *)
(** ** The end of a commit *)
(* ================================================================== *)

Lemma commits_ret_nonzero s r : r <> 0 -> commits s (mret r).
Proof.
  intros Hr st r' st' H. injection H as <- <-. right.
  split; [congruence|reflexivity].
Qed.

Lemma commits_keeps_bind {A} s (m : M A) (k : A -> M Z) :
  stable keeps m -> (forall a, commits s (k a)) -> commits s (m ≫= k).
Proof.
  intros Hm Hk st r st' H.
  apply bind_run in H as [(a & st1 & H1 & H2)|[H1 ->]].
  - destruct (Hm _ _ _ H1) as [F1 _].
    destruct (Hk _ _ _ _ H2) as [[-> (d1 & Fd & Hd)]|[Hr F2]].
    + left. split; [reflexivity|]. exists d1. split; congruence.
    + right. split; [exact Hr|congruence].
  - right. split; [discriminate|]. exact (proj1 (Hm _ _ _ H1)).
Qed.

Lemma commits_CHECK_RETURN s r fail k :
  commits s k -> commits s (CHECK_RETURN r fail k).
Proof.
  intros Hk. unfold CHECK_RETURN.
  destruct (Z.eqb_spec r 0) as [->|Hr]; cbn [negb andb].
  - apply commits_keeps_bind; [stable_tac|intros _; exact Hk].
  - destruct fail; cbn [negb].
    + apply commits_keeps_bind; [stable_tac|intros _; exact Hk].
    + apply commits_ret_nonzero. exact Hr.
Qed.

Lemma commits_cleared s :
  commits s (modify_display (fun d => display_commit_changed d s) ;; mret 0).
Proof.
  intros st r st' H. cbv in H. injection H as <- <-. left.
  split; [reflexivity|]. exists (display st). split; reflexivity.
Qed.

Lemma commits_finish s ret : commits s (do_display_commit_finish s ret).
Proof.
  unfold do_display_commit_finish. destruct (Z.eqb_spec ret 0) as [->|Hr];
    cbn [negb].
  - apply commits_cleared.
  - apply commits_ret_nonzero. exact Hr.
Qed.

Lemma commits_pipes E s fail ps ret valid_outs k :
  (forall ret valid_outs, commits s (k ret valid_outs)) ->
  commits s (do_display_commit_pipes E s fail ps ret valid_outs k).
Proof.
  intros Hk. revert ret valid_outs.
  induction ps as [|p ps IH]; intros ret valid_outs;
    cbn [do_display_commit_pipes].
  - apply Hk.
  - apply commits_keeps_bind; [stable_tac|intros output].
    apply commits_keeps_bind; [stable_tac|intros ret'].
    apply commits_CHECK_RETURN. apply IH.
Qed.

Lemma commits_do_display_commit E s fail :
  commits s (do_display_commit E s fail).
Proof.
  unfold do_display_commit.
  apply commits_keeps_bind; [stable_tac|intros _].
  destruct (bool_decide (s = COMMIT_ATOMIC)).
  - apply commits_keeps_bind; [stable_tac|intros ret].
    apply commits_CHECK_RETURN, commits_finish.
  - apply commits_keeps_bind; [stable_tac|intros d].
    apply commits_pipes. intros ret valid_outs.
    apply commits_CHECK_RETURN. destruct (valid_outs =? 0).
    + apply commits_ret_nonzero. discriminate.
    + apply commits_finish.
Qed.

Lemma commits_try_commit_atomic E flags :
  Z.land flags DRM_MODE_ATOMIC_TEST_ONLY = 0 ->
  commits COMMIT_ATOMIC (igt_display_try_commit_atomic E flags).
Proof.
  intros Hflag. unfold igt_display_try_commit_atomic. rewrite Hflag.
  apply commits_keeps_bind; [stable_tac|intros _].
  apply commits_keeps_bind; [stable_tac|intros ret].
  cbn [Z.eqb negb]. rewrite orb_false_r.
  destruct (Z.eqb_spec ret 0) as [->|Hr]; cbn [negb].
  - apply commits_cleared.
  - apply commits_ret_nonzero. exact Hr.
Qed.

Lemma do_display_commit_success E s fail st st' :
  do_display_commit E s fail st = (Ret 0, st') ->
  exists d1, frame d1 = frame (display st)
             /\ display st' = display_commit_changed d1 s.
Proof.
  intros H. destruct (commits_do_display_commit E s fail _ _ _ H)
    as [[_ Hd]|[Hr _]]; [exact Hd|congruence].
Qed.

Lemma try_commit_atomic_success E flags st st' :
  Z.land flags DRM_MODE_ATOMIC_TEST_ONLY = 0 ->
  igt_display_try_commit_atomic E flags st = (Ret 0, st') ->
  exists d1, frame d1 = frame (display st)
             /\ display st' = display_commit_changed d1 COMMIT_ATOMIC.
Proof.
  intros Hf H. destruct (commits_try_commit_atomic E flags Hf _ _ _ H)
    as [[_ Hd]|[Hr _]]; [exact Hd|congruence].
Qed.




(* ================================================================== *)
(** ** Reading the display *)
(* ================================================================== *)

Lemma get_pipe_run p st x :
  pipes (display st) !! p = Some x -> get_pipe p st = (Ret x, st).
Proof. intros H. unfold get_pipe, mbind, M_bind, get_display, deref. rewrite H. reflexivity. Qed.

Lemma get_output_run o st x :
  outputs (display st) !! o = Some x -> get_output o st = (Ret x, st).
Proof. intros H. unfold get_output, mbind, M_bind, get_display, deref. rewrite H. reflexivity. Qed.

Lemma get_pipe_inv p st r st' :
  get_pipe p st = (r, st') ->
  st' = st /\ forall x, r = Ret x -> pipes (display st) !! p = Some x.
Proof.
  unfold get_pipe, mbind, M_bind, get_display, deref.
  destruct (pipes (display st) !! p); intros H; injection H as <- <-;
    split; try reflexivity; intros x Hx; congruence.
Qed.

Lemma get_plane_run p i st pl :
  plane_at (display st) p i = Some pl -> get_plane p i st = (Ret pl, st).
Proof.
  unfold plane_at. intros H.
  destruct (pipes (display st) !! p) as [x|] eqn:Hp; [|discriminate].
  cbn in H. unfold get_plane.
  rewrite (bind_ret_run _ _ _ _ _ (get_pipe_run _ _ _ Hp)).
  unfold deref. rewrite H. reflexivity.
Qed.

Lemma get_plane_inv p i st r st' :
  get_plane p i st = (r, st') ->
  st' = st /\ forall pl, r = Ret pl -> plane_at (display st) p i = Some pl.
Proof.
  unfold get_plane. intros H.
  apply bind_run in H as [(x & st1 & H1 & H2)|[H1 ->]].
  - apply get_pipe_inv in H1 as [-> Hx]. specialize (Hx x eq_refl).
    unfold deref in H2. unfold plane_at. rewrite Hx. cbn.
    destruct (planes x !! i); injection H2 as <- <-; split; try reflexivity;
      intros pl Hpl; congruence.
  - apply get_pipe_inv in H1 as [-> _]. split; [reflexivity|discriminate].
Qed.

Lemma plane_at_pipe d p i pl :
  plane_at d p i = Some pl ->
  exists x, pipes d !! p = Some x /\ planes x !! i = Some pl.
Proof.
  unfold plane_at. destruct (pipes d !! p) as [x|]; [|discriminate].
  cbn. eauto.
Qed.

Lemma igt_pipe_get_output_run p st x :
  pipes (display st) !! p = Some x ->
  exists o, igt_pipe_get_output p st = (Ret o, st).
Proof.
  intros H. unfold igt_pipe_get_output.
  rewrite (bind_ret_run _ _ _ _ _ (get_pipe_run _ _ _ H)).
  eexists. reflexivity.
Qed.

(* ================================================================== *)
(** ** The legacy protocol and the primary plane *)
(* ================================================================== *)

Lemma primary_legacy_head E p i fail st primary :
  plane_at (display st) p i = Some primary ->
  exists rest,
    igt_primary_plane_commit_legacy E p i fail st
    = (igt_assert ((crtc_x primary =? 0) && (crtc_y primary =? 0)) ;;
       igt_assert (negb (rotation_changed primary)) ;; rest) st.
Proof.
  intros Hpl. destruct (plane_at_pipe _ _ _ _ Hpl) as (x & Hx & _).
  destruct (igt_pipe_get_output_run p st x Hx) as (o & Ho).
  unfold igt_primary_plane_commit_legacy.
  rewrite (bind_ret_run _ _ _ _ _ (get_plane_run _ _ _ _ Hpl)).
  rewrite (bind_ret_run _ _ _ _ _ (get_pipe_run _ _ _ Hx)).
  rewrite (bind_ret_run _ _ _ _ _ Ho).
  eexists. reflexivity.
Qed.

Lemma legacy_primary_ok_dec pl :
  legacy_primary_ok pl
  \/ (crtc_x pl =? 0) && (crtc_y pl =? 0) = false
  \/ ((crtc_x pl =? 0) && (crtc_y pl =? 0) = true
      /\ rotation_changed pl = true).
Proof.
  unfold legacy_primary_ok.
  destruct (Z.eqb_spec (crtc_x pl) 0), (Z.eqb_spec (crtc_y pl) 0),
    (rotation_changed pl); cbn; auto.
Qed.

Lemma primary_legacy_aborts E p i fail st primary :
  plane_at (display st) p i = Some primary ->
  ~ legacy_primary_ok primary ->
  igt_primary_plane_commit_legacy E p i fail st = (Abort, st).
Proof.
  intros Hpl Hbad.
  destruct (primary_legacy_head E p i fail st primary Hpl) as (rest & ->).
  destruct (legacy_primary_ok_dec primary) as [Hok|[Hw|[Hw Hr]]];
    [contradiction| |].
  - rewrite Hw. reflexivity.
  - rewrite Hw, Hr. reflexivity.
Qed.

Lemma plane_commit_legacy_primary E p i fail st primary :
  plane_at (display st) p i = Some primary ->
  is_primary primary = true -> is_cursor primary = false ->
  igt_plane_commit E p i COMMIT_LEGACY fail st
  = igt_primary_plane_commit_legacy E p i fail st.
Proof.
  intros Hpl Hp Hc. unfold igt_plane_commit.
  rewrite (bind_ret_run _ _ _ _ _ (get_plane_run _ _ _ _ Hpl)).
  rewrite Hp, Hc. reflexivity.
Qed.

(** A legacy commit of a plane that returns has checked the primary
    plane. *)
Lemma plane_commit_legacy_vets E p i fail st v st' pl :
  igt_plane_commit E p i COMMIT_LEGACY fail st = (Ret v, st') ->
  plane_at (display st) p i = Some pl ->
  is_primary pl = true -> is_cursor pl = false ->
  legacy_primary_ok pl.
Proof.
  intros Hrun Hpl Hp Hc.
  destruct (legacy_primary_ok_dec pl) as [Hok|Hbad]; [exact Hok|].
  rewrite (plane_commit_legacy_primary E p i fail st pl) in Hrun
    by assumption.
  rewrite (primary_legacy_aborts E p i fail st pl) in Hrun;
    [discriminate|assumption|].
  intros (Hx & Hy & Hr). rewrite Hx, Hy, Hr in Hbad. cbn in Hbad.
  destruct Hbad as [H|[_ H]]; discriminate.
Qed.

Lemma CHECK_RETURN_zero r fail (k : M Z) st st' :
  CHECK_RETURN r fail k st = (Ret 0, st') -> r = 0 /\ k st = (Ret 0, st').
Proof.
  unfold CHECK_RETURN. destruct (Z.eqb_spec r 0) as [->|Hr]; cbn [negb andb].
  - intros H. split; [reflexivity|exact H].
  - destruct fail; cbn [negb].
    + intros H. discriminate H.
    + intros H. injection H as H _. contradiction.
Qed.

Lemma pipe_commit_planes_vets E p fail ids need k st st' :
  igt_pipe_commit_planes E p COMMIT_LEGACY fail ids need k st = (Ret 0, st') ->
  forall i pl, In i ids -> plane_at (display st) p i = Some pl ->
    is_primary pl = true -> is_cursor pl = false -> legacy_primary_ok pl.
Proof.
  revert need st. induction ids as [|j ids IH]; intros need st Hrun i pl Hin.
  - destruct Hin.
  - cbn [igt_pipe_commit_planes] in Hrun.
    apply bind_run in Hrun as [(plane & st1 & H1 & Hrun)|[_ Hr]];
      [|discriminate].
    apply get_plane_inv in H1 as [-> _].
    apply bind_run in Hrun as [(ret & st2 & H2 & Hrun)|[_ Hr]];
      [|discriminate].
    apply CHECK_RETURN_zero in Hrun as [-> Hrun].
    destruct Hin as [->|Hin]; intros Hpl Hp Hc.
    + exact (plane_commit_legacy_vets _ _ _ _ _ _ _ _ H2 Hpl Hp Hc).
    + apply (IH _ _ Hrun i pl Hin); try assumption.
      rewrite <- Hpl. apply frame_plane_at.
      exact (proj1 (keeps_igt_plane_commit E p j COMMIT_LEGACY fail _ _ _ H2)).
Qed.

Lemma pipe_commit_vets E p fail st st' :
  igt_pipe_commit E p COMMIT_LEGACY fail st = (Ret 0, st') ->
  forall i pl, plane_at (display st) p i = Some pl ->
    is_primary pl = true -> is_cursor pl = false -> legacy_primary_ok pl.
Proof.
  unfold igt_pipe_commit. intros Hrun i pl Hpl.
  apply bind_run in Hrun as [(x & st1 & H1 & Hrun)|[_ Hr]]; [|discriminate].
  apply get_pipe_inv in H1 as [-> Hx]. specialize (Hx x eq_refl).
  apply bind_run in Hrun as [([] & st2 & H2 & Hrun)|[_ Hr]]; [|discriminate].
  apply bind_run in Hrun as [([] & st3 & H3 & Hrun)|[_ Hr]]; [|discriminate].
  assert (K2 : steady st st2).
  { apply (fun S : stable steady _ => S _ _ _ H2). stable_tac. }
  assert (K3 : steady st2 st3).
  { apply (fun S : stable steady _ => S _ _ _ H3). stable_tac. }
  assert (F : frame (display st3) = frame (display st)).
  { destruct K2 as [F2 _], K3 as [F3 _]. congruence. }
  apply (pipe_commit_planes_vets _ _ _ _ _ _ _ _ Hrun i pl).
  - destruct (plane_at_pipe _ _ _ _ Hpl) as (y & Hy & Hi).
    assert (y = x) by congruence. subst y.
    apply in_seq. apply lookup_lt_Some in Hi. lia.
  - rewrite <- Hpl. apply frame_plane_at. exact F.
Qed.

Lemma display_commit_pipes_vets E fail ps ret valid_outs k st st' :
  do_display_commit_pipes E COMMIT_LEGACY fail ps ret valid_outs k st
  = (Ret 0, st') ->
  forall p i pl, In p ps -> plane_at (display st) p i = Some pl ->
    is_primary pl = true -> is_cursor pl = false -> legacy_primary_ok pl.
Proof.
  revert ret valid_outs st.
  induction ps as [|q ps IH]; intros ret valid_outs st Hrun p i pl Hin.
  - destruct Hin.
  - cbn [do_display_commit_pipes] in Hrun.
    apply bind_run in Hrun as [(o & st1 & H1 & Hrun)|[_ Hr]]; [|discriminate].
    assert (st1 = st) as ->.
    { unfold igt_pipe_get_output in H1.
      apply bind_run in H1 as [(x & st0 & Hx & H1)|[Hx _]].
      - apply get_pipe_inv in Hx as [-> _]. cbv in H1. congruence.
      - apply get_pipe_inv in Hx as [-> _]. reflexivity. }
    apply bind_run in Hrun as [(r & st2 & H2 & Hrun)|[_ Hr]]; [|discriminate].
    apply CHECK_RETURN_zero in Hrun as [-> Hrun].
    destruct Hin as [->|Hin]; intros Hpl Hp Hc.
    + exact (pipe_commit_vets _ _ _ _ _ H2 i pl Hpl Hp Hc).
    + apply (IH _ _ _ Hrun p i pl Hin); try assumption.
      rewrite <- Hpl. apply frame_plane_at.
      exact (proj1 (keeps_igt_pipe_commit E q COMMIT_LEGACY fail _ _ _ H2)).
Qed.

Lemma do_display_commit_vets E fail st st' :
  do_display_commit E COMMIT_LEGACY fail st = (Ret 0, st') ->
  forall p i pl, plane_at (display st) p i = Some pl ->
    is_primary pl = true -> is_cursor pl = false -> legacy_primary_ok pl.
Proof.
  unfold do_display_commit. intros Hrun p i pl Hpl.
  apply bind_run in Hrun as [([] & st1 & H1 & Hrun)|[_ Hr]]; [|discriminate].
  destruct (steady_igt_display_refresh E _ _ _ H1) as [F1 _].
  cbn [bool_decide decide_rel] in Hrun.
  apply bind_run in Hrun as [(d & st2 & H2 & Hrun)|[_ Hr]]; [|discriminate].
  injection H2 as <- <-.
  apply (display_commit_pipes_vets _ _ _ _ _ _ _ _ Hrun p i pl).
  - destruct (plane_at_pipe _ _ _ _ Hpl) as (x & Hx & _).
    apply in_seq. apply lookup_lt_Some in Hx. unfold n_pipes.
    assert (L : length (pipes (display st1)) = length (pipes (display st))).
    { unfold frame in F1. injection F1 as Fp _.
      apply (f_equal (@length _)) in Fp. rewrite !length_map in Fp.
      exact Fp. }
    lia.
  - rewrite <- Hpl. apply frame_plane_at. exact F1.
Qed.

(** C7: under the legacy protocol the commit of a primary plane whose
    destination origin is not (0,0), or whose rotation_changed flag is
    set, fails an assertion with the call log and the display untouched,
    so that drmModeSetCrtc is never reached; this holds whatever the
    other dirty flags are, and a legacy commit of a display with such a
    primary plane never returns 0. *)
Theorem C7_legacy_primary_asserts (E : env) (p i : nat) (fail : bool)
    (st : state) (primary : igt_plane) :
  plane_at (display st) p i = Some primary ->
  crtc_x primary <> 0 \/ crtc_y primary <> 0
  \/ rotation_changed primary = true ->
  igt_primary_plane_commit_legacy E p i fail st = (Abort, st)
  /\ (is_primary primary = true -> is_cursor primary = false ->
      igt_plane_commit E p i COMMIT_LEGACY fail st = (Abort, st)
      /\ forall st', do_display_commit E COMMIT_LEGACY fail st
                     <> (Ret 0, st')).
Proof.
  intros Hpl Hbad.
  assert (Hno : ~ legacy_primary_ok primary).
  { intros (Hx & Hy & Hr). destruct Hbad as [H|[H|H]]; congruence. }
  split.
  - apply (primary_legacy_aborts E p i fail st primary); assumption.
  - intros Hp Hc. split.
    + rewrite (plane_commit_legacy_primary E p i fail st primary)
        by assumption.
      apply (primary_legacy_aborts E p i fail st primary); assumption.
    + intros st' Hrun. apply Hno.
      exact (do_display_commit_vets E fail st st' Hrun p i primary Hpl Hp Hc).
Qed.

(* ================================================================== *)
(** ** Plane flags after a commit *)
(* ================================================================== *)

Lemma plane_at_cleared d s p i :
  plane_at (display_commit_changed d s) p i
  = (fun plane =>
       plane_with_flags plane false false
         (if bool_decide (s <> COMMIT_LEGACY)
             || negb (is_primary plane || is_cursor plane)
          then false else rotation_changed plane)
         false) <$> plane_at d p i.
Proof.
  unfold plane_at. cbn. rewrite list_lookup_fmap.
  destruct (pipes d !! p) as [x|]; cbn; [|reflexivity].
  rewrite list_lookup_fmap. reflexivity.
Qed.

(** C1, as stated, fails: a legacy commit that returns 0 leaves the
    rotation_changed flag of a cursor plane set; igt_display_commit2
    returns 0 on the same run. *)
Lemma C1_legacy_keeps_cursor_rotation :
  let run := do_display_commit quiet_driver COMMIT_LEGACY true
               (start display_rotated_cursor) in
  fst run = Ret 0
  /\ fst (igt_display_commit2 quiet_driver COMMIT_LEGACY
            (start display_rotated_cursor)) = Ret 0
  /\ (rotation_changed <$> plane_at (display (snd run)) 0 1) = Some true
  /\ ~ planes_clean (display (snd run)).
Proof.
  cbn zeta. split; [vm_compute; reflexivity|].
  split; [vm_compute; reflexivity|].
  split; [vm_compute; reflexivity|].
  intros H.
  destruct (plane_at
              (display (snd (do_display_commit quiet_driver COMMIT_LEGACY true
                               (start display_rotated_cursor)))) 0 1)
    as [pl|] eqn:Hpl.
  - specialize (H 0%nat 1%nat pl Hpl).
    assert (Hr : rotation_changed pl = true).
    { assert (Some (rotation_changed pl) = Some true) as [= ->];
        [|reflexivity].
      change (Some (rotation_changed pl))
        with (rotation_changed <$> Some pl).
      rewrite <- Hpl. vm_compute. reflexivity. }
    unfold plane_dirty in H. rewrite Hr in H. discriminate H.
  - vm_compute in Hpl. discriminate Hpl.
Qed.

(** C1, amended: after do_display_commit has returned 0, in any style,
    every plane of every pipe has fb_changed, position_changed and
    size_changed false, and rotation_changed false too, except that under
    COMMIT_LEGACY the rotation_changed flag of a cursor plane is what it
    was before the commit; after igt_display_try_commit_atomic without
    DRM_MODE_ATOMIC_TEST_ONLY has returned 0, or igt_display_commit_atomic
    without it has returned, all four flags of every plane are false. *)
Theorem C1_commit_clears_plane_flags (E : env) :
  (forall s fail st st',
     do_display_commit E s fail st = (Ret 0, st') ->
     forall p i pl', plane_at (display st') p i = Some pl' ->
       exists pl, plane_at (display st) p i = Some pl
         /\ fb_changed pl' = false /\ position_changed pl' = false
         /\ size_changed pl' = false
         /\ rotation_changed pl'
            = (if bool_decide (s = COMMIT_LEGACY) && is_cursor pl
               then rotation_changed pl else false))
  /\ (forall flags st st',
        Z.land flags DRM_MODE_ATOMIC_TEST_ONLY = 0 ->
        igt_display_try_commit_atomic E flags st = (Ret 0, st') ->
        planes_clean (display st'))
  /\ (forall flags st st',
        Z.land flags DRM_MODE_ATOMIC_TEST_ONLY = 0 ->
        igt_display_commit_atomic E flags st = (Ret tt, st') ->
        planes_clean (display st')).
Proof.
  assert (Hatomic : forall flags st st',
            Z.land flags DRM_MODE_ATOMIC_TEST_ONLY = 0 ->
            igt_display_try_commit_atomic E flags st = (Ret 0, st') ->
            planes_clean (display st')).
  { intros flags st st' Hf Hrun p i pl' Hpl'.
    destruct (try_commit_atomic_success _ _ _ _ Hf Hrun) as (d1 & Fd & Hd).
    rewrite Hd, plane_at_cleared in Hpl'.
    destruct (plane_at d1 p i) as [pl|]; [|discriminate].
    cbn in Hpl'. injection Hpl' as <-. reflexivity. }
  split; [|split; [exact Hatomic|]].
  - intros s fail st st' Hrun p i pl' Hpl'.
    destruct (do_display_commit_success _ _ _ _ _ Hrun) as (d1 & Fd & Hd).
    rewrite Hd, plane_at_cleared, (frame_plane_at _ _ p i Fd) in Hpl'.
    destruct (plane_at (display st) p i) as [pl|] eqn:Hpl; [|discriminate].
    cbn in Hpl'. injection Hpl' as <-. exists pl. cbn.
    repeat split.
    destruct s; cbn; try reflexivity.
    destruct (is_cursor pl) eqn:Hc.
    + rewrite orb_true_r. reflexivity.
    + rewrite orb_false_r. destruct (is_primary pl) eqn:Hp; cbn;
        [|reflexivity].
      exact (proj2 (proj2 (do_display_commit_vets _ _ _ _ Hrun p i pl
                             Hpl Hp Hc))).
  - intros flags st st' Hf Hrun. unfold igt_display_commit_atomic in Hrun.
    apply bind_run in Hrun as [(ret & st1 & H1 & H2)|[_ Hr]];
      [|discriminate].
    unfold igt_assert in H2. destruct (Z.eqb_spec ret 0) as [->|_];
      [|discriminate].
    injection H2 as <-. exact (Hatomic _ _ _ Hf H1).
Qed.

(* ================================================================== *)
(** ** The consistency check before a commit *)
(* ================================================================== *)

Lemma for_each_silent_abort {A} (l : list A) (body : A -> M unit) st x :
  (forall y, silent (body y)) -> In x l -> body x st = (Abort, st) ->
  for_each l body st = (Abort, st).
Proof.
  intros Hs Hin Hx. induction l as [|y l IH]; [destruct Hin|].
  cbn [for_each]. destruct (body y st) as [[[]|] st1] eqn:Hy.
  - assert (st1 = st) as -> by (symmetry; exact (Hs _ _ _ _ Hy)).
    rewrite (bind_ret_run _ _ _ _ _ Hy).
    destruct Hin as [->|Hin]; [congruence|]. exact (IH Hin).
  - assert (st1 = st) as -> by (symmetry; exact (Hs _ _ _ _ Hy)).
    exact (bind_abort_run _ _ _ _ Hy).
Qed.

Lemma refresh_conflict_aborts E st i j a b :
  outputs (display st) !! i = Some a ->
  outputs (display st) !! j = Some b ->
  i <> j ->
  pending_crtc_idx_mask a <> 0 ->
  pending_crtc_idx_mask a = pending_crtc_idx_mask b ->
  igt_display_refresh E st = (Abort, refresh_start st).
Proof.
  intros Ha Hb Hij Hna Hab. unfold igt_display_refresh.
  assert (H0 : set_pipes_in_use 0 st = (Ret (), refresh_start st))
    by reflexivity.
  rewrite (bind_ret_run _ _ _ _ _ H0).
  assert (H1 : get_display (refresh_start st)
               = (Ret (display (refresh_start st)), refresh_start st))
    by reflexivity.
  rewrite (bind_ret_run _ _ _ _ _ H1).
  apply bind_abort_run.
  assert (Hn : n_outputs (display (refresh_start st))
               = length (outputs (display st))) by reflexivity.
  apply (for_each_silent_abort _ _ _ i).
  - intros y. unfold silent. stable_tac.
  - apply in_seq. apply lookup_lt_Some in Ha. rewrite Hn. lia.
  - rewrite (bind_ret_run _ _ _ _ _
               (get_output_run i (refresh_start st) a Ha)).
    destruct (Z.eqb_spec (pending_crtc_idx_mask a) 0) as [|_];
      [contradiction|].
    apply (for_each_silent_abort _ _ _ j).
    + intros y. unfold silent. stable_tac.
    + apply in_seq. apply lookup_lt_Some in Hb. rewrite Hn. lia.
    + rewrite (bind_ret_run _ _ _ _ _
                 (get_output_run j (refresh_start st) b Hb)).
      destruct (Nat.eqb_spec i j) as [|_]; [contradiction|].
      rewrite Hab, Z.eqb_refl. reflexivity.
Qed.

(** C2: when two distinct outputs hold the same non-empty pending pipe
    binding, every commit entry point, in every style, fails the
    assertion of igt_display_refresh: the call log is what it was (no
    driver call was made) and the pending bindings of all outputs are
    what they were (neither binding replaced the other). *)
Theorem C2_shared_pipe_aborts (E : env) (st : state) (i j : nat)
    (a b : igt_output) :
  outputs (display st) !! i = Some a ->
  outputs (display st) !! j = Some b ->
  i <> j ->
  pending_crtc_idx_mask a <> 0 ->
  pending_crtc_idx_mask b <> 0 ->
  pending_crtc_idx_mask a = pending_crtc_idx_mask b ->
  (forall s fail, do_display_commit E s fail st = (Abort, refresh_start st))
  /\ (forall s, igt_display_commit2 E s st = (Abort, refresh_start st))
  /\ (forall s, igt_display_try_commit2 E s st = (Abort, refresh_start st))
  /\ igt_display_commit E st = (Abort, refresh_start st)
  /\ (forall flags,
        igt_display_try_commit_atomic E flags st = (Abort, refresh_start st))
  /\ (forall flags,
        igt_display_commit_atomic E flags st = (Abort, refresh_start st))
  /\ calls (refresh_start st) = calls st
  /\ outputs (display (refresh_start st)) = outputs (display st).
Proof.
  intros Ha Hb Hij Hna Hnb Hab.
  pose proof (refresh_conflict_aborts E st i j a b Ha Hb Hij Hna Hab) as Hr.
  assert (Hc : forall s fail,
             do_display_commit E s fail st = (Abort, refresh_start st)).
  { intros s fail. unfold do_display_commit.
    exact (bind_abort_run _ _ _ _ Hr). }
  assert (Ht : forall flags,
             igt_display_try_commit_atomic E flags st
             = (Abort, refresh_start st)).
  { intros flags. unfold igt_display_try_commit_atomic.
    exact (bind_abort_run _ _ _ _ Hr). }
  assert (H2 : forall s,
             igt_display_commit2 E s st = (Abort, refresh_start st)).
  { intros s. unfold igt_display_commit2.
    exact (bind_abort_run _ _ _ _ (Hc s true)). }
  repeat split.
  - exact Hc.
  - exact H2.
  - intros s. exact (Hc s false).
  - exact (H2 COMMIT_LEGACY).
  - exact Ht.
  - intros flags. unfold igt_display_commit_atomic.
    exact (bind_abort_run _ _ _ _ (Ht flags)).
Qed.

(* ================================================================== *)
(** ** Binding two outputs to one pipe *)
(* ================================================================== *)

Global Instance same_pendings_preorder : PreOrder same_pendings.
Proof.
  split.
  - intros st. reflexivity.
  - intros st1 st2 st3 H1 H2. unfold same_pendings in *. congruence.
Qed.

Lemma steady_same_pendings {A} (m : M A) :
  stable steady m -> stable same_pendings m.
Proof.
  intros H st r st' Hm. destruct (H _ _ _ Hm) as [F _].
  unfold same_pendings, pendings. unfold frame in F. injection F as _ Fo.
  transitivity (map fst (map output_frame (outputs (display st')))).
  - rewrite map_map. reflexivity.
  - rewrite Fo, map_map. reflexivity.
Qed.

Lemma same_pendings_modify_pipe p f :
  stable same_pendings (modify_pipe p f).
Proof. intros st r st' H. injection H as <- <-. reflexivity. Qed.

Lemma same_pendings_modify_config o f :
  stable same_pendings (modify_config o f).
Proof.
  intros st r st' H. injection H as <- <-. unfold same_pendings, pendings.
  cbn. apply map_alter_same. intros x. reflexivity.
Qed.

Lemma set_pending_run o v st :
  exists st', modify_output o (output_set_pending_crtc_idx_mask v) st
              = (Ret tt, st')
    /\ pendings st' = <[o := v]> (pendings st).
Proof.
  eexists. split; [reflexivity|]. unfold pendings. cbn.
  generalize (outputs (display st)). intros l. revert o.
  induction l as [|x l IH]; intros [|o]; cbn; try reflexivity.
  f_equal. apply IH.
Qed.

#[global] Hint Resolve same_pendings_modify_pipe same_pendings_modify_config
  : stable.

#[global] Hint Extern 5 (stable same_pendings _) =>
  (apply steady_same_pendings; solve [eauto 2 with stable]) : stable.

Lemma same_pendings_driving_pipe o :
  stable same_pendings (igt_output_get_driving_pipe o).
Proof. unfold igt_output_get_driving_pipe. stable_tac. Qed.

#[global] Hint Resolve same_pendings_driving_pipe : stable.

(** igt_output_set_pipe with a pipe records the binding 1 << pipe of the
    output and leaves the bindings of the other outputs alone. *)
Lemma set_pipe_pendings E o pipe st st' :
  pipe <> PIPE_NONE ->
  igt_output_set_pipe E o pipe st = (Ret tt, st') ->
  pendings st' = <[o := Z.shiftl 1 pipe]> (pendings st)
  /\ (o < length (pendings st))%nat /\ 0 <= pipe.
Proof.
  intros Hp Hrun. unfold igt_output_set_pipe in Hrun.
  apply bind_run in Hrun as [(output & st0 & H0 & Hrun)|[_ Hr]];
    [|discriminate].
  assert (Ho : outputs (display st) !! o = Some output /\ st0 = st).
  { unfold get_output in H0.
    apply bind_run in H0 as [(d & st1 & Hd & H0)|[Hd _]];
      [|discriminate].
    injection Hd as <- <-. unfold deref in H0.
    destruct (outputs (display st) !! o); [|discriminate].
    injection H0 as <- <-. auto. }
  destruct Ho as [Ho ->].
  apply bind_run in Hrun as [([] & st1 & H1 & Hrun)|[_ Hr]]; [|discriminate].
  assert (st1 = st) as ->.
  { unfold igt_assert in H1. injection H1 as _ <-. reflexivity. }
  apply bind_run in Hrun as [([] & st2 & H2 & Hrun)|[_ Hr]]; [|discriminate].
  assert (P2 : same_pendings st st2).
  { apply (fun S : stable same_pendings _ => S _ _ _ H2). stable_tac. }
  apply bind_run in Hrun as [([] & st3 & H3 & Hrun)|[_ Hr]]; [|discriminate].
  destruct (Z.eqb_spec pipe PIPE_NONE) as [|_]; [contradiction|].
  apply bind_run in H3 as [([] & st2' & H3a & H3b)|[_ Hr]]; [|discriminate].
  destruct (set_pending_run o (Z.shiftl 1 pipe) st2) as (stx & Hx & Px).
  rewrite Hx in H3a. injection H3a as <-.
  destruct (Z.leb_spec 0 pipe) as [Hpos|]; [|discriminate].
  assert (P3 : same_pendings stx st3).
  { apply (fun S : stable same_pendings _ => S _ _ _ H3b). stable_tac. }
  apply bind_run in Hrun as [([] & st4 & H4 & Hrun)|[_ Hr]]; [|discriminate].
  assert (P4 : same_pendings st3 st4).
  { apply (fun S : stable same_pendings _ => S _ _ _ H4). stable_tac. }
  assert (P5 : same_pendings st4 st').
  { apply (fun S : stable same_pendings _ => S _ _ _ Hrun). stable_tac. }
  unfold same_pendings in *. split; [congruence|]. split; [|exact Hpos].
  unfold pendings. rewrite length_map. apply lookup_lt_Some in Ho. exact Ho.
Qed.

(** set_pipe(A, P), then set_pipe(B, P), then a commit: after the two
    bindings of distinct outputs to the same pipe have been recorded,
    every commit fails the check of igt_display_refresh before any call
    to the driver. *)
Lemma set_pipe_twice_aborts E st a b pipe st1 st2 :
  a <> b -> pipe <> PIPE_NONE ->
  igt_output_set_pipe E a pipe st = (Ret tt, st1) ->
  igt_output_set_pipe E b pipe st1 = (Ret tt, st2) ->
  forall s fail,
    do_display_commit E s fail st2 = (Abort, refresh_start st2).
Proof.
  intros Hab Hp Ha Hb s fail.
  destruct (set_pipe_pendings _ _ _ _ _ Hp Ha) as (P1 & L1 & Hpos).
  destruct (set_pipe_pendings _ _ _ _ _ Hp Hb) as (P2 & L2 & _).
  assert (Hmask : Z.shiftl 1 pipe <> 0).
  { rewrite Z.shiftl_1_l. apply Z.pow_nonzero; lia. }
  assert (Ga : pendings st2 !! a = Some (Z.shiftl 1 pipe)).
  { rewrite P2, list_lookup_insert_ne by congruence.
    rewrite P1. apply list_lookup_insert_eq. exact L1. }
  assert (Gb : pendings st2 !! b = Some (Z.shiftl 1 pipe)).
  { rewrite P2. apply list_lookup_insert_eq. exact L2. }
  unfold pendings in Ga, Gb. rewrite list_lookup_fmap in Ga, Gb.
  destruct (outputs (display st2) !! a) as [oa|] eqn:Ea; [|discriminate].
  destruct (outputs (display st2) !! b) as [ob|] eqn:Eb; [|discriminate].
  cbn in Ga, Gb. injection Ga as Ga. injection Gb as Gb.
  unfold do_display_commit. apply bind_abort_run.
  apply (refresh_conflict_aborts E st2 a b oa ob Ea Eb Hab); congruence.
Qed.

(* ================================================================== *)
(** ** The first error of a try-commit *)
(* ================================================================== *)

Lemma halts_ret v : halts_on_error (mret v).
Proof.
  intros st r st' H. injection H as <- <-. exists []. split.
  - symmetry. apply app_nil_r.
  - left. apply clean_nil.
Qed.

Lemma halts_ioctl E c : halts_on_error (ioctl E c).
Proof.
  intros st r st' H. injection H as <- <-.
  exists [(c, drm_ret E (calls st) c)]. split; [reflexivity|].
  destruct (checked c) eqn:Hc.
  - destruct (Z.eq_dec (drm_ret E (calls st) c) 0) as [H0|H0].
    + left. apply clean_one. intros _. exact H0.
    + right. exists [], c, (drm_ret E (calls st) c).
      repeat split; try assumption. apply clean_nil.
  - left. apply clean_one. congruence.
Qed.

Lemma halts_steady_bind {A} (m : M A) (k : A -> M Z) :
  stable steady m -> (forall a, halts_on_error (k a)) ->
  halts_on_error (m ≫= k).
Proof.
  intros Hm Hk st r st' H.
  apply bind_run in H as [(a & st1 & H1 & H2)|[H1 ->]].
  - destruct (Hm _ _ _ H1) as [_ (n1 & C1 & K1)].
    destruct (Hk _ _ _ _ H2) as (n2 & C2 & [K2|(pre & c & r0 & -> & K2 & R)]).
    + exists (n1 ++ n2). split.
      * rewrite C2, C1. symmetry. apply app_assoc.
      * left. apply clean_app; assumption.
    + exists (n1 ++ pre ++ [(c, r0)]). split.
      * rewrite C2, C1. symmetry. apply app_assoc.
      * right. exists (n1 ++ pre), c, r0. split.
        -- apply app_assoc.
        -- split; [apply clean_app; assumption|exact R].
  - destruct (Hm _ _ _ H1) as [_ (n1 & C1 & K1)].
    exists n1. split; [exact C1|left; exact K1].
Qed.

Lemma halts_check (m : M Z) (k : Z -> M Z) :
  halts_on_error m -> (forall ret, halts_on_error (k ret)) ->
  halts_on_error (m ≫= fun ret => CHECK_RETURN ret false (k ret)).
Proof.
  intros Hm Hk st r st' H.
  apply bind_run in H as [(ret & st1 & H1 & H2)|[H1 ->]].
  - destruct (Hm _ _ _ H1) as (n1 & C1 & [K1|(pre & c & r0 & -> & K1 & Hc & Hr & Heq)]).
    + unfold CHECK_RETURN in H2. cbn [negb andb] in H2.
      rewrite andb_true_r in H2.
      destruct (Z.eqb_spec ret 0) as [->|Hret]; cbn [negb] in H2.
      * change ((igt_assert true ;; k 0) st1 = (r, st')) in H2.
        change (k 0 st1 = (r, st')) in H2.
        destruct (Hk _ _ _ _ H2)
          as (n2 & C2 & [K2|(pre & c & r0 & -> & K2 & R)]).
        -- exists (n1 ++ n2). split.
           ++ rewrite C2, C1. symmetry. apply app_assoc.
           ++ left. apply clean_app; assumption.
        -- exists (n1 ++ pre ++ [(c, r0)]). split.
           ++ rewrite C2, C1. symmetry. apply app_assoc.
           ++ right. exists (n1 ++ pre), c, r0. split.
              ** apply app_assoc.
              ** split; [apply clean_app; assumption|exact R].
      * injection H2 as <- <-. exists n1. split; [exact C1|left; exact K1].
    + injection Heq as ->. unfold CHECK_RETURN in H2.
      destruct (Z.eqb_spec r0 0) as [|_]; [contradiction|].
      cbn in H2. injection H2 as <- <-.
      exists (pre ++ [(c, r0)]). split; [exact C1|].
      right. exists pre, c, r0. repeat split; assumption.
  - destruct (Hm _ _ _ H1)
      as (n1 & C1 & [K1|(pre & c & r0 & -> & K1 & Hc & Hr & Heq)]).
    + exists n1. split; [exact C1|left; exact K1].
    + discriminate Heq.
Qed.

(** One step of a proof that a program with fail_on_error false stops at
    its first failed checked call. *)
Ltac halts_step E :=
  lazymatch goal with
  | |- halts_on_error (mret _) => apply halts_ret
  | |- halts_on_error (ioctl _ _) => apply halts_ioctl
  | |- halts_on_error (mbind _ _) =>
      first [ apply halts_check; [|intros ?]
            | apply halts_steady_bind; [solve [stable_tac]|intros ?] ]
  | |- halts_on_error (match ?x with _ => _ end) => destruct x
  | |- halts_on_error (let _ := _ in _) => cbv zeta
  | |- halts_on_error ((fun _ => _) _) => cbv beta
  end.

Create HintDb halts discriminated.

Ltac halts_tac E :=
  repeat first [solve [eauto 2 with halts] | halts_step E].

Section Halts.

Variable E : env.

Lemma halts_igt_plane_set_property plane prop v :
  halts_on_error (igt_plane_set_property E plane prop v).
Proof. unfold igt_plane_set_property. halts_tac E. Qed.

Hint Resolve halts_igt_plane_set_property : halts.

Lemma halts_igt_drm_plane_commit p i :
  halts_on_error (igt_drm_plane_commit E p i false).
Proof. unfold igt_drm_plane_commit. halts_tac E. Qed.

Lemma halts_igt_cursor_commit_legacy p i :
  halts_on_error (igt_cursor_commit_legacy E p i false).
Proof. unfold igt_cursor_commit_legacy. halts_tac E. Qed.

Lemma halts_igt_primary_plane_commit_legacy p i :
  halts_on_error (igt_primary_plane_commit_legacy E p i false).
Proof.
  unfold igt_primary_plane_commit_legacy. halts_tac E.
  all: apply (halts_check _ (fun _ => _)); [|intros ?]; halts_tac E.
Qed.

Hint Resolve halts_igt_drm_plane_commit halts_igt_cursor_commit_legacy
  halts_igt_primary_plane_commit_legacy : halts.

Lemma halts_igt_plane_commit p i s :
  halts_on_error (igt_plane_commit E p i s false).
Proof. unfold igt_plane_commit. halts_tac E. Qed.

Hint Resolve halts_igt_plane_commit : halts.

Lemma halts_igt_pipe_commit_planes p s ids need k :
  (forall b, halts_on_error (k b)) ->
  halts_on_error (igt_pipe_commit_planes E p s false ids need k).
Proof.
  intros Hk. revert need.
  induction ids as [|i ids IH]; intros need; cbn [igt_pipe_commit_planes].
  - apply Hk.
  - halts_tac E.
Qed.

Lemma halts_igt_pipe_commit p s :
  halts_on_error (igt_pipe_commit E p s false).
Proof.
  unfold igt_pipe_commit. halts_tac E.
  all: apply halts_igt_pipe_commit_planes; intros b; halts_tac E.
Qed.

Lemma halts_igt_atomic_commit flags :
  halts_on_error (igt_atomic_commit E flags).
Proof. unfold igt_atomic_commit. halts_tac E. Qed.

Hint Resolve halts_igt_pipe_commit halts_igt_atomic_commit : halts.

Lemma halts_finish s ret : halts_on_error (do_display_commit_finish s ret).
Proof.
  intros st r st' H. exists []. split.
  - unfold do_display_commit_finish in H. destruct (negb (ret =? 0));
      cbv in H; injection H as <- <-; symmetry; apply app_nil_r.
  - left. apply clean_nil.
Qed.

Hint Resolve halts_finish : halts.

Lemma halts_pipes s ps ret valid_outs k :
  (forall ret valid_outs, halts_on_error (k ret valid_outs)) ->
  halts_on_error (do_display_commit_pipes E s false ps ret valid_outs k).
Proof.
  intros Hk. revert ret valid_outs.
  induction ps as [|p ps IH]; intros ret valid_outs;
    cbn [do_display_commit_pipes].
  - apply Hk.
  - halts_tac E.
Qed.

Lemma halts_CHECK_RETURN r k :
  halts_on_error k -> halts_on_error (CHECK_RETURN r false k).
Proof.
  intros Hk. unfold CHECK_RETURN. destruct (negb (r =? 0) && negb false).
  - apply halts_ret.
  - apply halts_steady_bind; [stable_tac|intros _; exact Hk].
Qed.

Lemma halts_do_display_commit s :
  halts_on_error (do_display_commit E s false).
Proof.
  unfold do_display_commit. halts_tac E.
  apply halts_pipes. intros ret valid_outs.
  apply halts_CHECK_RETURN. halts_tac E.
Qed.

End Halts.

Lemma last_call_unique {A} (pre post pre' : list A) (x y : A) :
  pre ++ x :: post = pre' ++ [y] -> (post = [] /\ x = y) \/ In x pre'.
Proof.
  intros H. destruct post as [|z post] using rev_ind.
  - left. split; [reflexivity|].
    change (pre ++ [x] = pre' ++ [y]) in H.
    apply app_inj_tail in H as [_ H]. exact H.
  - right. clear IHpost.
    assert (H' : (pre ++ x :: post) ++ [z] = pre' ++ [y]).
    { rewrite <- H, <- app_assoc. reflexivity. }
    apply app_inj_tail in H' as [<- _]. apply in_or_app. right. left.
    reflexivity.
Qed.

(** C6, as stated, fails: the write of the background colour property
    returns -EINVAL, yet the try-commit goes on to drmModeSetCrtc,
    returns 0 and clears the dirty flags. *)
Lemma C6_crtc_property_error_ignored :
  let run := igt_display_try_commit2 no_crtc_props_driver COMMIT_LEGACY
               (start display_background) in
  fst run = Ret 0
  /\ nth 6 (calls (snd run)) (drmModeGetResources, 0)
     = (drmModeObjectSetProperty 10 DRM_MODE_OBJECT_CRTC 31 0xffff, -22)
  /\ skipn 7 (calls (snd run)) <> []
  /\ change_tracker (display (snd run)) <> change_tracker display_background
  /\ ~ first_error_halts (fun _ => true) no_crtc_props_driver COMMIT_LEGACY
         (start display_background).
Proof.
  cbn zeta.
  split; [vm_compute; reflexivity|].
  split; [vm_compute; reflexivity|].
  split; [vm_compute; discriminate|].
  split; [vm_compute; discriminate|].
  intros H.
  destruct (igt_display_try_commit2 no_crtc_props_driver COMMIT_LEGACY
              (start display_background)) as [r st'] eqn:Hrun.
  assert (Hr : r = Ret 0).
  { change r with (fst (r, st')). rewrite <- Hrun. vm_compute. reflexivity. }
  destruct (H r st' (firstn 6 (calls st'))
              (drmModeObjectSetProperty 10 DRM_MODE_OBJECT_CRTC 31 0xffff)
              (-22) (skipn 7 (calls st')) Hrun) as (Hbad & _).
  - change st' with (snd (r, st')). rewrite <- Hrun. vm_compute. reflexivity.
  - reflexivity.
  - discriminate.
  - rewrite Hr in Hbad. discriminate Hbad.
Qed.

(** C6, amended: when igt_display_try_commit2 is running and a programming
    call whose result the commit checks (drmModeSetCrtc, drmModeSetCursor,
    drmModeMoveCursor, drmModeSetPlane, the write of a plane property,
    drmModeAtomicCommit) returns a non-zero code, the commit returns that
    code, makes no further driver call, and clears no dirty flag. *)
Theorem C6_checked_error_halts (E : env) (s : igt_commit_style) (st : state) :
  first_error_halts checked E s st.
Proof.
  intros r st' pre c r0 post Hrun Hcalls Hc Hr0.
  unfold igt_display_try_commit2 in Hrun.
  destruct (halts_do_display_commit E s _ _ _ Hrun) as (new & C & Hnew).
  rewrite Hcalls in C. apply app_inv_head in C. subst new.
  destruct Hnew as [K|(pre' & c' & r0' & Heq & K & Hc' & Hr0' & ->)].
  - exfalso. apply Hr0. apply (K c r0); [|exact Hc].
    apply in_or_app. right. left. reflexivity.
  - apply last_call_unique in Heq as [[-> Heq]|Hin].
    + injection Heq as <- <-. split; [reflexivity|]. split; [reflexivity|].
      apply frame_change_tracker.
      destruct (commits_do_display_commit E s false _ _ _ Hrun)
        as [[Hz _]|[_ F]]; [|exact F].
      injection Hz as Hz. contradiction.
    + exfalso. apply Hr0. exact (K c r0 Hin Hc).
Qed.

(* ================================================================== *)
(** ** Starting a CRC capture *)
(* ================================================================== *)

Section CrcFacts.

Import PipeCrc.

Variable E : PipeCrc.env.

Lemma read_crc_empty pc z rs lg out :
  empty_poll E (flags pc) z = true ->
  read_crc E out {| pipe_crc := pc; replies := z :: rs; sys_log := lg |}
  = (Done (0, out),
     {| pipe_crc := pc; replies := rs;
        sys_log := lg ++ [sys_read (crc_fd pc)
                            (if is_legacy pc then LEGACY_LINE_LEN
                             else MAX_LINE_LEN)] |}).
Proof.
  unfold empty_poll, read_crc. intros Hz.
  unfold mbind, M_bind, get_pipe_crc, read, mret, M_ret. cbn [replies pipe_crc sys_log].
  destruct ((rd_ret z <? 0) && (rd_errno z =? Z.pos (EAGAIN E))).
  - rewrite Hz. reflexivity.
  - apply Z.eqb_eq in Hz. rewrite Hz. reflexivity.
Qed.






Lemma record_delivers r : carries_record r -> delivers E r = true.
Proof.
  unfold carries_record, delivers. intros H.
  destruct (Z.ltb_spec (rd_ret r) 0); [lia|].
  destruct (Z.eqb_spec (rd_ret r) 0); [lia|]. reflexivity.
Qed.


End CrcFacts.


(* ================================================================== *)
(** ** EDID checksums *)
(* ================================================================== *)

Lemma byte_sum_app l1 l2 : byte_sum (l1 ++ l2) = byte_sum l1 + byte_sum l2.
Proof.
  unfold byte_sum. induction l1 as [|x l1 IH]; cbn; [reflexivity|].
  rewrite IH. lia.
Qed.

Lemma byte_sum_cons x l : byte_sum (x :: l) = x + byte_sum l.
Proof. reflexivity. Qed.

(** The checksum loop over int leaves the sum of the bytes. *)
Lemma sum_loop_int l acc :
  fold_left (fun sum b => sum + b) l acc = acc + byte_sum l.
Proof.
  revert acc. induction l as [|x l IH]; intros acc; cbn [fold_left].
  - unfold byte_sum. cbn. lia.
  - rewrite IH, byte_sum_cons. lia.
Qed.

Lemma to_char_mod cs x : to_char cs x mod 256 = x mod 256.
Proof.
  unfold to_char. destruct cs.
  - rewrite Zminus_mod_idemp_l. f_equal. lia.
  - apply Z.mod_mod. lia.
Qed.

(** The checksum loop over char leaves the sum of the bytes modulo 256,
    whether char is signed or not. *)
Lemma sum_loop_char cs l acc :
  fold_left (fun sum b => to_char cs (sum + b)) l acc mod 256
  = (acc + byte_sum l) mod 256.
Proof.
  revert acc. induction l as [|x l IH]; intros acc; cbn [fold_left].
  - f_equal. unfold byte_sum. cbn. lia.
  - rewrite IH, byte_sum_cons. rewrite Z.add_mod by lia.
    rewrite to_char_mod. rewrite <- Z.add_mod by lia. f_equal. lia.
Qed.

(** Storing the negated sum of the first 127 bytes in byte 127 makes the
    128 bytes sum to a multiple of 256. *)
Lemma block_closed (e : list Z) (sum : Z) :
  (127 < length e)%nat ->
  sum mod 256 = byte_sum (take 127 e) mod 256 ->
  byte_sum (take 128 (<[127%nat := to_uchar (256 - sum)]> e)) mod 256 = 0.
Proof.
  intros Hlen Hsum.
  assert (Hs : take 128 (<[127%nat := to_uchar (256 - sum)]> e)
               = take 127 e ++ [to_uchar (256 - sum)]).
  { rewrite (take_S_r _ 127 (to_uchar (256 - sum))).
    - rewrite take_insert_ge by lia. reflexivity.
    - apply list_lookup_insert_eq. lia. }
  rewrite Hs, byte_sum_app. unfold byte_sum at 2. cbn. unfold to_uchar.
  Z.to_euclidean_division_equations. lia.
Qed.

Lemma take_store_bytes bs pos e n :
  (n <= pos)%nat -> take n (store_bytes bs pos e) = take n e.
Proof.
  revert pos e. induction bs as [|b bs IH]; intros pos e Hn; cbn;
    [reflexivity|].
  rewrite IH by lia. apply take_insert_ge. lia.
Qed.

Lemma length_store_bytes bs pos e : length (store_bytes bs pos e) = length e.
Proof.
  revert pos e. induction bs as [|b bs IH]; intros pos e; cbn;
    [reflexivity|].
  rewrite IH. apply length_insert.
Qed.

Lemma drop_store_bytes bs n k e :
  drop n (store_bytes bs (n + k) e) = store_bytes bs k (drop n e).
Proof.
  revert k e. induction bs as [|b bs IH]; intros k e; cbn; [reflexivity|].
  replace (S (n + k)) with (n + S k)%nat by lia. rewrite IH.
  rewrite drop_insert_ge by lia. do 2 f_equal. lia.
Qed.

(** X1 (update_edid_csum): on a block of at least 128 bytes the function
    stores the year of manufacture, counted from 1990, in byte 17 and a
    checksum in byte 127 that makes the first 128 bytes sum to a multiple
    of 256; no other byte changes. *)
Theorem update_edid_csum_closes_block (tm_year : Z) (edid : list Z) :
  (128 <= length edid)%nat ->
  exists edid',
    update_edid_csum tm_year edid = Some edid'
    /\ length edid' = length edid
    /\ byte_sum (take 128 edid') mod 256 = 0
    /\ edid' !! 17%nat = Some ((tm_year - 90) mod 256)
    /\ forall i, i <> 17%nat -> i <> 127%nat -> edid' !! i = edid !! i.
Proof.
  intros Hlen. unfold update_edid_csum.
  destruct (Nat.ltb_spec (length edid) 128) as [?|_]; [lia|].
  eexists. split; [reflexivity|]. split; [|split; [|split]].
  - rewrite !length_insert. reflexivity.
  - apply block_closed.
    + rewrite length_insert. lia.
    + rewrite sum_loop_int. f_equal.
  - rewrite list_lookup_insert_ne by lia.
    apply list_lookup_insert_eq. lia.
  - intros i H17 H127. rewrite !list_lookup_insert_ne by lia. reflexivity.
Qed.

(** A block of less than 128 bytes is written out of bounds. *)
Lemma update_edid_csum_short tm_year edid :
  (length edid < 128)%nat -> update_edid_csum tm_year edid = None.
Proof.
  intros H. unfold update_edid_csum.
  destruct (Nat.ltb_spec (length edid) 128); [reflexivity|lia].
Qed.

(** X2 (kmstest_edid_add_3d): from a block of at least 128 bytes the
    function makes a block that is 128 bytes longer, in which the
    extension count of byte 126 is one more (modulo 256), the first 128
    bytes sum to a multiple of 256 and so do the 128 bytes of the added
    extension, whether char is signed or not; the bytes between the base
    block and the extension are copied. *)
Theorem edid_add_3d_checksums (char_signed : bool) (edid : list Z) :
  (128 <= length edid)%nat ->
  let new_edid := fst (kmstest_edid_add_3d char_signed edid) in
  let new_length := snd (kmstest_edid_add_3d char_signed edid) in
  new_length = Z.of_nat (length edid) + 128
  /\ Z.of_nat (length new_edid) = new_length
  /\ byte_sum (take 128 new_edid) mod 256 = 0
  /\ byte_sum (drop (length edid) new_edid) mod 256 = 0
  /\ new_edid !! 126%nat = Some ((nth 126 edid 0 + 1) mod 256)
  /\ forall i, i <> 126%nat -> i <> 127%nat -> (i < length edid)%nat ->
       new_edid !! i = edid !! i.
Proof.
  intros Hlen. unfold kmstest_edid_add_3d. cbn [fst snd].
  set (e0 := edid ++ replicate 128 0).
  set (e1 := <[126%nat := _]> e0).
  set (s1 := fold_left _ (take 127 e1) 0).
  set (e2 := <[127%nat := _]> e1).
  set (bs := [_; _; _; _; _; _; _; _; _; _; _; _; _; _; _; _; _; _; _; _; _]).
  set (e3 := store_bytes bs (length edid) e2).
  set (s2 := fold_left _ (take 127 (drop (length edid) e3)) 0).
  assert (L0 : length e0 = (length edid + 128)%nat).
  { unfold e0. rewrite length_app, length_replicate. reflexivity. }
  assert (L1 : length e1 = (length edid + 128)%nat).
  { unfold e1. rewrite length_insert. exact L0. }
  assert (L2 : length e2 = (length edid + 128)%nat).
  { unfold e2. rewrite length_insert. exact L1. }
  assert (L3 : length e3 = (length edid + 128)%nat).
  { unfold e3. rewrite length_store_bytes. exact L2. }
  assert (D3 : drop (length edid) e3 = store_bytes bs 0 (replicate 128 0)).
  { unfold e3. rewrite <- (Nat.add_0_r (length edid)) at 2.
    rewrite drop_store_bytes. f_equal. unfold e2, e1.
    rewrite !drop_insert_lt by lia. unfold e0.
    rewrite drop_app_length. reflexivity. }
  split; [reflexivity|]. split; [|split; [|split; [|split]]].
  - rewrite length_insert, L3. lia.
  - rewrite take_insert_ge by lia. unfold e3.
    rewrite take_store_bytes by lia. apply block_closed; [lia|].
    unfold s1. rewrite sum_loop_char. f_equal.
  - rewrite drop_insert_ge by lia.
    replace (length edid + 127 - length edid)%nat with 127%nat by lia.
    rewrite <- (firstn_all (<[127%nat:=_]> (drop (length edid) e3))).
    rewrite length_insert, length_drop, L3.
    replace (length edid + 128 - length edid)%nat with 128%nat by lia.
    apply block_closed.
    + rewrite length_drop, L3. lia.
    + unfold s2. rewrite sum_loop_char. f_equal.
  - rewrite list_lookup_insert_ne by lia.
    rewrite <- (lookup_take_lt _ 128) by lia. unfold e3.
    rewrite take_store_bytes by lia. rewrite lookup_take_lt by lia.
    unfold e2. rewrite list_lookup_insert_ne by lia.
    unfold e1. rewrite list_lookup_insert_eq by lia.
    unfold to_uchar, e0. rewrite app_nth1 by lia. reflexivity.
  - intros i H126 H127 Hi. rewrite list_lookup_insert_ne by lia.
    rewrite <- (lookup_take_lt _ (length edid)) by lia. unfold e3.
    rewrite take_store_bytes by lia. rewrite lookup_take_lt by lia.
    unfold e2, e1. rewrite !list_lookup_insert_ne by lia.
    unfold e0. apply lookup_app_l. exact Hi.
Qed.

(* ================================================================== *)
(** ** The kmstest_ helpers *)
(* ================================================================== *)

(** X3 (kmstest_pipe_name, kmstest_pipe_to_index): the two functions are
    inverse to each other on the pipes A, B and C: the name of pipe 0, 1
    or 2 is one letter whose index is the pipe, and a character whose
    index is not -EINVAL is the name of that index. *)
Theorem pipe_name_index_round_trip (EINVAL : positive) :
  (forall pipe, 0 <= pipe <= 2 ->
     exists c, PipeCrc.kmstest_pipe_name pipe = String c EmptyString
               /\ kmstest_pipe_to_index EINVAL c = pipe)
  /\ (forall c, kmstest_pipe_to_index EINVAL c = - Z.pos EINVAL
                \/ PipeCrc.kmstest_pipe_name (kmstest_pipe_to_index EINVAL c)
                   = String c EmptyString).
Proof.
  split.
  - intros pipe Hp.
    assert (H : pipe = 0 \/ pipe = 1 \/ pipe = 2) by lia.
    destruct H as [->|[->| ->]]; eexists; split; reflexivity.
  - intros c. unfold kmstest_pipe_to_index.
    destruct (Ascii.eqb_spec c "A") as [->|_]; [right; reflexivity|].
    destruct (Ascii.eqb_spec c "B") as [->|_]; [right; reflexivity|].
    destruct (Ascii.eqb_spec c "C") as [->|_]; [right; reflexivity|].
    left. reflexivity.
Qed.

Lemma bit_outside_crtc_mask x :
  64 <= x -> Z.land x (Z.lnot DRM_VBLANK_HIGH_CRTC_MASK) <> 0.
Proof.
  intros Hx H.
  assert (Hl : 6 <= Z.log2 x) by (apply Z.log2_le_pow2; lia).
  assert (Hb := Z.bit_log2 x ltac:(lia)).
  assert (Ht : Z.testbit (Z.land x (Z.lnot DRM_VBLANK_HIGH_CRTC_MASK))
                         (Z.log2 x) = true).
  { rewrite Z.land_spec, Hb, Z.lnot_spec by lia.
    rewrite Z.bits_above_log2; [reflexivity|unfold DRM_VBLANK_HIGH_CRTC_MASK; lia|].
    unfold DRM_VBLANK_HIGH_CRTC_MASK. cbn. lia. }
  rewrite H, Z.bits_0 in Ht. discriminate.
Qed.

(** X4 (kmstest_get_vbl_flag, pipe_select): for the pipes 0 to 31 the
    flag kmstest_get_vbl_flag returns is the one pipe_select computes, and
    for a pipe from 32 on its assertion fails; the state is not touched. *)
Theorem vbl_flag_is_pipe_select (pipe_id : Z) (st : state) :
  0 <= pipe_id < 2 ^ 31 ->
  kmstest_get_vbl_flag pipe_id st
  = (if pipe_id <? 32 then Ret (pipe_select pipe_id) else Abort, st).
Proof.
  intros Hp. destruct (Z.ltb_spec pipe_id 32) as [Hlt|Hge].
  - assert (H : pipe_id = 0 \/ pipe_id = 1 \/ pipe_id = 2 \/ pipe_id = 3
                \/ pipe_id = 4 \/ pipe_id = 5 \/ pipe_id = 6 \/ pipe_id = 7
                \/ pipe_id = 8 \/ pipe_id = 9 \/ pipe_id = 10 \/ pipe_id = 11
                \/ pipe_id = 12 \/ pipe_id = 13 \/ pipe_id = 14
                \/ pipe_id = 15 \/ pipe_id = 16 \/ pipe_id = 17
                \/ pipe_id = 18 \/ pipe_id = 19 \/ pipe_id = 20
                \/ pipe_id = 21 \/ pipe_id = 22 \/ pipe_id = 23
                \/ pipe_id = 24 \/ pipe_id = 25 \/ pipe_id = 26
                \/ pipe_id = 27 \/ pipe_id = 28 \/ pipe_id = 29
                \/ pipe_id = 30 \/ pipe_id = 31) by lia.
    repeat (destruct H as [->|H]; [reflexivity|]). subst. reflexivity.
  - unfold kmstest_get_vbl_flag.
    destruct (Z.eqb_spec pipe_id 0) as [?|_]; [lia|].
    destruct (Z.eqb_spec pipe_id 1) as [?|_]; [lia|].
    assert (Hu : to_uint32 (Z.shiftl pipe_id 1) = 2 * pipe_id).
    { unfold to_uint32. rewrite Z.shiftl_mul_pow2 by lia.
      rewrite Z.mod_small; lia. }
    rewrite Hu.
    destruct (Z.eqb_spec (Z.land (2 * pipe_id)
                            (Z.lnot DRM_VBLANK_HIGH_CRTC_MASK)) 0) as [H0|_].
    + exfalso. apply (bit_outside_crtc_mask (2 * pipe_id)); [lia|exact H0].
    + reflexivity.
Qed.

Lemma find_preferred i ms mode :
  (0 < i)%nat ->
  default_mode_from i ms mode = default mode (find mode_preferred ms).
Proof.
  revert i mode. induction ms as [|m ms IH]; intros i mode Hi;
    cbn [default_mode_from find]; [reflexivity|].
  destruct (Nat.eqb_spec i 0) as [?|_]; [lia|]. cbn [orb].
  destruct (mode_preferred m); [reflexivity|].
  apply IH. lia.
Qed.

(** X5 (kmstest_get_connector_default_mode): on a connector without
    modes the function fails and leaves the mode alone; otherwise it
    succeeds with the first mode that has the preferred bit, and with the
    first mode of the connector when none has it. *)
Theorem default_mode_is_first_preferred (connector : drmModeConnector)
    (mode : drmModeModeInfo) :
  kmstest_get_connector_default_mode connector mode
  = match modes connector with
    | [] => (false, mode)
    | m0 :: _ => (true, default m0 (find mode_preferred (modes connector)))
    end.
Proof.
  unfold kmstest_get_connector_default_mode.
  destruct (modes connector) as [|m0 ms]; [reflexivity|]. f_equal.
  cbn [default_mode_from find Nat.eqb orb].
  destruct (mode_preferred m0); [reflexivity|].
  apply find_preferred. lia.
Qed.

Lemma get_crtc_idx_from_spec i crtcs crtc_id :
  match kmstest_get_crtc_idx_from i crtcs crtc_id with
  | Ret r =>
      exists k : nat,
        r = i + Z.of_nat k /\ crtcs !! k = Some crtc_id
        /\ forall j, (j < k)%nat -> crtcs !! j <> Some crtc_id
  | Abort => crtc_id ∉ crtcs
  end.
Proof.
  revert i. induction crtcs as [|c crtcs IH]; intros i;
    cbn [kmstest_get_crtc_idx_from].
  - apply not_elem_of_nil.
  - destruct (Z.eqb_spec c crtc_id) as [->|Hne].
    + exists 0%nat. split; [lia|]. split; [reflexivity|]. intros j Hj. lia.
    + specialize (IH (i + 1)).
      destruct (kmstest_get_crtc_idx_from (i + 1) crtcs crtc_id) as [r|].
      * destruct IH as (k & -> & Hk & Hfirst). exists (S k).
        split; [lia|]. split; [exact Hk|]. intros [|j] Hj; cbn.
        -- congruence.
        -- apply Hfirst. lia.
      * rewrite not_elem_of_cons. split; [congruence|exact IH].
Qed.

(** X6 (kmstest_get_crtc_idx): the function returns the position of the
    first entry of the CRTC array that is the id, and fails its assertion
    exactly when the id is not in the array. *)
Theorem get_crtc_idx_first_match (res_crtcs : list Z) (crtc_id : Z) :
  match kmstest_get_crtc_idx res_crtcs crtc_id with
  | Ret i =>
      0 <= i /\ res_crtcs !! Z.to_nat i = Some crtc_id
      /\ forall j, (j < Z.to_nat i)%nat -> res_crtcs !! j <> Some crtc_id
  | Abort => crtc_id ∉ res_crtcs
  end.
Proof.
  unfold kmstest_get_crtc_idx.
  pose proof (get_crtc_idx_from_spec 0 res_crtcs crtc_id) as H.
  destruct (kmstest_get_crtc_idx_from 0 res_crtcs crtc_id) as [r|];
    [|exact H].
  destruct H as (k & -> & Hk & Hfirst).
  replace (Z.to_nat (0 + Z.of_nat k)) with k by lia.
  split; [lia|]. split; assumption.
Qed.

(** The bit loop stops at the lowest set bit from [j] on. *)
Lemma find_crtc_bit_some n j x k :
  0 <= j -> find_crtc_bit n j x = Some k ->
  j <= k < j + Z.of_nat n /\ Z.testbit x k = true
  /\ forall i, j <= i < k -> Z.testbit x i = false.
Proof.
  revert j. induction n as [|n IH]; intros j Hj H; cbn [find_crtc_bit] in H;
    [discriminate|].
  destruct (Z.shiftr x j =? 0); [discriminate|].
  assert (Hbit : Z.land x (Z.shiftl 1 j) = 0 -> Z.testbit x j = false).
  { intros H0. apply (f_equal (fun v => Z.testbit v j)) in H0.
    rewrite Z.land_spec, Z.bits_0, Z.shiftl_spec, Z.sub_diag in H0 by lia.
    cbn in H0. rewrite andb_true_r in H0. exact H0. }
  destruct (Z.eqb_spec (Z.land x (Z.shiftl 1 j)) 0) as [H0|H0]; cbn [negb] in H.
  - apply IH in H as (Hk & Ht & Hlow); [|lia].
    split; [lia|]. split; [exact Ht|]. intros i Hi.
    destruct (Z.eq_dec i j) as [->|?]; [auto|apply Hlow; lia].
  - injection H as <-. split; [lia|]. split; [|intros i Hi; lia].
    destruct (Z.testbit x j) eqn:Ht; [reflexivity|]. exfalso. apply H0.
    apply Z.bits_inj'. intros m Hm.
    rewrite Z.land_spec, Z.bits_0, Z.shiftl_spec by lia.
    destruct (Z.eq_dec m j) as [->|Hmj]; [rewrite Ht; reflexivity|].
    destruct (Z.lt_ge_cases m j).
    + rewrite (Z.testbit_neg_r 1) by lia. apply andb_false_r.
    + replace (Z.testbit 1 (m - j)) with false; [apply andb_false_r|].
      symmetry. apply Z.bits_above_log2; cbn; lia.
Qed.

(** The bit loop ends without a bit only on the empty set. *)
Lemma find_crtc_bit_none n j x :
  0 <= j -> 0 <= x < 2 ^ (j + Z.of_nat n) ->
  (forall i, 0 <= i < j -> Z.testbit x i = false) ->
  find_crtc_bit n j x = None -> x = 0.
Proof.
  revert j. induction n as [|n IH]; intros j Hj Hx Hlow H;
    cbn [find_crtc_bit] in H.
  - apply Z.bits_inj'. intros m Hm. rewrite Z.bits_0.
    destruct (Z.lt_ge_cases m j); [apply Hlow; lia|].
    destruct (Z.eq_dec x 0) as [->|?]; [apply Z.bits_0|].
    apply Z.bits_above_log2; [lia|].
    apply Z.log2_lt_pow2; [lia|]. rewrite Z.add_0_r in Hx.
    eapply Z.lt_le_trans; [apply Hx|]. apply Z.pow_le_mono_r; lia.
  - destruct (Z.eqb_spec (Z.shiftr x j) 0) as [H0|_].
    + apply Z.bits_inj'. intros m Hm. rewrite Z.bits_0.
      destruct (Z.lt_ge_cases m j); [apply Hlow; lia|].
      apply (f_equal (fun v => Z.testbit v (m - j))) in H0.
      rewrite Z.shiftr_spec, Z.bits_0 in H0 by lia.
      replace (m - j + j) with m in H0 by lia. exact H0.
    + destruct (Z.eqb_spec (Z.land x (Z.shiftl 1 j)) 0) as [H1|_];
        cbn [negb] in H; [|discriminate].
      apply (IH (j + 1)); [lia| |  |exact H].
      * replace (j + 1 + Z.of_nat n) with (j + Z.of_nat (S n)) by lia.
        exact Hx.
      * intros i Hi. destruct (Z.eq_dec i j) as [->|?]; [|apply Hlow; lia].
        apply (f_equal (fun v => Z.testbit v j)) in H1.
        rewrite Z.land_spec, Z.bits_0, Z.shiftl_spec, Z.sub_diag in H1
          by lia.
        cbn in H1. rewrite andb_true_r in H1. exact H1.
Qed.

(** A CRTC index that is possible and not excluded, in 32 bits. *)
Lemma allowed_bit possible blacklist k :
  0 <= k ->
  Z.testbit (Z.land possible (to_uint32 (Z.lnot blacklist))) k
  = Z.testbit possible k && (k <? 32) && negb (Z.testbit blacklist k).
Proof.
  intros Hk. rewrite Z.land_spec. unfold to_uint32.
  destruct (Z.ltb_spec k 32).
  - rewrite Z.mod_pow2_bits_low, Z.lnot_spec by lia.
    rewrite andb_true_r. reflexivity.
  - rewrite Z.mod_pow2_bits_high by lia. rewrite andb_false_r.
    reflexivity.
Qed.

Lemma find_crtc_from_sound E crtcs es blacklist st c st' :
  kmstest_find_crtc_for_connector_from E crtcs es blacklist st
  = (Ret c, st') ->
  exists (j : nat) e h enc,
    crtcs !! j = Some c /\ (j < 32)%nat
    /\ Z.testbit blacklist (Z.of_nat j) = false
    /\ e ∈ es /\ drm_encoder E h e = Some enc
    /\ Z.testbit (possible_crtcs enc) (Z.of_nat j) = true
    /\ forall i, (i < j)%nat ->
         Z.testbit (possible_crtcs enc) (Z.of_nat i) = true ->
         Z.testbit blacklist (Z.of_nat i) = true.
Proof.
  revert st. induction es as [|e es IH]; intros st H;
    cbn [kmstest_find_crtc_for_connector_from] in H.
  - discriminate.
  - unfold mbind, M_bind, query at 1 in H. cbn beta iota in H.
    destruct (drm_encoder E (calls st) e) as [enc|] eqn:He;
      cbn [deref] in H; [|discriminate].
    destruct (find_crtc_bit 32 0 _) as [k|] eqn:Hk.
    + apply find_crtc_bit_some in Hk as (Hr & Ht & Hlow); [|lia].
      rewrite allowed_bit in Ht by lia.
      apply andb_true_iff in Ht as [Ht Hb].
      apply andb_true_iff in Ht as [Ht _].
      apply negb_true_iff in Hb.
      destruct (crtcs !! Z.to_nat k) as [c'|] eqn:Hc; cbn [deref] in H;
        [|discriminate].
      injection H as <- _.
      exists (Z.to_nat k), e, (calls st), enc.
      rewrite Z2Nat.id by lia.
      split; [exact Hc|]. split; [lia|]. split; [exact Hb|].
      split; [apply list_elem_of_here|]. split; [exact He|].
      split; [exact Ht|]. intros i Hi Hp.
      specialize (Hlow (Z.of_nat i) ltac:(lia)).
      rewrite allowed_bit in Hlow by lia. rewrite Hp in Hlow.
      destruct (Z.ltb_spec (Z.of_nat i) 32); [|lia].
      cbn in Hlow. apply negb_false_iff in Hlow. exact Hlow.
    + apply IH in H as (j & e' & h & enc' & ? & ? & ? & ? & ?).
      exists j, e', h, enc'. repeat split; try tauto.
      apply list_elem_of_further. tauto.
Qed.

(** X7 (kmstest_find_crtc_for_connector): a CRTC id the function returns
    stands in the CRTC array at an index below 32 that is not in the
    blacklist mask and that one of the connector's encoders can drive; it
    is the lowest such index of that encoder. *)
Theorem find_crtc_never_blacklisted (E : env) (res_crtcs : list Z)
    (connector : drmModeConnector) (blacklist : Z) (st st' : state)
    (crtc : Z) :
  kmstest_find_crtc_for_connector E res_crtcs connector blacklist st
  = (Ret crtc, st') ->
  exists (j : nat) e h enc,
    res_crtcs !! j = Some crtc /\ (j < 32)%nat
    /\ Z.testbit blacklist (Z.of_nat j) = false
    /\ e ∈ encoders connector /\ drm_encoder E h e = Some enc
    /\ Z.testbit (possible_crtcs enc) (Z.of_nat j) = true
    /\ forall i, (i < j)%nat ->
         Z.testbit (possible_crtcs enc) (Z.of_nat i) = true ->
         Z.testbit blacklist (Z.of_nat i) = true.
Proof. apply find_crtc_from_sound. Qed.

(** The 32 rounds given to the bit loop are enough: on a 32-bit value it
    ends without a bit only when no bit is set. *)
Lemma find_crtc_bit_complete x :
  0 <= x < 2 ^ 32 -> find_crtc_bit 32 0 x = None -> x = 0.
Proof.
  intros Hx. apply find_crtc_bit_none; [lia|exact Hx|]. intros i Hi. lia.
Qed.

(** X8 (kmstest_unset_all_crtcs): the function turns the CRTCs off in the
    order of the array, one drmModeSetCrtc without framebuffer, connector
    and mode for each, and stops with a failed assertion at the first call
    that the driver refuses; it never writes the display. *)
Theorem unset_all_crtcs_stops_at_failure (E : env) (res_crtcs : list Z)
    (st st' : state) (r : outcome unit) :
  kmstest_unset_all_crtcs E res_crtcs st = (r, st') ->
  display st' = display st
  /\ ((r = Ret tt
       /\ calls st' = calls st ++ map (fun c => (crtc_off c, 0)) res_crtcs)
      \/ (r = Abort
          /\ exists pre c post rc,
               res_crtcs = pre ++ c :: post /\ rc <> 0
               /\ calls st' = calls st
                              ++ map (fun c => (crtc_off c, 0)) pre
                              ++ [(crtc_off c, rc)])).
Proof.
  unfold kmstest_unset_all_crtcs. revert st.
  induction res_crtcs as [|c cs IH]; intros st H; cbn [for_each] in H.
  - injection H as <- <-. split; [reflexivity|]. left.
    split; [reflexivity|]. cbn. symmetry. apply app_nil_r.
  - set (rc := drm_ret E (calls st) (crtc_off c)).
    assert (Hb : (ioctl E (crtc_off c) ≫= fun rc => igt_assert (rc =? 0)) st
                 = (if rc =? 0 then Ret tt else Abort,
                    log (crtc_off c) rc st)) by reflexivity.
    apply bind_run in H as [(a & st1 & H1 & H2)|[H1 ->]];
      fold (crtc_off c) in H1; rewrite Hb in H1;
      destruct (Z.eqb_spec rc 0) as [H0|H0]; try discriminate.
    + injection H1 as _ <-. apply IH in H2 as [Hd H]. cbn in Hd.
      split; [exact Hd|]. cbn [log calls] in H. rewrite H0 in H.
      destruct H as [[-> Hc]|(-> & pre & c' & post & rc' & -> & Hrc & Hc)].
      * left. split; [reflexivity|]. rewrite Hc, <- app_assoc. reflexivity.
      * right. split; [reflexivity|]. exists (c :: pre), c', post, rc'.
        split; [reflexivity|]. split; [exact Hrc|].
        rewrite Hc, <- app_assoc. reflexivity.
    + injection H1 as <-. split; [reflexivity|]. right.
      split; [reflexivity|]. exists [], c, cs, rc.
      split; [reflexivity|]. split; [exact H0|]. reflexivity.
Qed.

(* ================================================================== *)
(** ** Probing the connectors *)
(* ================================================================== *)

Global Instance probes_preorder : PreOrder probes.
Proof.
  split.
  - intros st. repeat split. exists []. split.
    + symmetry. apply app_nil_r.
    + constructor.
  - intros st1 st2 st3 (P1 & A1 & O1 & n1 & C1 & Q1)
                       (P2 & A2 & O2 & n2 & C2 & Q2).
    split; [congruence|]. split; [congruence|]. split; [congruence|].
    exists (n1 ++ n2). split.
    + rewrite C2, C1. symmetry. apply app_assoc.
    + apply Forall_app. split; assumption.
Qed.

Lemma probes_modify_output o (f : igt_output -> igt_output) :
  (forall x, output_request (f x) = output_request x) ->
  stable probes (modify_output o f).
Proof.
  intros H st r st' Hm. injection Hm as <- <-. cbn.
  split; [reflexivity|]. split; [reflexivity|]. split.
  - apply map_alter_same. exact H.
  - exists []. split; [symmetry; apply app_nil_r|constructor].
Qed.

Lemma probes_modify_config o f :
  (forall c, pipe_changed (f c) = pipe_changed c
             /\ connector_scaling_mode_changed (f c)
                = connector_scaling_mode_changed c) ->
  stable probes (modify_config o f).
Proof.
  intros H. apply probes_modify_output. intros x.
  unfold output_request, output_dirty. cbn. destruct (H (config x)) as [-> ->].
  reflexivity.
Qed.

Lemma probes_set_pipes_in_use v : stable probes (set_pipes_in_use v).
Proof.
  intros st r st' Hm. injection Hm as <- <-. cbn. repeat split.
  exists []. split; [symmetry; apply app_nil_r|constructor].
Qed.

Lemma probes_query {A} c (reply : list event -> A) :
  is_query c = true -> stable probes (query c reply).
Proof.
  intros Hc st r st' H. injection H as <- <-. repeat split.
  exists [(c, 0)]. split; [reflexivity|].
  constructor; [exact Hc|constructor].
Qed.

#[global] Hint Resolve probes_set_pipes_in_use : stable.
#[global] Hint Extern 1 (stable probes (query _ _)) =>
  (apply probes_query; reflexivity) : stable.
#[global] Hint Extern 1 (stable probes (modify_config _ _)) =>
  (apply probes_modify_config; intros ?; split; reflexivity) : stable.
#[global] Hint Extern 1 (stable probes (modify_output _ _)) =>
  (apply probes_modify_output; intros ?; reflexivity) : stable.

Section Probing.

Variable E : env.

Lemma probes_crtc_mask connector :
  stable probes (_kmstest_connector_config_crtc_mask E connector).
Proof. unfold _kmstest_connector_config_crtc_mask. stable_tac. Qed.

Lemma probes_find_encoder es pipe :
  stable probes (_kmstest_connector_config_find_encoder E es pipe).
Proof.
  induction es as [|e es IH]; cbn [_kmstest_connector_config_find_encoder];
    stable_tac.
Qed.

Hint Resolve probes_crtc_mask probes_find_encoder : stable.

Lemma probes_connector_config id mask o probe :
  stable probes (_kmstest_connector_config E id mask o probe).
Proof. unfold _kmstest_connector_config. stable_tac. Qed.

Lemma probes_fill_connector_props o :
  stable probes (igt_atomic_fill_connector_props E o).
Proof. unfold igt_atomic_fill_connector_props. stable_tac. Qed.

Hint Resolve probes_connector_config probes_fill_connector_props : stable.

Lemma probes_igt_output_refresh o final :
  stable probes (igt_output_refresh E o final).
Proof. unfold igt_output_refresh. stable_tac. Qed.

Hint Resolve probes_igt_output_refresh : stable.

Lemma probes_igt_display_refresh : stable probes (igt_display_refresh E).
Proof. unfold igt_display_refresh. stable_tac. Qed.

End Probing.

#[global] Hint Resolve probes_connector_config probes_fill_connector_props
  probes_igt_output_refresh probes_igt_display_refresh : stable.

Lemma probes_frame st st' :
  probes st st' -> frame (display st') = frame (display st).
Proof.
  intros (P & _ & O & _). unfold frame. rewrite P. f_equal.
  apply (f_equal (map (fun r : Z * Z * (bool * bool) * bool * drmModeModeInfo
                         => (snd (fst (fst (fst r))), snd (fst (fst r))))))
    in O.
  rewrite !map_map in O. exact O.
Qed.

Lemma probes_change_tracker st st' :
  probes st st' ->
  change_tracker (display st') = change_tracker (display st).
Proof. intros H. apply frame_change_tracker, probes_frame, H. Qed.

(** X9 (igt_atomic_commit, igt_display_try_commit_atomic,
    igt_display_commit_atomic): on a display that was not set up for
    atomic commits (is_atomic is not 1) the atomic try-commit never
    succeeds: it returns -1 or fails an assertion of the refresh, having
    made no call but the queries of the refresh and leaving every dirty
    flag as it was; the asserting variant never returns. *)
Theorem atomic_commit_needs_atomic_display (E : env) (flags : Z)
    (st st' : state) (r : outcome Z) :
  is_atomic (display st) <> 1 ->
  igt_display_try_commit_atomic E flags st = (r, st') ->
  (r = Ret (-1) \/ r = Abort)
  /\ change_tracker (display st') = change_tracker (display st)
  /\ (exists new, calls st' = calls st ++ new /\ only_queries new)
  /\ igt_display_commit_atomic E flags st = (Abort, st').
Proof.
  intros Hat Hrun. unfold igt_display_commit_atomic.
  pose proof Hrun as Htry. unfold igt_display_try_commit_atomic in Hrun.
  apply bind_run in Hrun as [([] & st1 & H1 & Hrun)|[H1 ->]].
  - pose proof (probes_igt_display_refresh E _ _ _ H1) as P.
    assert (Hc : igt_atomic_commit E flags st1 = (Ret (-1), st1)).
    { unfold igt_atomic_commit.
      assert (Hd : get_display st1 = (Ret (display st1), st1))
        by reflexivity.
      rewrite (bind_ret_run _ _ _ _ _ Hd).
      destruct P as (_ & A & _). rewrite A.
      destruct (Z.eqb_spec (is_atomic (display st)) 1); [contradiction|].
      reflexivity. }
    rewrite (bind_ret_run _ _ _ _ _ Hc) in Hrun. cbn in Hrun.
    injection Hrun as <- <-.
    split; [left; reflexivity|].
    split; [exact (probes_change_tracker _ _ P)|].
    split; [exact (proj2 (proj2 (proj2 P)))|].
    rewrite (bind_ret_run _ _ _ _ _ Htry). reflexivity.
  - pose proof (probes_igt_display_refresh E _ _ _ H1) as P.
    split; [right; reflexivity|].
    split; [exact (probes_change_tracker _ _ P)|].
    split; [exact (proj2 (proj2 (proj2 P)))|].
    exact (bind_abort_run _ _ _ _ Htry).
Qed.

Lemma for_each_passes {A} (l : list A) (body : A -> M unit) st :
  (forall x, In x l -> body x st = (Ret tt, st)) ->
  for_each l body st = (Ret tt, st).
Proof.
  induction l as [|x l IH]; intros H; cbn [for_each]; [reflexivity|].
  rewrite (bind_ret_run _ _ _ _ _ (H x (or_introl eq_refl))).
  apply IH. intros y Hy. apply H. right. exact Hy.
Qed.

(** X10 (igt_display_refresh): when no two outputs hold the same
    non-empty pending pipe binding, the check of igt_display_refresh
    passes without an effect: the refresh is the refresh of every output
    in turn, started with no pipe in use. *)
Theorem refresh_check_passes (E : env) (st : state) :
  bindings_distinct (display st) ->
  igt_display_refresh E st
  = for_each (seq 0 (n_outputs (display st)))
             (fun i => igt_output_refresh E i true) (refresh_start st).
Proof.
  intros Hd. unfold igt_display_refresh.
  assert (H0 : set_pipes_in_use 0 st = (Ret (), refresh_start st))
    by reflexivity.
  rewrite (bind_ret_run _ _ _ _ _ H0).
  assert (H1 : get_display (refresh_start st)
               = (Ret (display (refresh_start st)), refresh_start st))
    by reflexivity.
  rewrite (bind_ret_run _ _ _ _ _ H1).
  assert (Hn : n_outputs (display (refresh_start st))
               = n_outputs (display st)) by reflexivity.
  rewrite Hn.
  match goal with
  | |- (?m ≫= _) _ = _ =>
      assert (Hc : m (refresh_start st) = (Ret tt, refresh_start st))
  end; [|rewrite (bind_ret_run _ _ _ _ _ Hc); reflexivity].
  apply for_each_passes. intros i Hi. apply in_seq in Hi.
  destruct (lookup_lt_is_Some_2 (outputs (display st)) i ltac:(unfold n_outputs in Hi; lia))
    as [a Ha].
  rewrite (bind_ret_run _ _ _ _ _ (get_output_run i (refresh_start st) a Ha)).
  destruct (Z.eqb_spec (pending_crtc_idx_mask a) 0) as [|Hna];
    [reflexivity|].
  apply for_each_passes. intros j Hj. apply in_seq in Hj.
  destruct (lookup_lt_is_Some_2 (outputs (display st)) j ltac:(unfold n_outputs in Hj; lia))
    as [b Hb].
  rewrite (bind_ret_run _ _ _ _ _ (get_output_run j (refresh_start st) b Hb)).
  destruct (Nat.eqb_spec i j) as [|Hij]; [reflexivity|].
  destruct (Z.eqb_spec (pending_crtc_idx_mask a) (pending_crtc_idx_mask b))
    as [Hab|_]; [|reflexivity].
  exfalso. exact (Hd i j a b Ha Hb Hij Hna Hab).
Qed.

(* ================================================================== *)
(** ** Committing when nothing is pending *)
(* ================================================================== *)

Lemma inert_ret {A} (a : A) st : inert_at st a (mret a).
Proof. intros r st' H. injection H as <- <-. auto. Qed.

Lemma inert_bind {A B} (m : M A) (k : A -> M B) st (b : B) :
  silent m ->
  (forall a, m st = (Ret a, st) -> inert_at st b (k a)) ->
  inert_at st b (m ≫= k).
Proof.
  intros Hs Hk r st' H.
  apply bind_run in H as [(a & st1 & H1 & H2)|[H1 ->]].
  - assert (st1 = st) as -> by (symmetry; exact (Hs _ _ _ H1)).
    exact (Hk a H1 _ _ H2).
  - split; [symmetry; exact (Hs _ _ _ H1)|auto].
Qed.

Lemma inert_seq {A B} (m : M A) (k : A -> M B) st (a : A) (b : B) :
  inert_at st a m -> inert_at st b (k a) -> inert_at st b (m ≫= k).
Proof.
  intros Hm Hk r st' H.
  apply bind_run in H as [(a' & st1 & H1 & H2)|[H1 ->]].
  - destruct (Hm _ _ H1) as [-> [Ha|Ha]]; [|discriminate].
    injection Ha as ->. exact (Hk _ _ H2).
  - destruct (Hm _ _ H1) as [-> _]. auto.
Qed.

Lemma inert_assert {B} b (k : unit -> M B) st (v : B) :
  (b = true -> inert_at st v (k tt)) -> inert_at st v (igt_assert b ≫= k).
Proof.
  intros Hk. apply inert_bind; [unfold silent; stable_tac|].
  intros [] H. apply Hk. destruct b; [reflexivity|discriminate].
Qed.

Lemma inert_deref {A B} (x : option A) (k : A -> M B) st (v : B) :
  (forall a, x = Some a -> inert_at st v (k a)) ->
  inert_at st v (deref x ≫= k).
Proof.
  intros Hk. apply inert_bind; [unfold silent; stable_tac|].
  intros a H. apply Hk. destruct x; [|discriminate]. injection H as ->.
  reflexivity.
Qed.

Lemma inert_get_pipe {B} p (k : igt_pipe -> M B) st (v : B) :
  (forall x, pipes (display st) !! p = Some x -> inert_at st v (k x)) ->
  inert_at st v (get_pipe p ≫= k).
Proof.
  intros Hk. apply inert_bind; [unfold silent; stable_tac|].
  intros x H. apply Hk. apply get_pipe_inv in H as [_ H]. auto.
Qed.

Lemma inert_get_plane {B} p i (k : igt_plane -> M B) st (v : B) :
  (forall pl, plane_at (display st) p i = Some pl -> inert_at st v (k pl)) ->
  inert_at st v (get_plane p i ≫= k).
Proof.
  intros Hk. apply inert_bind; [unfold silent; stable_tac|].
  intros x H. apply Hk. apply get_plane_inv in H as [_ H]. auto.
Qed.

Lemma inert_get_output {B} o (k : igt_output -> M B) st (v : B) :
  (forall x, outputs (display st) !! o = Some x -> inert_at st v (k x)) ->
  inert_at st v (get_output o ≫= k).
Proof.
  intros Hk. apply inert_bind; [unfold silent; stable_tac|].
  intros x H. apply Hk. unfold get_output in H.
  apply bind_run in H as [(d & st1 & Hd & H)|[Hd _]]; [|discriminate].
  injection Hd as <- <-. unfold deref in H.
  destruct (outputs (display st) !! o); [|discriminate].
  injection H as <-. reflexivity.
Qed.

Lemma inert_fold_each {A B} (l : list A) (body : A -> B -> M B) (acc : B) st :
  (forall x, In x l -> inert_at st acc (body x acc)) ->
  inert_at st acc (fold_each l body acc).
Proof.
  induction l as [|x l IH]; intros Hb; cbn [fold_each].
  - apply inert_ret.
  - intros r st' H.
    apply bind_run in H as [(a & st1 & H1 & H2)|[H1 ->]].
    + destruct (Hb x (or_introl eq_refl) _ _ H1) as [-> [Ha|Ha]];
        [|discriminate].
      injection Ha as ->.
      apply (IH (fun y Hy => Hb y (or_intror Hy)) _ _ H2).
    + destruct (Hb x (or_introl eq_refl) _ _ H1) as [-> _]. auto.
Qed.

Lemma CHECK_RETURN_pass fail (k : M Z) st : CHECK_RETURN 0 fail k st = k st.
Proof. reflexivity. Qed.

Lemma plane_at_lookup d p i x pl :
  pipes d !! p = Some x -> plane_at d p i = Some pl -> planes x !! i = Some pl.
Proof. unfold plane_at. intros ->. cbn. auto. Qed.

Section Idle.

Variable E : env.

Lemma plane_commit_idle p i s fail st :
  s <> COMMIT_ATOMIC -> settled s (display st) ->
  inert_at st 0 (igt_plane_commit E p i s fail).
Proof.
  intros Hs [Hset _]. unfold igt_plane_commit.
  apply inert_get_plane. intros pl Hpl.
  destruct (plane_at_pipe _ _ _ _ Hpl) as (x & Hx & Hi).
  destruct (Hset p x Hx) as (_ & _ & _ & Hplanes).
  destruct (Hplanes i pl Hi) as (Hfb & Hpos & Hsz & Hrot).
  destruct (is_cursor pl && bool_decide (s = COMMIT_LEGACY)) eqn:Hc;
    [|destruct (is_primary pl && bool_decide (s = COMMIT_LEGACY)) eqn:Hp].
  - unfold igt_cursor_commit_legacy.
    apply inert_get_plane. intros pl' Hpl'.
    assert (pl' = pl) as -> by congruence.
    apply inert_get_pipe. intros x' _.
    rewrite Hfb, Hpos. apply inert_ret.
  - unfold igt_primary_plane_commit_legacy.
    apply inert_get_plane. intros pl' Hpl'.
    assert (pl' = pl) as -> by congruence.
    apply inert_get_pipe. intros x' _.
    apply inert_bind; [unfold silent; stable_tac|]. intros o _.
    apply inert_assert. intros _. apply inert_assert. intros _.
    rewrite Hfb, Hpos, Hsz. apply inert_ret.
  - unfold igt_drm_plane_commit.
    apply inert_get_plane. intros pl' Hpl'.
    assert (pl' = pl) as -> by congruence.
    apply inert_get_pipe. intros x' _.
    apply inert_assert. intros _. apply inert_assert. intros _.
    apply inert_deref. intros plane_id _.
    assert (Hr : rotation_changed pl = false).
    { destruct Hrot as [|[-> Hpc]]; [assumption|].
      rewrite bool_decide_eq_true_2 in Hc, Hp by reflexivity.
      rewrite andb_true_r in Hc, Hp. rewrite Hc, Hp in Hpc. discriminate. }
    rewrite Hfb, Hpos, Hsz, Hr. apply inert_ret.
Qed.

Lemma pipe_commit_planes_idle p s fail ids need k st r st' :
  s <> COMMIT_ATOMIC -> settled s (display st) ->
  igt_pipe_commit_planes E p s fail ids need k st = (r, st') ->
  (r = Abort /\ st' = st) \/ k need st = (r, st').
Proof.
  intros Hs Hset. revert need.
  induction ids as [|i ids IH]; intros need Hrun;
    cbn [igt_pipe_commit_planes] in Hrun; [right; exact Hrun|].
  apply bind_run in Hrun as [(pl & st1 & H1 & Hrun)|[H1 ->]].
  - apply get_plane_inv in H1 as [-> Hpl]. specialize (Hpl pl eq_refl).
    destruct (plane_at_pipe _ _ _ _ Hpl) as (x & Hx & Hi).
    destruct (proj1 Hset p x Hx) as (_ & _ & _ & Hplanes).
    destruct (Hplanes i pl Hi) as (Hfb & Hpos & Hsz & _).
    rewrite Hfb, Hpos, Hsz in Hrun. cbn [orb] in Hrun.
    apply bind_run in Hrun as [(ret & st2 & H2 & Hrun)|[H2 ->]].
    + destruct (plane_commit_idle p i s fail st Hs Hset _ _ H2)
        as [-> [Hr|Hr]]; [|discriminate].
      injection Hr as ->. rewrite CHECK_RETURN_pass in Hrun.
      exact (IH _ Hrun).
    + destruct (plane_commit_idle p i s fail st Hs Hset _ _ H2) as [-> _].
      left. auto.
  - apply get_plane_inv in H1 as [-> _]. left. auto.
Qed.

Lemma pipe_commit_idle p s fail st :
  s <> COMMIT_ATOMIC -> settled s (display st) ->
  inert_at st 0 (igt_pipe_commit E p s fail).
Proof.
  intros Hs Hset. unfold igt_pipe_commit.
  apply inert_get_pipe. intros x Hx.
  destruct (proj1 Hset p x Hx) as (Hbg & Hcm & _).
  rewrite Hbg, Hcm. intros r st' Hrun.
  change (igt_pipe_commit_planes E p s fail (seq 0 (length (planes x)))
            false
            (fun need_wait_for_vblank =>
               pipe_obj ← get_pipe p;
               (if need_wait_for_vblank && enabled pipe_obj
                then igt_wait_for_vblank E (pipe pipe_obj)
                else mret tt) ;;
               mret 0) st = (r, st')) in Hrun.
  apply pipe_commit_planes_idle in Hrun as [[-> ->]|Hrun]; auto.
  rewrite (bind_ret_run _ _ _ _ _ (get_pipe_run _ _ _ Hx)) in Hrun.
  injection Hrun as <- <-. auto.
Qed.

Lemma display_commit_pipes_idle s fail ps ret valid_outs k st r st' :
  s <> COMMIT_ATOMIC -> settled s (display st) ->
  do_display_commit_pipes E s fail ps ret valid_outs k st = (r, st') ->
  (r = Abort /\ st' = st) \/ exists ret' outs', k ret' outs' st = (r, st').
Proof.
  intros Hs Hset. revert ret valid_outs.
  induction ps as [|p ps IH]; intros ret valid_outs Hrun;
    cbn [do_display_commit_pipes] in Hrun; [right; eauto|].
  apply bind_run in Hrun as [(o & st1 & H1 & Hrun)|[H1 ->]].
  - assert (st1 = st) as ->.
    { symmetry. apply (fun S : stable eq _ => S _ _ _ H1). stable_tac. }
    apply bind_run in Hrun as [(ret1 & st2 & H2 & Hrun)|[H2 ->]].
    + destruct (pipe_commit_idle p s fail st Hs Hset _ _ H2)
        as [-> [Hr|Hr]]; [|discriminate].
      injection Hr as ->. rewrite CHECK_RETURN_pass in Hrun.
      exact (IH _ _ Hrun).
    + destruct (pipe_commit_idle p s fail st Hs Hset _ _ H2) as [-> _].
      left. auto.
  - left. split; [reflexivity|].
    symmetry. apply (fun S : stable eq _ => S _ _ _ H1). stable_tac.
Qed.

End Idle.

Section IdleAtomic.

Variable E : env.

Lemma prepare_crtc_idle p req st :
  settled COMMIT_ATOMIC (display st) ->
  inert_at st req (igt_atomic_prepare_crtc_commit E p req).
Proof.
  intros [Hset _]. unfold igt_atomic_prepare_crtc_commit.
  apply inert_get_pipe. intros x Hx.
  destruct (Hset p x Hx) as (Hbg & Hcm & Hmode & _).
  rewrite Hbg, Hcm, (Hmode eq_refl).
  intros r st' H. injection H as <- <-. auto.
Qed.

Lemma prepare_plane_idle p i req st :
  settled COMMIT_ATOMIC (display st) ->
  inert_at st req (igt_atomic_prepare_plane_commit E p i req).
Proof.
  intros [Hset _]. unfold igt_atomic_prepare_plane_commit.
  apply inert_get_plane. intros pl Hpl.
  destruct (plane_at_pipe _ _ _ _ Hpl) as (x & Hx & Hi).
  destruct (Hset p x Hx) as (_ & _ & _ & Hplanes).
  destruct (Hplanes i pl Hi) as (Hfb & Hpos & Hsz & [Hrot|[? _]]);
    [|discriminate].
  apply inert_get_pipe. intros x' _.
  apply inert_assert. intros _. apply inert_assert. intros _.
  rewrite Hfb, Hpos, Hsz, Hrot.
  intros r st' H. injection H as <- <-. auto.
Qed.

Lemma prepare_connector_idle o req st :
  settled COMMIT_ATOMIC (display st) ->
  inert_at st req (igt_atomic_prepare_connector_commit o req).
Proof.
  intros [_ Hset]. unfold igt_atomic_prepare_connector_commit.
  apply inert_get_output. intros out Hout.
  destruct (Hset o out Hout eq_refl) as [Hpc Hsc].
  rewrite Hpc, Hsc. intros r st' H. injection H as <- <-. auto.
Qed.

(** With nothing pending the transaction igt_atomic_commit submits is
    empty: the function fails an assertion before any call, or returns -1
    without a call on a display that is not atomic, or submits the empty
    transaction and returns the driver's answer. *)
Lemma atomic_commit_idle flags st r st' :
  settled COMMIT_ATOMIC (display st) ->
  igt_atomic_commit E flags st = (r, st') ->
  display st' = display st
  /\ ((r = Abort /\ calls st' = calls st)
      \/ (is_atomic (display st) <> 1 /\ r = Ret (-1)
          /\ calls st' = calls st)
      \/ exists rc, is_atomic (display st) = 1 /\ r = Ret rc
                    /\ calls st'
                       = calls st ++ [(drmModeAtomicCommit [] flags, rc)]).
Proof.
  intros Hset Hrun. unfold igt_atomic_commit in Hrun.
  apply bind_run in Hrun as [(d & st0 & H0 & Hrun)|[H0 _]];
    [|discriminate].
  injection H0 as <- <-.
  destruct (Z.eqb_spec (is_atomic (display st)) 1) as [Hat|Hat];
    cbn [negb] in Hrun.
  2:{ injection Hrun as <- <-. split; [reflexivity|]. right. left. auto. }
  apply bind_run in Hrun as [(req & st1 & H1 & Hrun)|[H1 ->]].
  - apply inert_fold_each in H1 as [-> [Hr|Hr]]; [|discriminate|].
    2:{ intros p _. apply inert_get_pipe. intros x _.
        apply (inert_seq _ _ _ []); [apply prepare_crtc_idle, Hset|].
        apply inert_fold_each. intros i _.
        apply prepare_plane_idle, Hset. }
    injection Hr as ->.
    apply bind_run in Hrun as [(req & st1 & H1 & Hrun)|[H1 ->]].
    + apply inert_fold_each in H1 as [-> [Hr|Hr]]; [|discriminate|].
      2:{ intros o _. apply inert_get_output. intros out _.
          destruct (config_connector (config out)).
          - apply prepare_connector_idle, Hset.
          - apply inert_ret. }
      injection Hr as ->. injection Hrun as <- <-.
      split; [reflexivity|]. right. right. eexists.
      split; [exact Hat|]. split; reflexivity.
    + apply inert_fold_each in H1 as [-> _];
        [split; [reflexivity|]; left; auto|].
      intros o _. apply inert_get_output. intros out _.
      destruct (config_connector (config out)).
      * apply prepare_connector_idle, Hset.
      * apply inert_ret.
  - apply inert_fold_each in H1 as [-> _];
      [split; [reflexivity|]; left; auto|].
    intros p _. apply inert_get_pipe. intros x _.
    apply (inert_seq _ _ _ []); [apply prepare_crtc_idle, Hset|].
    apply inert_fold_each. intros i _. apply prepare_plane_idle, Hset.
Qed.

End IdleAtomic.

Lemma lookup_map_eq {A B} (f : A -> B) (l l' : list A) i y :
  map f l' = map f l -> l' !! i = Some y ->
  exists x, l !! i = Some x /\ f x = f y.
Proof.
  intros Hm Hy. apply (f_equal (fun k => k !! i)) in Hm.
  rewrite !list_lookup_fmap, Hy in Hm. cbn in Hm.
  destruct (l !! i) as [x|]; [|discriminate]. injection Hm as Hm. eauto.
Qed.

Lemma settled_frame s d d' :
  frame d' = frame d -> settled s d -> settled s d'.
Proof.
  unfold frame. intros F [Hp Ho]. injection F as Fp Fo. split.
  - intros p y Hy.
    destruct (lookup_map_eq _ _ _ _ _ Fp Hy) as (x & Hx & Hf).
    unfold pipe_frame in Hf. injection Hf as Hpl Hm Hb Hc.
    unfold idle_pipe. rewrite <- Hpl, <- Hm, <- Hb, <- Hc.
    exact (Hp p x Hx).
  - intros o y Hy.
    destruct (lookup_map_eq _ _ _ _ _ Fo Hy) as (x & Hx & Hf).
    unfold output_frame, output_dirty in Hf. injection Hf as _ Hpc Hsc.
    unfold idle_output. rewrite <- Hpc, <- Hsc. exact (Ho o x Hx).
Qed.

Lemma settled_cleared s d : settled s (display_commit_changed d s).
Proof.
  split.
  - intros p y Hy. cbn in Hy. rewrite list_lookup_fmap in Hy.
    destruct (pipes d !! p) as [x|]; [|discriminate]. injection Hy as <-.
    split; [reflexivity|]. split; [reflexivity|]. split.
    + intros ->. reflexivity.
    + intros i pl Hpl. cbn in Hpl. rewrite list_lookup_fmap in Hpl.
      destruct (planes x !! i) as [pl0|]; [|discriminate].
      injection Hpl as <-. unfold idle_plane. cbn.
      split; [reflexivity|]. split; [reflexivity|]. split; [reflexivity|].
      destruct s; cbn; auto.
      destruct (is_primary pl0 || is_cursor pl0) eqn:Hk; cbn; auto.
  - intros o y Hy. cbn in Hy. rewrite list_lookup_fmap in Hy.
    destruct (outputs d !! o) as [x|]; [|discriminate]. injection Hy as <-.
    intros ->. split; reflexivity.
Qed.

Global Instance mute_preorder : PreOrder mute.
Proof.
  split.
  - intros st. reflexivity.
  - intros st1 st2 st3 H1 H2. unfold mute in *. congruence.
Qed.

Lemma mute_modify_display f : stable mute (modify_display f).
Proof. intros st r st' H. injection H as <- <-. reflexivity. Qed.

#[global] Hint Resolve mute_modify_display : stable.

Global Instance same_backend_preorder : PreOrder same_backend.
Proof.
  split.
  - intros st. reflexivity.
  - intros st1 st2 st3 H1 H2. unfold same_backend in *. congruence.
Qed.

Lemma same_backend_modify_pipe p f : stable same_backend (modify_pipe p f).
Proof. intros st r st' H. injection H as <- <-. reflexivity. Qed.

Lemma same_backend_ioctl E c : stable same_backend (ioctl E c).
Proof. intros st r st' H. injection H as <- <-. reflexivity. Qed.

#[global] Hint Resolve same_backend_modify_pipe same_backend_ioctl : stable.

Section Backend.

Variable E : env.

Lemma same_backend_populate_plane req plane prop v :
  stable same_backend (igt_atomic_populate_plane_req req plane prop v).
Proof. unfold igt_atomic_populate_plane_req. stable_tac. Qed.

Lemma same_backend_populate_crtc req pipe_obj prop v :
  stable same_backend (igt_atomic_populate_crtc_req req pipe_obj prop v).
Proof. unfold igt_atomic_populate_crtc_req. stable_tac. Qed.

Lemma same_backend_populate_connector req output prop v :
  stable same_backend (igt_atomic_populate_connector_req req output prop v).
Proof. unfold igt_atomic_populate_connector_req. stable_tac. Qed.

Hint Resolve same_backend_populate_plane same_backend_populate_crtc
  same_backend_populate_connector : stable.

Lemma same_backend_prepare_plane p i req :
  stable same_backend (igt_atomic_prepare_plane_commit E p i req).
Proof. unfold igt_atomic_prepare_plane_commit. stable_tac. Qed.

Lemma same_backend_replace_blob p ptr :
  stable same_backend (igt_pipe_replace_blob E p ptr).
Proof. unfold igt_pipe_replace_blob. stable_tac. Qed.

Hint Resolve same_backend_prepare_plane same_backend_replace_blob : stable.

Lemma same_backend_prepare_crtc p req :
  stable same_backend (igt_atomic_prepare_crtc_commit E p req).
Proof. unfold igt_atomic_prepare_crtc_commit. stable_tac. Qed.

Lemma same_backend_prepare_connector o req :
  stable same_backend (igt_atomic_prepare_connector_commit o req).
Proof. unfold igt_atomic_prepare_connector_commit. stable_tac. Qed.

Hint Resolve same_backend_prepare_crtc same_backend_prepare_connector
  : stable.

Lemma same_backend_igt_atomic_commit flags :
  stable same_backend (igt_atomic_commit E flags).
Proof. unfold igt_atomic_commit. stable_tac. Qed.

(** An atomic commit returns 0 on an atomic display only. *)
Lemma atomic_success_backend fail st st1 :
  do_display_commit E COMMIT_ATOMIC fail st = (Ret 0, st1) ->
  is_atomic (display st1) = 1.
Proof.
  intros Hrun. unfold do_display_commit in Hrun.
  apply bind_run in Hrun as [([] & sa & Ha & Hrun)|[_ Hr]]; [|discriminate].
  cbn [bool_decide decide_rel] in Hrun.
  apply bind_run in Hrun as [(ret & sb & Hb & Hrun)|[_ Hr]]; [|discriminate].
  pose proof (same_backend_igt_atomic_commit _ _ _ _ Hb) as B.
  unfold same_backend in B.
  assert (Hat : is_atomic (display sa) = 1 /\ ret = 0).
  { unfold igt_atomic_commit in Hb.
    apply bind_run in Hb as [(d & s0 & H0 & Hb)|[_ Hr]]; [|discriminate].
    injection H0 as <- <-.
    unfold CHECK_RETURN in Hrun.
    destruct (Z.eqb_spec ret 0) as [->|Hne]; cbn [negb andb] in Hrun.
    - destruct (Z.eqb_spec (is_atomic (display sa)) 1) as [H1|H1];
        cbn [negb] in Hb; [auto|discriminate].
    - destruct fail; cbn [negb] in Hrun; [discriminate|].
      injection Hrun as Hr _. contradiction. }
  destruct Hat as [Hat ->].
  unfold CHECK_RETURN, do_display_commit_finish in Hrun.
  cbn [Z.eqb negb andb] in Hrun. injection Hrun as <-. cbn.
  congruence.
Qed.

End Backend.

(** X11 (do_display_commit, igt_pipe_commit, igt_plane_commit,
    igt_atomic_commit, display_commit_changed): a commit that follows a
    successful commit of the same style programs nothing.  Besides the
    queries of the refresh, the legacy and universal styles make no call
    at all.  The atomic style submits one transaction after the queries,
    which holds no property, and returns the driver's answer to it (or
    fails the assertion on that answer when errors are fatal); it submits
    none only when an assertion fails before, and never more than one. *)
Theorem second_commit_programs_nothing (E : env) (s : igt_commit_style)
    (fail1 fail2 : bool) (st st1 st2 : state) (r : outcome Z) :
  do_display_commit E s fail1 st = (Ret 0, st1) ->
  do_display_commit E s fail2 st1 = (r, st2) ->
  exists qs,
    only_queries qs
    /\ (s <> COMMIT_ATOMIC -> calls st2 = calls st1 ++ qs)
    /\ (s = COMMIT_ATOMIC ->
        (r = Abort /\ calls st2 = calls st1 ++ qs)
        \/ exists rc,
             calls st2
             = calls st1 ++ qs
               ++ [(drmModeAtomicCommit [] DRM_MODE_ATOMIC_ALLOW_MODESET,
                    rc)]
             /\ (r = Ret rc \/ (r = Abort /\ fail2 = true /\ rc <> 0))).
Proof.
  intros Hfirst Hrun.
  assert (S1 : settled s (display st1)).
  { destruct (do_display_commit_success _ _ _ _ _ Hfirst) as (d1 & _ & ->).
    apply settled_cleared. }
  unfold do_display_commit in Hrun.
  apply bind_run in Hrun as [([] & sa & Ha & Hrun)|[Ha ->]].
  2:{ destruct (probes_igt_display_refresh E _ _ _ Ha)
        as (_ & _ & _ & qs & Hc & Hq).
      exists qs. split; [exact Hq|]. split; [intros _; exact Hc|].
      intros _. left. auto. }
  pose proof (probes_igt_display_refresh E _ _ _ Ha) as P.
  assert (Sa : settled s (display sa)).
  { apply (settled_frame s (display st1)); [apply probes_frame, P|exact S1]. }
  destruct P as (_ & Pat & _ & qs & Hc & Hq).
  exists qs. split; [exact Hq|].
  destruct (decide (s = COMMIT_ATOMIC)) as [->|Hs].
  - split; [intros H; contradiction|]. intros _.
    pose proof (atomic_success_backend E _ _ _ Hfirst) as Hat.
    rewrite <- Pat in Hat.
    cbn [bool_decide decide_rel] in Hrun.
    apply bind_run in Hrun as [(ret & sb & Hb & Hrun)|[Hb ->]].
    + destruct (atomic_commit_idle E _ _ _ _ Sa Hb)
        as [_ [[Hr _]|[[Hn _]|(rc & _ & Hr & Hcalls)]]];
        [discriminate|contradiction|].
      injection Hr as Hr. subst ret. right. exists rc.
      unfold CHECK_RETURN in Hrun.
      destruct (Z.eqb_spec rc 0) as [Hz|Hne]; cbn [negb andb] in Hrun.
      * unfold do_display_commit_finish in Hrun. rewrite Hz in Hrun.
        cbn [Z.eqb negb] in Hrun.
        injection Hrun as <- <-. cbn [calls].
        rewrite Hcalls, Hc, <- app_assoc. split; [reflexivity|].
        left. congruence.
      * destruct fail2; cbn [negb] in Hrun.
        -- injection Hrun as <- <-.
           rewrite Hcalls, Hc, <- app_assoc. split; [reflexivity|].
           right. auto.
        -- injection Hrun as <- <-.
           rewrite Hcalls, Hc, <- app_assoc. auto.
    + destruct (atomic_commit_idle E _ _ _ _ Sa Hb)
        as [_ [[_ Hcalls]|[[Hn _]|(rc & _ & Hr & _)]]];
        [|contradiction|discriminate].
      left. split; [reflexivity|]. rewrite Hcalls. exact Hc.
  - split; [|intros H; contradiction]. intros _.
    rewrite bool_decide_eq_false_2 in Hrun by exact Hs.
    apply bind_run in Hrun as [(d & sb & Hb & Hrun)|[Hb _]];
      [|discriminate].
    injection Hb as <- <-.
    apply display_commit_pipes_idle in Hrun
      as [[-> ->]|(ret' & outs' & Hrun)]; try assumption.
    assert (M : mute sa st2).
    { apply (fun S : stable mute _ => S _ _ _ Hrun).
      unfold do_display_commit_finish. stable_tac. }
    unfold mute in M. rewrite M. exact Hc.
Qed.

(* ================================================================== *)
(** ** Committing with no output bound *)
(* ================================================================== *)

Global Instance wired_preorder : PreOrder wired.
Proof.
  split.
  - intros st. split; reflexivity.
  - intros st1 st2 st3 [P1 O1] [P2 O2]. split; congruence.
Qed.

Lemma wired_modify_pipe p (f : igt_pipe -> igt_pipe) :
  (forall x, pipe (f x) = pipe x) -> stable wired (modify_pipe p f).
Proof.
  intros H st r st' Hm. injection Hm as <- <-. split; [|reflexivity].
  cbn. apply map_alter_same. exact H.
Qed.

Lemma wired_ioctl E c : stable wired (ioctl E c).
Proof. intros st r st' H. injection H as <- <-. split; reflexivity. Qed.

Lemma probes_wired st st' : probes st st' -> wired st st'.
Proof.
  intros (P & _ & O & _). split; [rewrite P; reflexivity|].
  unfold pendings.
  apply (f_equal (map (fun r : Z * Z * (bool * bool) * bool * drmModeModeInfo
                         => snd (fst (fst (fst r)))))) in O.
  rewrite !map_map in O. exact O.
Qed.

#[global] Hint Resolve wired_ioctl : stable.
#[global] Hint Extern 1 (stable wired (modify_pipe _ _)) =>
  (apply wired_modify_pipe; intros ?; reflexivity) : stable.

Section Wired.

Variable E : env.

Lemma wired_igt_crtc_set_property pipe_obj prop v :
  stable wired (igt_crtc_set_property E pipe_obj prop v).
Proof. unfold igt_crtc_set_property. stable_tac. Qed.

Lemma wired_kmstest_get_vbl_flag pipe_id :
  stable wired (kmstest_get_vbl_flag pipe_id).
Proof. unfold kmstest_get_vbl_flag. stable_tac. Qed.

Hint Resolve wired_igt_crtc_set_property wired_kmstest_get_vbl_flag : stable.

Lemma wired_igt_wait_for_vblank pipe :
  stable wired (igt_wait_for_vblank E pipe).
Proof. unfold igt_wait_for_vblank. stable_tac. Qed.

Lemma wired_igt_plane_set_property plane prop v :
  stable wired (igt_plane_set_property E plane prop v).
Proof. unfold igt_plane_set_property. stable_tac. Qed.

Hint Resolve wired_igt_wait_for_vblank wired_igt_plane_set_property : stable.

Lemma wired_igt_drm_plane_commit p i fail :
  stable wired (igt_drm_plane_commit E p i fail).
Proof. unfold igt_drm_plane_commit. stable_tac. Qed.

Lemma wired_igt_cursor_commit_legacy p i fail :
  stable wired (igt_cursor_commit_legacy E p i fail).
Proof. unfold igt_cursor_commit_legacy. stable_tac. Qed.

Lemma wired_igt_primary_plane_commit_legacy p i fail :
  stable wired (igt_primary_plane_commit_legacy E p i fail).
Proof. unfold igt_primary_plane_commit_legacy. stable_tac. Qed.

Hint Resolve wired_igt_drm_plane_commit wired_igt_cursor_commit_legacy
  wired_igt_primary_plane_commit_legacy : stable.

Lemma wired_igt_plane_commit p i s fail :
  stable wired (igt_plane_commit E p i s fail).
Proof. unfold igt_plane_commit. stable_tac. Qed.

Hint Resolve wired_igt_plane_commit : stable.

Lemma wired_igt_pipe_commit_planes p s fail ids need k :
  (forall b, stable wired (k b)) ->
  stable wired (igt_pipe_commit_planes E p s fail ids need k).
Proof.
  intros Hk. revert need.
  induction ids as [|i ids IH]; intros need; cbn [igt_pipe_commit_planes].
  - apply Hk.
  - stable_tac.
Qed.

Lemma wired_igt_pipe_commit p s fail :
  stable wired (igt_pipe_commit E p s fail).
Proof.
  unfold igt_pipe_commit. stable_tac.
  all: apply wired_igt_pipe_commit_planes; intros b; stable_tac.
Qed.

Lemma unbound_wired st st' :
  wired st st' -> unbound (display st) -> unbound (display st').
Proof.
  intros [P O] Hu y out' Hy Hout.
  apply list_elem_of_lookup in Hy as [p Hy].
  apply list_elem_of_lookup in Hout as [o Hout].
  destruct (lookup_map_eq _ _ _ _ _ P Hy) as (x & Hx & <-).
  unfold pendings in O.
  destruct (lookup_map_eq _ _ _ _ _ O Hout) as (out & Ho & <-).
  apply Hu; eapply list_elem_of_lookup_2; eassumption.
Qed.

Lemma unbound_get_output p st r st' :
  unbound (display st) ->
  igt_pipe_get_output p st = (r, st') ->
  st' = st /\ (r = Ret None \/ r = Abort).
Proof.
  intros Hu. unfold igt_pipe_get_output. revert r st'.
  apply inert_get_pipe. intros x Hx r st' H. injection H as <- <-.
  split; [reflexivity|]. left. f_equal.
  destruct (list_find _ _) as [[o out]|] eqn:Hf; [|reflexivity].
  apply list_find_Some in Hf as (Hout & Hp & _). exfalso.
  apply (Hu x out); [eapply list_elem_of_lookup_2; eassumption| |exact Hp].
  eapply list_elem_of_lookup_2; eassumption.
Qed.

Lemma display_commit_pipes_unbound s fail ps ret k st r st' :
  unbound (display st) ->
  do_display_commit_pipes E s fail ps ret 0 k st = (r, st') ->
  r = Abort
  \/ (exists v, v <> 0 /\ fail = false /\ r = Ret v)
  \/ exists ret' st1, k ret' 0 st1 = (r, st').
Proof.
  revert ret st. induction ps as [|p ps IH]; intros ret st Hu Hrun;
    cbn [do_display_commit_pipes] in Hrun.
  - right. right. eauto.
  - apply bind_run in Hrun as [(o & st1 & H1 & Hrun)|[H1 ->]]; [|auto].
    destruct (unbound_get_output _ _ _ _ Hu H1) as [-> [Ho|Ho]];
      [|discriminate].
    injection Ho as ->.
    apply bind_run in Hrun as [(ret1 & st2 & H2 & Hrun)|[H2 ->]]; [|auto].
    pose proof (unbound_wired _ _ (wired_igt_pipe_commit _ _ _ _ _ _ H2) Hu)
      as Hu2.
    unfold CHECK_RETURN in Hrun.
    destruct (Z.eqb_spec ret1 0) as [->|Hne]; cbn [negb andb] in Hrun.
    + exact (IH _ _ Hu2 Hrun).
    + destruct fail; cbn [negb] in Hrun.
      * injection Hrun as <- _. auto.
      * injection Hrun as <- _. right. left. eauto.
Qed.

End Wired.

(** X12 (do_display_commit, igt_pipe_get_output): a legacy or universal
    commit on a display where no output asks for a pipe never returns 0
    and clears no dirty flag: it returns a value other than 0, or it does
    not return (an assertion fails, or a missing object is dereferenced,
    as the output is by igt_primary_plane_commit_legacy); when errors are
    fatal, -1 is the only value it can return. *)
Theorem commit_without_output_fails (E : env) (s : igt_commit_style)
    (fail : bool) (st st' : state) (r : outcome Z) :
  s <> COMMIT_ATOMIC ->
  unbound (display st) ->
  do_display_commit E s fail st = (r, st') ->
  r <> Ret 0
  /\ change_tracker (display st') = change_tracker (display st)
  /\ (fail = true -> r = Ret (-1) \/ r = Abort).
Proof.
  intros Hs Hu Hrun.
  assert (Hr : r = Abort \/ (exists v, v <> 0 /\ fail = false /\ r = Ret v)
               \/ r = Ret (-1)).
  { unfold do_display_commit in Hrun.
    apply bind_run in Hrun as [([] & sa & Ha & Hrun)|[Ha ->]]; [|auto].
    pose proof (unbound_wired _ _
                  (probes_wired _ _ (probes_igt_display_refresh E _ _ _ Ha))
                  Hu) as Hua.
    rewrite bool_decide_eq_false_2 in Hrun by exact Hs.
    apply bind_run in Hrun as [(d & sb & Hb & Hrun)|[Hb _]];
      [|discriminate].
    injection Hb as <- <-.
    apply display_commit_pipes_unbound in Hrun
      as [->|[Hv|(ret' & st1 & Hrun)]]; auto.
    unfold CHECK_RETURN in Hrun.
    destruct (Z.eqb_spec ret' 0) as [->|Hne]; cbn [negb andb] in Hrun.
    - injection Hrun as <- _. auto.
    - destruct fail; cbn [negb] in Hrun.
      + injection Hrun as <- _. auto.
      + injection Hrun as <- _. right. left. eauto. }
  assert (H0 : r <> Ret 0).
  { destruct Hr as [->|[(v & Hv & _ & ->)| ->]]; congruence. }
  split; [exact H0|]. split.
  - destruct (commits_do_display_commit E s fail _ _ _ Hrun)
      as [[Hz _]|[_ F]]; [contradiction|].
    apply frame_change_tracker. exact F.
  - intros ->. destruct Hr as [->|[(v & _ & Hf & _)| ->]]; auto.
    discriminate.
Qed.

(* ================================================================== *)
(** ** Binding an output and looking up its planes *)
(* ================================================================== *)

Lemma ffs_bit pipe : 0 <= pipe -> ffs (Z.shiftl 1 pipe) = pipe + 1.
Proof.
  intros Hp. rewrite <- (Z2Nat.id pipe Hp). generalize (Z.to_nat pipe).
  clear. intros n. induction n as [|n IH]; [reflexivity|].
  rewrite Nat2Z.inj_succ, <- Z.add_1_r.
  rewrite Z.shiftl_1_l in *. rewrite Z.pow_add_r, Z.pow_1_r by lia.
  assert (H2 : 0 < 2 ^ Z.of_nat n) by (apply Z.pow_pos_nonneg; lia).
  destruct (2 ^ Z.of_nat n) as [|q|q] eqn:Hq; try lia.
  rewrite Z.mul_comm. cbn [ffs] in IH.
  change (2 * Z.pos q) with (Z.pos q~0). cbn [ffs ctz]. lia.
Qed.

Lemma driving_pipe_of_binding o pipe st out :
  outputs (display st) !! o = Some out ->
  pending_crtc_idx_mask out = Z.shiftl 1 pipe ->
  0 <= pipe < Z.of_nat (n_pipes (display st)) ->
  igt_output_get_driving_pipe o st = (Ret (Some (Z.to_nat pipe)), st).
Proof.
  intros Ho Hm Hp. unfold igt_output_get_driving_pipe.
  rewrite (bind_ret_run _ _ _ _ _ (get_output_run _ _ _ Ho)).
  assert (Hd : get_display st = (Ret (display st), st)) by reflexivity.
  rewrite (bind_ret_run _ _ _ _ _ Hd). rewrite Hm.
  assert (Hnz : Z.shiftl 1 pipe <> 0).
  { rewrite Z.shiftl_1_l. apply Z.pow_nonzero; lia. }
  destruct (Z.eqb_spec (Z.shiftl 1 pipe) 0) as [|_]; [contradiction|].
  rewrite ffs_bit by lia. replace (pipe + 1 - 1) with pipe by lia.
  destruct (Z.leb_spec 0 pipe); [|lia].
  destruct (Z.ltb_spec pipe (Z.of_nat (n_pipes (display st)))); [|lia].
  reflexivity.
Qed.

Lemma raise_mode_changed (l : list igt_pipe) j :
  forall i x, l !! i = Some x -> mode_changed x = true ->
  exists x', alter (pipe_set_mode_changed true) j l !! i = Some x'
             /\ mode_changed x' = true.
Proof.
  intros i x Hx Hm. destruct (decide (j = i)) as [->|Hne].
  - rewrite list_lookup_alter_eq, Hx. cbn. eexists. split; reflexivity.
  - rewrite list_lookup_alter_ne by exact Hne. eauto.
Qed.

(** The first step of igt_output_set_pipe marks the pipe the output was
    bound to. *)
Lemma old_pipe_marked o out st st2 :
  outputs (display st) !! o = Some out ->
  (if negb (pending_crtc_idx_mask out =? 0)
   then
     old_pipe ← igt_output_get_driving_pipe o;
     match old_pipe with
     | Some old => modify_pipe old (pipe_set_mode_changed true)
     | None => crash
     end
   else mret tt) st = (Ret tt, st2) ->
  outputs (display st2) = outputs (display st)
  /\ (pending_crtc_idx_mask out <> 0 ->
      exists y, pipes (display st2)
                !! Z.to_nat (ffs (pending_crtc_idx_mask out) - 1) = Some y
                /\ mode_changed y = true).
Proof.
  intros Ho H2.
  destruct (Z.eqb_spec (pending_crtc_idx_mask out) 0) as [Hz|Hnz];
    cbn [negb] in H2.
  - injection H2 as <-. split; [reflexivity|]. intros H. contradiction.
  - apply bind_run in H2 as [(old_pipe & sa & Ha & H2)|[_ Hr]];
      [|discriminate].
    unfold igt_output_get_driving_pipe in Ha.
    rewrite (bind_ret_run _ _ _ _ _ (get_output_run _ _ _ Ho)) in Ha.
    assert (Hd : get_display st = (Ret (display st), st)) by reflexivity.
    rewrite (bind_ret_run _ _ _ _ _ Hd) in Ha.
    destruct (Z.eqb_spec (pending_crtc_idx_mask out) 0) as [|_];
      [contradiction|].
    set (old := ffs (pending_crtc_idx_mask out) - 1) in *.
    destruct (Z.leb_spec 0 old) as [Hlo|]; [|discriminate].
    destruct (Z.ltb_spec old (Z.of_nat (n_pipes (display st)))) as [Hhi|];
      [|discriminate].
    injection Ha as <- <-. injection H2 as <-. cbn. split; [reflexivity|]. intros _.
    destruct (lookup_lt_is_Some_2 (pipes (display st)) (Z.to_nat old)
                ltac:(unfold n_pipes in Hhi; lia)) as [y Hy].
    rewrite list_lookup_alter_eq, Hy. cbn. eexists. split; reflexivity.
Qed.

(** X13 (igt_output_set_pipe, igt_output_get_driving_pipe,
    igt_output_get_plane): after igt_output_set_pipe has bound an output
    to a pipe, that pipe is the driving pipe of the output and
    igt_output_get_plane resolves plane kinds on it; the pipe and the
    pipe the output was bound to before are marked for a mode change,
    and the output is marked as moved when the pipe is not the one of its
    current configuration. *)
Theorem set_pipe_binds (E : env) (o : nat) (pipe : Z) (st st' : state) :
  pipe <> PIPE_NONE ->
  igt_output_set_pipe E o pipe st = (Ret tt, st') ->
  exists x out out',
    pipes (display st') !! Z.to_nat pipe = Some x
    /\ outputs (display st) !! o = Some out
    /\ outputs (display st') !! o = Some out'
    /\ mode_changed x = true
    /\ (pending_crtc_idx_mask out <> 0 ->
        exists y, pipes (display st')
                  !! Z.to_nat (ffs (pending_crtc_idx_mask out) - 1) = Some y
                  /\ mode_changed y = true)
    /\ (pipe <> config_pipe (config out) -> pipe_changed (config out') = true)
    /\ igt_output_get_driving_pipe o st' = (Ret (Some (Z.to_nat pipe)), st')
    /\ forall plane,
         igt_output_get_plane o plane st'
         = (match igt_pipe_get_plane x plane with
            | Ret idx => Ret (Z.to_nat pipe, idx)
            | Abort => Abort
            end, st').
Proof.
  intros Hp Hrun. unfold igt_output_set_pipe in Hrun.
  apply bind_run in Hrun as [(out & st0 & H0 & Hrun)|[_ Hr]];
    [|discriminate].
  assert (Ho : outputs (display st) !! o = Some out /\ st0 = st).
  { unfold get_output in H0.
    apply bind_run in H0 as [(d & st1 & Hd & H0)|[Hd _]];
      [|discriminate].
    injection Hd as <- <-. unfold deref in H0.
    destruct (outputs (display st) !! o); [|discriminate].
    injection H0 as <- <-. auto. }
  destruct Ho as [Ho ->]. clear H0.
  apply bind_run in Hrun as [([] & st1 & H1 & Hrun)|[_ Hr]]; [|discriminate].
  assert (st1 = st) as ->.
  { unfold igt_assert in H1. injection H1 as _ <-. reflexivity. }
  clear H1.
  apply bind_run in Hrun as [([] & st2 & H2 & Hrun)|[_ Hr]]; [|discriminate].
  apply old_pipe_marked in H2 as [O2 Hold]; [|exact Ho].
  apply bind_run in Hrun as [([] & st3 & H3 & Hrun)|[_ Hr]]; [|discriminate].
  destruct (Z.eqb_spec pipe PIPE_NONE) as [|_]; [contradiction|].
  apply bind_run in H3 as [([] & st2' & H3a & H3b)|[_ Hr]]; [|discriminate].
  injection H3a as <-.
  destruct (Z.leb_spec 0 pipe) as [Hpos|]; [|discriminate].
  apply bind_run in H3b as [(x0 & st2'' & H3c & H3b)|[_ Hr]]; [|discriminate].
  apply get_pipe_inv in H3c as [-> Hx0]. specialize (Hx0 x0 eq_refl).
  cbn in Hx0. injection H3b as <-.
  apply bind_run in Hrun as [([] & st4 & H4 & Hrun)|[_ Hr]]; [|discriminate].
  destruct (probes_igt_output_refresh E _ _ _ _ _ Hrun) as (P & _ & O & _).
  (* the state before the refresh *)
  assert (P4 : pipes (display st4)
               = alter (pipe_set_mode_changed true) (Z.to_nat pipe)
                       (pipes (display st2))).
  { destruct (negb (pipe =? config_pipe (config out)));
      injection H4 as <-; reflexivity. }
  assert (O4 : exists out4,
             outputs (display st4) !! o = Some out4
             /\ pending_crtc_idx_mask out4 = Z.shiftl 1 pipe
             /\ (pipe <> config_pipe (config out) ->
                 pipe_changed (config out4) = true)).
  { destruct (Z.eqb_spec pipe (config_pipe (config out))) as [He|Hne];
      cbn [negb] in H4; injection H4 as <-; cbn.
    - rewrite list_lookup_alter_eq, O2, Ho. cbn. eexists.
      split; [reflexivity|]. split; [reflexivity|]. intros H. contradiction.
    - rewrite !list_lookup_alter_eq, O2, Ho. cbn. eexists.
      split; [reflexivity|]. split; reflexivity. }
  destruct O4 as (out4 & Ho4 & Hm4 & Hc4).
  assert (O' : exists out', outputs (display st') !! o = Some out'
                            /\ output_request out' = output_request out4).
  { apply (f_equal (fun l => l !! o)) in O.
    rewrite !list_lookup_fmap, Ho4 in O.
    destruct (outputs (display st') !! o) as [out'|]; [|discriminate].
    exists out'. split; [reflexivity|].
    assert (Heq : Some (output_request out') = Some (output_request out4))
      by exact O.
    congruence. }
  destruct O' as (out' & Ho' & Hreq).
  unfold output_request, output_dirty in Hreq.
  injection Hreq as _ Hm' Hpc' _ _ _.
  assert (Hx : pipes (display st') !! Z.to_nat pipe
               = Some (pipe_set_mode_changed true x0)).
  { rewrite P, P4, list_lookup_alter_eq, Hx0. reflexivity. }
  assert (Hdrv : igt_output_get_driving_pipe o st'
                 = (Ret (Some (Z.to_nat pipe)), st')).
  { apply (driving_pipe_of_binding o pipe st' out' Ho'); [congruence|].
    apply lookup_lt_Some in Hx. unfold n_pipes. lia. }
  exists (pipe_set_mode_changed true x0), out, out'.
  split; [exact Hx|]. split; [exact Ho|]. split; [exact Ho'|].
  split; [reflexivity|]. split.
  { intros Hnz. destruct (Hold Hnz) as (y & Hy & Hmy). rewrite P, P4.
    exact (raise_mode_changed _ _ _ _ Hy Hmy). }
  split; [intros Hne; rewrite Hpc'; exact (Hc4 Hne)|].
  split; [exact Hdrv|]. intros plane. unfold igt_output_get_plane.
  rewrite (bind_ret_run _ _ _ _ _ Hdrv).
  assert (Ha : igt_assert (bool_decide (is_Some (Some (Z.to_nat pipe)))) st'
               = (Ret tt, st')) by reflexivity.
  rewrite (bind_ret_run _ _ _ _ _ Ha).
  assert (Hde : deref (Some (Z.to_nat pipe)) st' = (Ret (Z.to_nat pipe), st'))
    by reflexivity.
  rewrite (bind_ret_run _ _ _ _ _ Hde).
  rewrite (bind_ret_run _ _ _ _ _ (get_pipe_run _ _ _ Hx)).
  destruct (igt_pipe_get_plane (pipe_set_mode_changed true x0) plane);
    reflexivity.
Qed.

(* ================================================================== *)
(** ** Overriding the mode of an output *)
(* ================================================================== *)

Lemma get_output_inv o st r st' :
  get_output o st = (r, st') ->
  st' = st /\ forall x, r = Ret x -> outputs (display st) !! o = Some x.
Proof.
  unfold get_output, mbind, M_bind, get_display, deref.
  destruct (outputs (display st) !! o); intros H; injection H as <- <-;
    split; try reflexivity; intros x Hx; congruence.
Qed.

Lemma probes_output st st' o out :
  probes st st' -> outputs (display st) !! o = Some out ->
  exists out', outputs (display st') !! o = Some out'
               /\ output_request out' = output_request out.
Proof.
  intros (_ & _ & O & _) Ho. apply (f_equal (fun l => l !! o)) in O.
  rewrite !list_lookup_fmap, Ho in O.
  destruct (outputs (display st') !! o) as [out'|]; [|discriminate].
  exists out'. split; [reflexivity|].
  assert (Heq : Some (output_request out') = Some (output_request out))
    by exact O.
  congruence.
Qed.

(** A refresh of an output with an override mode ends with that mode as
    the mode of the output. *)
Lemma refresh_applies_override E o final st st' out :
  outputs (display st) !! o = Some out ->
  use_override_mode out = true ->
  igt_output_refresh E o final st = (Ret tt, st') ->
  exists out', outputs (display st') !! o = Some out'
               /\ default_mode (config out') = override_mode out
               /\ use_override_mode out' = true
               /\ override_mode out' = override_mode out.
Proof.
  intros Ho Hu Hrun. unfold igt_output_refresh in Hrun.
  apply bind_run in Hrun as [(out0 & s0 & H0 & Hrun)|[_ Hr]]; [|discriminate].
  apply get_output_inv in H0 as [-> _].
  apply bind_run in Hrun as [(d & s1 & H1 & Hrun)|[_ Hr]]; [|discriminate].
  injection H1 as _ <-.
  apply bind_run in Hrun as [([] & s2 & H2 & Hrun)|[_ Hr]]; [|discriminate].
  apply bind_run in Hrun as [(b & s3 & H3 & Hrun)|[_ Hr]]; [|discriminate].
  apply bind_run in Hrun as [([] & s4 & H4 & Hrun)|[_ Hr]]; [|discriminate].
  apply bind_run in Hrun as [(out5 & s5 & H5 & Hrun)|[_ Hr]]; [|discriminate].
  apply get_output_inv in H5 as [-> Ho5]. specialize (Ho5 out5 eq_refl).
  apply bind_run in Hrun as [([] & s6 & H6 & Hrun)|[_ Hr]]; [|discriminate].
  apply bind_run in Hrun as [([] & s7 & H7 & Hrun)|[_ Hr]]; [|discriminate].
  apply bind_run in Hrun as [([] & s8 & H8 & Hrun)|[_ Hr]]; [|discriminate].
  assert (P4 : probes st s4).
  { transitivity s2;
      [apply (fun S : stable probes _ => S _ _ _ H2); stable_tac|].
    transitivity s3;
      [apply (fun S : stable probes _ => S _ _ _ H3); stable_tac|].
    apply (fun S : stable probes _ => S _ _ _ H4); stable_tac. }
  assert (P7 : probes s4 s7).
  { transitivity s6;
      [apply (fun S : stable probes _ => S _ _ _ H6); stable_tac|].
    apply (fun S : stable probes _ => S _ _ _ H7); stable_tac. }
  destruct (probes_output _ _ _ _ P4 Ho) as (out5' & Ho5' & R5).
  assert (out5' = out5) as -> by congruence.
  destruct (probes_output _ _ _ _ P7 Ho5) as (out7 & Ho7 & R7).
  unfold output_request in R5, R7.
  injection R5 as _ _ _ _ Hu5 Hm5. injection R7 as _ _ _ _ Hu7 Hm7.
  rewrite Hu5, Hu in H8. injection H8 as <-.
  assert (O8 : outputs (display st') = outputs (display
                 {| display := display_with (display s7)
                      (pipes_in_use (display s7))
                      (alter (fun out =>
                                output_set_config
                                  (config_set_default_mode
                                     (override_mode out5) (config out)) out)
                             o (outputs (display s7)))
                      (pipes (display s7));
                    calls := calls s7 |})).
  { apply bind_run in Hrun as [(out9 & s9 & H9 & Hrun)|[_ Hr]];
      [|discriminate].
    apply get_output_inv in H9 as [-> _].
    destruct (config_pipe (config out9) =? PIPE_NONE);
      [injection Hrun as <-; reflexivity|].
    destruct final; injection Hrun as <-; reflexivity. }
  rewrite O8. cbn. rewrite list_lookup_alter_eq, Ho7. cbn.
  eexists. split; [reflexivity|]. cbn. repeat split; congruence.
Qed.

Global Instance spares_preorder o : PreOrder (spares o).
Proof.
  split.
  - intros st. reflexivity.
  - intros st1 st2 st3 H1 H2. unfold spares in *. congruence.
Qed.

Section Sparing.

Variable E : env.
Variables o j : nat.
Hypothesis Hne : j <> o.

Lemma spares_modify_output (f : igt_output -> igt_output) :
  stable (spares o) (modify_output j f).
Proof.
  intros st r st' H. injection H as <- <-. unfold spares. cbn.
  apply list_lookup_alter_ne. exact Hne.
Qed.

Lemma spares_modify_config f : stable (spares o) (modify_config j f).
Proof. apply spares_modify_output. Qed.

Lemma spares_set_pipes_in_use v : stable (spares o) (set_pipes_in_use v).
Proof. intros st r st' H. injection H as <- <-. reflexivity. Qed.

Lemma spares_query {A} c (reply : list event -> A) :
  stable (spares o) (query c reply).
Proof. intros st r st' H. injection H as <- <-. reflexivity. Qed.

Hint Resolve spares_modify_output spares_modify_config
  spares_set_pipes_in_use spares_query : stable.

Lemma spares_crtc_mask connector :
  stable (spares o) (_kmstest_connector_config_crtc_mask E connector).
Proof. unfold _kmstest_connector_config_crtc_mask. stable_tac. Qed.

Lemma spares_find_encoder es pipe :
  stable (spares o) (_kmstest_connector_config_find_encoder E es pipe).
Proof.
  induction es as [|e es IH]; cbn [_kmstest_connector_config_find_encoder];
    stable_tac.
Qed.

Hint Resolve spares_crtc_mask spares_find_encoder : stable.

Lemma spares_connector_config id mask probe :
  stable (spares o) (_kmstest_connector_config E id mask j probe).
Proof. unfold _kmstest_connector_config. stable_tac. Qed.

Lemma spares_fill_connector_props :
  stable (spares o) (igt_atomic_fill_connector_props E j).
Proof. unfold igt_atomic_fill_connector_props. stable_tac. Qed.

Hint Resolve spares_connector_config spares_fill_connector_props : stable.

Lemma spares_igt_output_refresh final :
  stable (spares o) (igt_output_refresh E j final).
Proof. unfold igt_output_refresh. stable_tac. Qed.

End Sparing.

Lemma refresh_rest_spares E o l st r st' :
  o ∉ l ->
  for_each l (fun i => igt_output_refresh E i true) st = (r, st') ->
  spares o st st'.
Proof.
  revert st. induction l as [|i l IH]; intros st Hl H; cbn [for_each] in H.
  - injection H as _ <-. reflexivity.
  - apply not_elem_of_cons in Hl as [Hio Hl].
    apply bind_run in H as [([] & s1 & H1 & H)|[H1 _]].
    + transitivity s1.
      * exact (spares_igt_output_refresh E o i ltac:(congruence) true
                 _ _ _ H1).
      * exact (IH _ Hl H).
    + exact (spares_igt_output_refresh E o i ltac:(congruence) true
               _ _ _ H1).
Qed.

Lemma refresh_all_applies_override E o l st st' out :
  o ∈ l -> NoDup l ->
  outputs (display st) !! o = Some out ->
  use_override_mode out = true ->
  for_each l (fun i => igt_output_refresh E i true) st = (Ret tt, st') ->
  exists out', outputs (display st') !! o = Some out'
               /\ default_mode (config out') = override_mode out
               /\ use_override_mode out' = true
               /\ override_mode out' = override_mode out.
Proof.
  revert st out. induction l as [|i l IH]; intros st out Hin Hnd Ho Hu H.
  - apply elem_of_nil in Hin. destruct Hin.
  - cbn [for_each] in H. apply NoDup_cons in Hnd as [Hil Hnd].
    apply bind_run in H as [([] & s1 & H1 & H)|[_ Hr]]; [|discriminate].
    destruct (decide (i = o)) as [->|Hio].
    + destruct (refresh_applies_override _ _ _ _ _ _ Ho Hu H1)
        as (out1 & Ho1 & Hd1 & Hu1 & Hm1).
      exists out1. split; [|auto].
      rewrite <- Ho1. exact (refresh_rest_spares _ _ _ _ _ _ Hil H).
    + apply elem_of_cons in Hin as [->|Hin]; [contradiction|].
      destruct (probes_output _ _ _ _
                  (probes_igt_output_refresh E _ _ _ _ _ H1) Ho)
        as (out1 & Ho1 & R1).
      unfold output_request in R1. injection R1 as _ _ _ _ Hu1 Hm1.
      rewrite <- Hm1. apply (IH s1 out1); try assumption. congruence.
Qed.

(** X14 (igt_output_override_mode, igt_output_refresh,
    igt_display_refresh): igt_output_override_mode with a mode leaves the
    output with use_override_mode set and that mode as its override_mode,
    and marks the pipe the output is bound to for a mode change.  From
    any state in which the output carries that override, a refresh of the
    display that returns keeps the override and the pipes, and leaves the
    mode as the mode of the output, whatever modes the connector reports:
    this holds for the first refresh after the call and, the override
    being kept, for every later one. *)
Theorem override_mode_survives_refresh (E : env) (o : nat)
    (m : drmModeModeInfo) (st st1 : state) :
  igt_output_override_mode o (Some m) st = (Ret tt, st1) ->
  overridden o m (display st1)
  /\ (forall p, igt_output_get_driving_pipe o st = (Ret (Some p), st) ->
        exists x, pipes (display st1) !! p = Some x
                  /\ mode_changed x = true)
  /\ forall sa sb,
       overridden o m (display sa) ->
       igt_display_refresh E sa = (Ret tt, sb) ->
       overridden o m (display sb)
       /\ pipes (display sb) = pipes (display sa)
       /\ exists out, outputs (display sb) !! o = Some out
                      /\ igt_output_get_mode out = m.
Proof.
  intros Hov. unfold igt_output_override_mode in Hov.
  apply bind_run in Hov as [(pipe & s0 & H0 & Hov)|[_ Hr]]; [|discriminate].
  assert (s0 = st) as ->.
  { symmetry. apply (fun S : stable eq _ => S _ _ _ H0).
    unfold igt_output_get_driving_pipe. stable_tac. }
  apply bind_run in Hov as [(out & s1 & H1 & Hov)|[_ Hr]]; [|discriminate].
  apply get_output_inv in H1 as [-> Ho]. specialize (Ho out eq_refl).
  apply bind_run in Hov as [([] & s2 & H2 & Hov)|[_ Hr]]; [|discriminate].
  injection H2 as <-.
  apply bind_run in Hov as [([] & s3 & H3 & Hov)|[_ Hr]]; [|discriminate].
  injection H3 as <-.
  assert (O1 : outputs (display st1) !! o
               = Some (output_set_override true m
                         (output_set_override (use_override_mode out) m out))).
  { destruct pipe; injection Hov as <-; cbn;
      rewrite !list_lookup_alter_eq, Ho; reflexivity. }
  assert (P1 : forall p, pipe = Some p ->
             exists x, pipes (display st1) !! p = Some x
                       /\ mode_changed x = true).
  { intros p ->. injection Hov as <-. cbn.
    unfold igt_output_get_driving_pipe in H0.
    rewrite (bind_ret_run _ _ _ _ _ (get_output_run _ _ _ Ho)) in H0.
    assert (Hd : get_display st = (Ret (display st), st)) by reflexivity.
    rewrite (bind_ret_run _ _ _ _ _ Hd) in H0.
    destruct (pending_crtc_idx_mask out =? 0); [discriminate|].
    set (q := ffs (pending_crtc_idx_mask out) - 1) in *.
    destruct (Z.leb_spec 0 q); [|discriminate].
    destruct (Z.ltb_spec q (Z.of_nat (n_pipes (display st)))) as [Hq|];
      [|discriminate].
    injection H0 as <-.
    assert (Hlt : (Z.to_nat q < length (pipes (display st)))%nat).
    { clearbody q. unfold n_pipes in Hq. lia. }
    destruct (lookup_lt_is_Some_2 (pipes (display st)) (Z.to_nat q) Hlt)
      as [y Hy].
    rewrite list_lookup_alter_eq, Hy. cbn. eexists. split; reflexivity. }
  split; [eexists; split; [exact O1|split; reflexivity]|].
  split.
  { intros p Hp. rewrite Hp in H0. injection H0 as <-. exact (P1 p eq_refl). }
  intros sa sb (outa & Hoa & Hua & Hma) Href.
  pose proof (probes_igt_display_refresh E _ _ _ Href) as P.
  unfold igt_display_refresh in Href.
  apply bind_run in Href as [([] & sc & Hc & Href)|[_ Hr]]; [|discriminate].
  injection Hc as <-.
  apply bind_run in Href as [(d & sd & Hd & Href)|[_ Hr]]; [|discriminate].
  injection Hd as <- <-.
  apply bind_run in Href as [([] & se & He & Href)|[_ Hr]]; [|discriminate].
  assert (se = refresh_start sa) as ->.
  { symmetry. apply (fun S : stable eq _ => S _ _ _ He). stable_tac. }
  assert (Hin : o ∈ seq 0 (n_outputs (display (refresh_start sa)))).
  { apply list_elem_of_In, in_seq. pose proof (lookup_lt_Some _ _ _ Hoa).
    unfold n_outputs. cbn. lia. }
  destruct (refresh_all_applies_override E o _ (refresh_start sa) sb _
              Hin (NoDup_seq _ _) Hoa Hua Href)
    as (outb & Hob & Hdb & Hub & Hmb).
  split; [exists outb; split; [exact Hob|split; congruence]|].
  split; [exact (proj1 P)|].
  exists outb. split; [exact Hob|]. unfold igt_output_get_mode. congruence.
Qed.

(* ================================================================== *)
(** ** Reading several CRCs *)
(* ================================================================== *)

Section CrcBatch.

Import PipeCrc.

Variable E : PipeCrc.env.

Lemma read_crc_good pc r rs lg out :
  good_line E pc r ->
  read_crc E out {| pipe_crc := pc; replies := r :: rs; sys_log := lg |}
  = (Done (rd_ret r,
           snd (pipe_crc_init_from_string E pc out (rd_buf r))),
     {| pipe_crc := pc; replies := rs;
        sys_log := lg ++ line_reads pc 1 |}).
Proof.
  intros [Hpos Hparse]. unfold read_crc.
  unfold mbind, M_bind, get_pipe_crc, read, mret, M_ret.
  cbn [replies pipe_crc sys_log].
  destruct (Z.ltb_spec (rd_ret r) 0) as [|_]; [lia|]. cbn [andb].
  destruct (Z.eqb_spec (rd_ret r) 0) as [|_]; [lia|]. cbn [negb].
  specialize (Hparse out).
  destruct (pipe_crc_init_from_string E pc out (rd_buf r)) as [p out'].
  cbn in Hparse. subst p. reflexivity.
Qed.

(** What a run of the loop can return. *)
Lemma get_crcs_loop_bound fuel n_crcs crcs n st v crcs' st' :
  0 <= n ->
  igt_pipe_crc_get_crcs_loop E fuel n_crcs crcs n st
  = (Done (v, crcs'), st') ->
  length crcs' = length crcs
  /\ n <= v
  /\ (v = n \/ v <= Z.of_nat (length crcs)).
Proof.
  revert crcs n st. induction fuel as [|fuel IH]; intros crcs n st Hn H;
    cbn [igt_pipe_crc_get_crcs_loop] in H; [discriminate|].
  unfold mbind at 1, M_bind at 1 in H.
  destruct (read_crc E (nth (Z.to_nat n) crcs (crc_zero E)) st)
    as [[[ret crc_]| |] s1]; try discriminate.
  unfold mbind at 1, M_bind at 1 in H.
  destruct (store_crc crcs n ret crc_ s1) as [[crcs1| |] s2] eqn:Hs;
    try discriminate.
  assert (Hst : length crcs1 = length crcs
                /\ (ret = 0 \/ n < Z.of_nat (length crcs))).
  { unfold store_crc in Hs. destruct (Z.eqb_spec ret 0).
    - injection Hs as <- _. auto.
    - destruct (Z.leb_spec 0 n); [|discriminate].
      destruct (Z.ltb_spec n (Z.of_nat (length crcs))); [|discriminate].
      injection Hs as <- _. rewrite length_insert. auto. }
  destruct Hst as [Hlen Hslot].
  destruct (Z.ltb_spec ret 0).
  - destruct (Z.ltb_spec n n_crcs).
    + apply IH in H as (L & Hv & Hb); [|lia]. rewrite Hlen in *. auto.
    + injection H as <- <- _. split; [exact Hlen|]. split; [lia|auto].
  - destruct (Z.eqb_spec ret 0).
    + injection H as <- <- _. split; [exact Hlen|]. split; [lia|auto].
    + destruct Hslot as [|Hslot]; [contradiction|].
      destruct (Z.ltb_spec (n + 1) n_crcs).
      * apply IH in H as (L & Hv & Hb); [|lia]. rewrite Hlen in *.
        split; [exact L|]. split; [lia|]. right. lia.
      * injection H as <- <- _. split; [exact Hlen|]. split; [lia|].
        right. lia.
Qed.

(** X15 (igt_pipe_crc_get_crcs): when the function returns without
    having written outside its array, the array has the n_crcs slots that
    were asked for (none when n_crcs is not positive) and the count it
    reports is at least 0 and at most n_crcs (0 when n_crcs is not
    positive): it never reports more records than the array holds. *)
Theorem get_crcs_count_within_array (n_crcs : Z) (st st' : state)
    (n : Z) (crcs : list igt_crc) :
  igt_pipe_crc_get_crcs E n_crcs st = (Done (n, crcs), st') ->
  length crcs = Z.to_nat n_crcs /\ 0 <= n <= Z.max 0 n_crcs.
Proof.
  unfold igt_pipe_crc_get_crcs. intros H.
  apply get_crcs_loop_bound in H as (L & Hn & Hb); [|lia].
  rewrite length_replicate in L, Hb. split; [exact L|]. lia.
Qed.

Lemma zero_slot (done : list igt_crc) (free : nat) :
  (0 < free)%nat ->
  nth (Z.to_nat (Z.of_nat (length done)))
      (done ++ replicate free (crc_zero E)) (crc_zero E) = (crc_zero E).
Proof.
  intros Hf. rewrite Nat2Z.id, app_nth2 by lia. rewrite Nat.sub_diag.
  destruct free; [lia|reflexivity].
Qed.

Lemma store_slot (done : list igt_crc) (free : nat) ret x st :
  (0 < free)%nat -> ret <> 0 ->
  store_crc (done ++ replicate free (crc_zero E)) (Z.of_nat (length done)) ret x
            st
  = (Done ((done ++ [x]) ++ replicate (free - 1) (crc_zero E)), st).
Proof.
  intros Hf Hr. unfold store_crc.
  destruct (Z.eqb_spec ret 0) as [|_]; [contradiction|].
  rewrite length_app, length_replicate.
  destruct (Z.leb_spec 0 (Z.of_nat (length done))); [|lia].
  destruct (Z.ltb_spec (Z.of_nat (length done))
              (Z.of_nat (length done + free))); [|lia].
  cbn [andb]. rewrite Nat2Z.id. unfold mret, M_ret. do 2 f_equal.
  destruct free as [|free]; [lia|]. cbn [replicate].
  rewrite insert_app_r_alt by lia. rewrite Nat.sub_diag. cbn.
  rewrite Nat.sub_0_r, <- app_assoc. reflexivity.
Qed.

Lemma get_crcs_loop_until_poll n_crcs pc z rest rs :
  Forall (good_line E pc) rs ->
  empty_poll E (flags pc) z = true ->
  forall fuel (done : list igt_crc) lg (free : nat),
  (length rs < fuel)%nat ->
  Z.of_nat (length done + free) = n_crcs ->
  (length rs < free)%nat ->
  igt_pipe_crc_get_crcs_loop E fuel n_crcs
    (done ++ replicate free (crc_zero E)) (Z.of_nat (length done))
    {| pipe_crc := pc; replies := rs ++ z :: rest; sys_log := lg |}
  = (Done (Z.of_nat (length done + length rs),
           done ++ map (parsed E pc) rs
           ++ replicate (free - length rs) (crc_zero E)),
     {| pipe_crc := pc; replies := rest;
        sys_log := lg ++ line_reads pc (S (length rs)) |}).
Proof.
  intros Hgood Hz. induction Hgood as [|r rs Hr Hrs IH];
    intros fuel done lg free Hfuel Hn Hfree;
    (destruct fuel as [|fuel]; [cbn in Hfuel; lia|]);
    cbn [igt_pipe_crc_get_crcs_loop app].
  - rewrite (bind_run_done _ _ _ _ _ (read_crc_empty E pc z rest lg _ Hz)).
    cbn. rewrite Nat.add_0_r, Nat.sub_0_r. reflexivity.
  - cbn [length] in Hfuel, Hfree.
    rewrite zero_slot by lia.
    rewrite (bind_run_done _ _ _ _ _
               (read_crc_good pc r (rs ++ z :: rest) lg (crc_zero E) Hr)).
    destruct Hr as [Hpos _].
    rewrite (bind_run_done _ _ _ _ _
               (store_slot done free (rd_ret r) _ _ ltac:(lia) ltac:(lia))).
    destruct (Z.ltb_spec (rd_ret r) 0) as [|_]; [lia|].
    destruct (Z.eqb_spec (rd_ret r) 0) as [|_]; [lia|].
    destruct (Z.ltb_spec (Z.of_nat (length done) + 1) n_crcs) as [_|]; [|lia].
    replace (Z.of_nat (length done) + 1)
      with (Z.of_nat (length (done ++ [parsed E pc r])))
      by (rewrite length_app; cbn; lia).
    fold (parsed E pc r).
    rewrite (IH fuel (done ++ [parsed E pc r]) (lg ++ line_reads pc 1)
                (free - 1)%nat)
      by (rewrite ?length_app; cbn; lia).
    rewrite length_app. cbn [length map].
    replace (length done + 1 + length rs)%nat
      with (length done + S (length rs))%nat by lia.
    replace (free - 1 - length rs)%nat with (free - S (length rs))%nat
      by lia.
    rewrite <- !app_assoc. reflexivity.
Qed.

Lemma get_crcs_loop_full n_crcs pc rest r rs :
  Forall (good_line E pc) (r :: rs) ->
  forall fuel (done : list igt_crc) lg,
  (S (length rs) < fuel)%nat ->
  Z.of_nat (length done + S (length rs)) = n_crcs ->
  igt_pipe_crc_get_crcs_loop E fuel n_crcs
    (done ++ replicate (S (length rs)) (crc_zero E)) (Z.of_nat (length done))
    {| pipe_crc := pc; replies := (r :: rs) ++ rest; sys_log := lg |}
  = (Done (n_crcs, done ++ map (parsed E pc) (r :: rs)),
     {| pipe_crc := pc; replies := rest;
        sys_log := lg ++ line_reads pc (S (length rs)) |}).
Proof.
  revert r. induction rs as [|r' rs IH]; intros r Hgood fuel done lg Hfuel Hn;
    (destruct fuel as [|fuel]; [lia|]);
    cbn [igt_pipe_crc_get_crcs_loop app];
    apply Forall_cons in Hgood as [Hr Hrs];
    rewrite zero_slot by lia;
    rewrite (bind_run_done _ _ _ _ _
               (read_crc_good pc r _ lg (crc_zero E) Hr));
    destruct Hr as [Hpos _];
    rewrite (bind_run_done _ _ _ _ _
               (store_slot done (S _) (rd_ret r) _ _ (Nat.lt_0_succ _)
                           ltac:(lia)));
    (destruct (Z.ltb_spec (rd_ret r) 0) as [|_]; [lia|]);
    (destruct (Z.eqb_spec (rd_ret r) 0) as [|_]; [lia|]);
    fold (parsed E pc r).
  - cbn [length] in Hn.
    destruct (Z.ltb_spec (Z.of_nat (length done) + 1) n_crcs) as [|_];
      [lia|].
    cbn. rewrite app_nil_r. unfold mret, M_ret. do 3 f_equal. lia.
  - cbn [length] in Hn, Hfuel.
    destruct (Z.ltb_spec (Z.of_nat (length done) + 1) n_crcs) as [_|];
      [|lia].
    replace (Z.of_nat (length done) + 1)
      with (Z.of_nat (length (done ++ [parsed E pc r])))
      by (rewrite length_app; cbn; lia).
    cbn [length]. replace (S (S (length rs)) - 1)%nat with (S (length rs))
      by lia.
    pose proof (IH r' Hrs fuel (done ++ [parsed E pc r])
                   (lg ++ line_reads pc 1) ltac:(lia)
                   ltac:(rewrite length_app; cbn; lia)) as Hrec.
    cbn [app] in Hrec. rewrite Hrec.
    rewrite <- !app_assoc. reflexivity.
Qed.

(** X16 (igt_pipe_crc_get_crcs, read_crc): when the data file delivers
    lines that parse, the function captures them in order.  If fewer than
    n_crcs lines come before a read finds the file empty, it returns at
    that read with the number of lines captured, and the slots that are
    left stay zeroed; if n_crcs lines come, it returns n_crcs after the
    last of them without a further read. *)
Theorem get_crcs_captures_lines (pc : igt_pipe_crc) (n_crcs : Z)
    (rs rest : list read_reply) (lg : list sys_call) :
  Forall (good_line E pc) rs ->
  (Z.of_nat (length rs) < n_crcs ->
   forall z, empty_poll E (flags pc) z = true ->
     igt_pipe_crc_get_crcs E n_crcs
       {| pipe_crc := pc; replies := rs ++ z :: rest; sys_log := lg |}
     = (Done (Z.of_nat (length rs),
              map (parsed E pc) rs
              ++ replicate (Z.to_nat n_crcs - length rs) (crc_zero E)),
        {| pipe_crc := pc; replies := rest;
           sys_log := lg ++ line_reads pc (S (length rs)) |}))
  /\ (1 <= n_crcs -> Z.of_nat (length rs) = n_crcs ->
      igt_pipe_crc_get_crcs E n_crcs
        {| pipe_crc := pc; replies := rs ++ rest; sys_log := lg |}
      = (Done (n_crcs, map (parsed E pc) rs),
         {| pipe_crc := pc; replies := rest;
            sys_log := lg ++ line_reads pc (length rs) |})).
Proof.
  intros Hgood. split.
  - intros Hlt z Hz. unfold igt_pipe_crc_get_crcs. cbn [replies].
    exact (get_crcs_loop_until_poll n_crcs pc z rest rs Hgood Hz
             (S (length (rs ++ z :: rest))) [] lg (Z.to_nat n_crcs)
             ltac:(rewrite length_app; cbn; lia) ltac:(cbn; lia)
             ltac:(lia)).
  - intros H1 Hlen. unfold igt_pipe_crc_get_crcs. cbn [replies].
    destruct rs as [|r rs]; [cbn in Hlen; lia|].
    replace (Z.to_nat n_crcs) with (S (length rs)) by (cbn in Hlen; lia).
    exact (get_crcs_loop_full n_crcs pc rest r rs Hgood
             (S (length ((r :: rs) ++ rest))) [] lg
             ltac:(rewrite length_app; cbn; lia)
             ltac:(cbn in *; lia)).
Qed.

(** Asked for no record, the function still reads once, and a line that
    comes is written outside the empty array. *)
Lemma get_crcs_none_asked_overflows pc n_crcs r rest lg :
  n_crcs <= 0 -> good_line E pc r ->
  igt_pipe_crc_get_crcs E n_crcs
    {| pipe_crc := pc; replies := r :: rest; sys_log := lg |}
  = (Failed,
     {| pipe_crc := pc; replies := rest;
        sys_log := lg ++ line_reads pc 1 |}).
Proof.
  intros Hn Hr. unfold igt_pipe_crc_get_crcs. cbn [replies length].
  cbn [igt_pipe_crc_get_crcs_loop].
  replace (Z.to_nat n_crcs) with 0%nat by lia. cbn [replicate nth Z.to_nat].
  rewrite (bind_run_done _ _ _ _ _
             (read_crc_good pc r rest lg (crc_zero E) Hr)).
  destruct Hr as [Hpos _]. unfold store_crc, mbind, M_bind.
  destruct (Z.eqb_spec (rd_ret r) 0) as [|_]; [lia|]. reflexivity.
Qed.

(** X17 (read_crc, read_one_crc, pipe_crc_init_from_string): on the
    legacy backend a line on which sscanf converts fewer than six fields
    makes read_crc return -EINVAL, and read_one_crc, which only waits
    while read_crc returns 0, returns at that line as if it held a CRC:
    the record it hands back claims a valid frame and five words. *)
Theorem read_one_crc_swallows_errors (pc : igt_pipe_crc) (r : read_reply)
    (rest : list read_reply) (lg : list sys_call) (out : igt_crc) :
  is_legacy pc = true ->
  0 < rd_ret r ->
  fst (fst (sscanf_crc E (rd_buf r))) <> 6 ->
  exists out' st',
    read_crc E out {| pipe_crc := pc; replies := r :: rest; sys_log := lg |}
    = (Done (- Z.pos (EINVAL E), out'), st')
    /\ read_one_crc E out
         {| pipe_crc := pc; replies := r :: rest; sys_log := lg |}
       = (Done out', st')
    /\ has_valid_frame out' = true /\ n_words out' = 5
    /\ replies st' = rest.
Proof.
  intros Hleg Hpos Hbad.
  assert (Hrun : exists out',
    read_crc E out {| pipe_crc := pc; replies := r :: rest; sys_log := lg |}
    = (Done (- Z.pos (EINVAL E), out'),
       {| pipe_crc := pc; replies := rest;
          sys_log := lg ++ [sys_read (crc_fd pc) LEGACY_LINE_LEN] |})
    /\ has_valid_frame out' = true /\ n_words out' = 5).
  { unfold read_crc, mbind, M_bind, get_pipe_crc, read, mret, M_ret.
    cbn [replies pipe_crc sys_log].
    destruct (Z.ltb_spec (rd_ret r) 0) as [|_]; [lia|]. cbn [andb].
    destruct (Z.eqb_spec (rd_ret r) 0) as [|_]; [lia|]. cbn [negb].
    unfold pipe_crc_init_from_string. rewrite Hleg.
    destruct (sscanf_crc E (rd_buf r)) as [[n fr] ws]. cbn in Hbad.
    destruct (Z.eqb_spec n 6) as [|_]; [contradiction|]. cbn [negb].
    eexists. split; [reflexivity|]. split; reflexivity. }
  destruct Hrun as (out' & Hrun & Hv & Hw).
  exists out'. eexists. split; [exact Hrun|]. split; [|auto].
  unfold read_one_crc. cbn [replies length read_one_crc_loop].
  rewrite (bind_run_done _ _ _ _ _ Hrun). reflexivity.
Qed.


End CrcBatch.

(* ================================================================== *)
(** ** The pipe of a CRTC *)
(* ================================================================== *)

Lemma get_pipe_from_crtc_id_from_run E crtcs crtc_id i st v st' :
  kmstest_get_pipe_from_crtc_id_from E i crtcs crtc_id st = (Ret v, st') ->
  exists k : nat,
    v = i + Z.of_nat k /\ (k <= length crtcs)%nat
    /\ display st' = display st
    /\ calls st'
       = calls st ++ map (fun c => (drmModeGetCrtc c, 0))
                         (take (S k) crtcs)
    /\ (forall c, crtcs !! k = Some c ->
        exists h, drm_crtc E h c = Some crtc_id)
    /\ (forall j c, (j < k)%nat -> crtcs !! j = Some c ->
        exists h cur, drm_crtc E h c = Some cur /\ cur <> crtc_id).
Proof.
  revert i st. induction crtcs as [|c crtcs IH]; intros i st H;
    cbn [kmstest_get_pipe_from_crtc_id_from] in H.
  - injection H as <- <-. exists 0%nat. split; [lia|]. split; [cbn; lia|].
    split; [reflexivity|]. split; [cbn; symmetry; apply app_nil_r|].
    split; [intros c Hc; discriminate|intros j c Hj; lia].
  - apply bind_run in H as [(crtc & s1 & H1 & H)|[_ Hr]]; [|discriminate].
    injection H1 as <- <-.
    destruct (drm_crtc E (calls st) c) as [cur|] eqn:Hcur;
      [|discriminate].
    apply bind_run in H as [([] & s2 & H2 & H)|[_ Hr]]; [|discriminate].
    injection H2 as <-.
    apply bind_run in H as [(cur' & s3 & H3 & H)|[_ Hr]]; [|discriminate].
    injection H3 as <- <-.
    destruct (Z.eqb_spec cur crtc_id) as [->|Hne].
    + injection H as <- <-. exists 0%nat. split; [lia|]. split; [cbn; lia|].
      split; [reflexivity|]. split; [reflexivity|]. split.
      * intros c' Hc'. injection Hc' as <-. eauto.
      * intros j c' Hj. lia.
    + apply IH in H as (k & -> & Hk & Hd & Hc & Hhit & Hmiss).
      exists (S k). split; [lia|]. split; [cbn; lia|].
      split; [exact Hd|]. split.
      * rewrite Hc. cbn [log calls take map]. rewrite <- app_assoc.
        reflexivity.
      * split; [exact Hhit|]. intros [|j] c' Hj Hc'.
        -- injection Hc' as <-. eauto.
        -- apply (Hmiss j c'); [lia|exact Hc'].
Qed.

(** X19 (kmstest_get_pipe_from_crtc_id): an index the function returns is
    an index of the CRTC array the driver reported, the CRTC at that index
    answered with the id that was asked for and the CRTCs before it with
    other ids, and the CRTCs up to that index were queried in order; for
    an id no CRTC answers with, the function does not return 0 but fails
    its assertion. *)
Theorem get_pipe_from_crtc_id_hit (E : env) (crtc_id : Z) (st st' : state)
    (i : Z) :
  kmstest_get_pipe_from_crtc_id E crtc_id st = (Ret i, st') ->
  exists res_crtcs c h,
    drm_resources E (calls st) = Some res_crtcs
    /\ 0 <= i < Z.of_nat (length res_crtcs)
    /\ res_crtcs !! Z.to_nat i = Some c
    /\ drm_crtc E h c = Some crtc_id
    /\ (forall j c', (j < Z.to_nat i)%nat -> res_crtcs !! j = Some c' ->
        exists h' cur, drm_crtc E h' c' = Some cur /\ cur <> crtc_id)
    /\ display st' = display st
    /\ calls st'
       = calls st ++ (drmModeGetResources, 0)
                  :: map (fun c => (drmModeGetCrtc c, 0))
                         (take (S (Z.to_nat i)) res_crtcs).
Proof.
  intros H. unfold kmstest_get_pipe_from_crtc_id in H.
  apply bind_run in H as [(res & s1 & H1 & H)|[_ Hr]]; [|discriminate].
  injection H1 as <- <-.
  destruct (drm_resources E (calls st)) as [crtcs|] eqn:Hres;
    [|discriminate].
  apply bind_run in H as [([] & s2 & H2 & H)|[_ Hr]]; [|discriminate].
  injection H2 as <-.
  apply bind_run in H as [(crtcs' & s3 & H3 & H)|[_ Hr]]; [|discriminate].
  injection H3 as <- <-.
  apply bind_run in H as [(v & s4 & H4 & H)|[_ Hr]]; [|discriminate].
  apply get_pipe_from_crtc_id_from_run in H4
    as (k & -> & Hk & Hd & Hc & Hhit & Hmiss).
  destruct (Z.ltb_spec (0 + Z.of_nat k) (Z.of_nat (length crtcs)))
    as [Hlt|]; [|discriminate].
  injection H as <- <-.
  replace (Z.to_nat (0 + Z.of_nat k)) with k by lia.
  destruct (lookup_lt_is_Some_2 crtcs k ltac:(lia)) as [c Hck].
  destruct (Hhit c Hck) as [h Hh].
  exists crtcs, c, h. split; [reflexivity|]. split; [lia|].
  split; [exact Hck|]. split; [exact Hh|]. split; [exact Hmiss|].
  split; [exact Hd|]. rewrite Hc. cbn [log calls].
  rewrite <- app_assoc. reflexivity.
Qed.

(* ================================================================== *)
(** ** Setting up a plane *)
(* ================================================================== *)

(** X20 (igt_plane_set_fb, igt_plane_set_size, igt_fb_set_size,
    igt_fb_set_position, igt_plane_set_position, igt_plane_set_rotation):
    igt_plane_set_fb discards a size, a source size and a source position
    that were set before it, so that these calls have to follow it, while
    it commutes with setting the position and with setting the rotation:
    igt_plane_set_rotation fails its assertion, in either order, exactly
    for a value that is none of the four rotations, and otherwise gives
    the same plane in either order. *)
Theorem set_fb_resets_sizes (plane : igt_plane) (f : option igt_fb)
    (x y w h r : Z) :
  igt_plane_set_fb (igt_plane_set_size plane w h) f = igt_plane_set_fb plane f
  /\ igt_plane_set_fb (igt_fb_set_size plane w h) f = igt_plane_set_fb plane f
  /\ igt_plane_set_fb (igt_fb_set_position plane x y) f
     = igt_plane_set_fb plane f
  /\ igt_plane_set_fb (igt_plane_set_position plane x y) f
     = igt_plane_set_position (igt_plane_set_fb plane f) x y
  /\ match igt_plane_set_rotation plane r with
     | Ret rotated =>
         igt_plane_set_rotation (igt_plane_set_fb plane f) r
         = Ret (igt_plane_set_fb rotated f)
     | Abort => igt_plane_set_rotation (igt_plane_set_fb plane f) r = Abort
     end
  /\ (igt_plane_set_rotation plane r = Abort
      <-> r <> IGT_ROTATION_0 /\ r <> IGT_ROTATION_90
          /\ r <> IGT_ROTATION_180 /\ r <> IGT_ROTATION_270).
Proof.
  split; [destruct f; reflexivity|]. split; [destruct f; reflexivity|].
  split; [destruct f; reflexivity|]. split; [destruct f; reflexivity|].
  unfold igt_plane_set_rotation, rotation_name. split.
  - destruct (r =? IGT_ROTATION_0), (r =? IGT_ROTATION_90),
      (r =? IGT_ROTATION_180), (r =? IGT_ROTATION_270);
      destruct f; reflexivity.
  - destruct (Z.eqb_spec r IGT_ROTATION_0) as [->|H0];
      [split; [discriminate|intros [H _]; contradiction]|].
    destruct (Z.eqb_spec r IGT_ROTATION_90) as [->|H1];
      [split; [discriminate|intros (_ & H & _); contradiction]|].
    destruct (Z.eqb_spec r IGT_ROTATION_180) as [->|H2];
      [split; [discriminate|intros (_ & _ & H & _); contradiction]|].
    destruct (Z.eqb_spec r IGT_ROTATION_270) as [->|H3];
      [split; [discriminate|intros (_ & _ & _ & H); contradiction]|].
    split; auto.
Qed.

(* ================================================================== *)
(** ** What a successful probe of a connector guarantees *)
(* ================================================================== *)

Global Instance reads_only_preorder : PreOrder reads_only.
Proof.
  split.
  - intros st. reflexivity.
  - intros st1 st2 st3 H1 H2. unfold reads_only in *. congruence.
Qed.

Lemma reads_only_query {A} c (reply : list event -> A) :
  stable reads_only (query c reply).
Proof. intros st r st' H. injection H as <- <-. reflexivity. Qed.

#[global] Hint Resolve reads_only_query : stable.

Lemma reads_only_crtc_mask E connector :
  stable reads_only (_kmstest_connector_config_crtc_mask E connector).
Proof. unfold _kmstest_connector_config_crtc_mask. stable_tac. Qed.

Lemma reads_only_find_encoder E es pipe :
  stable reads_only (_kmstest_connector_config_find_encoder E es pipe).
Proof.
  induction es as [|e es IH]; cbn [_kmstest_connector_config_find_encoder];
    stable_tac.
Qed.

(** The encoder loop returns an encoder of the connector that reaches the
    pipe. *)
Lemma find_encoder_reaches E es pipe st enc st' :
  _kmstest_connector_config_find_encoder E es pipe st = (Ret enc, st') ->
  Z.land (possible_crtcs enc) (Z.shiftl 1 pipe) <> 0.
Proof.
  revert st. induction es as [|e es IH]; intros st H;
    cbn [_kmstest_connector_config_find_encoder] in H; [discriminate|].
  apply bind_run in H as [(x & s1 & H1 & H)|[_ Hr]]; [|discriminate].
  destruct x as [enc'|]; [|exact (IH _ H)].
  destruct (Z.eqb_spec (Z.land (possible_crtcs enc') (Z.shiftl 1 pipe)) 0)
    as [|Hne]; cbn [negb] in H; [exact (IH _ H)|].
  injection H as <- _. exact Hne.
Qed.

Lemma land_bit x k :
  0 <= k -> Z.land x (Z.shiftl 1 k) <> 0 -> Z.testbit x k = true.
Proof.
  intros Hk H. destruct (Z.testbit x k) eqn:Ht; [reflexivity|].
  exfalso. apply H. apply Z.bits_inj'. intros m Hm.
  rewrite Z.land_spec, Z.bits_0, Z.shiftl_spec by lia.
  destruct (Z.eq_dec m k) as [->|Hmk]; [rewrite Ht; reflexivity|].
  destruct (Z.lt_ge_cases m k).
  - rewrite (Z.testbit_neg_r 1) by lia. apply andb_false_r.
  - replace (Z.testbit 1 (m - k)) with false; [apply andb_false_r|].
    symmetry. apply Z.bits_above_log2; cbn; lia.
Qed.

(** ffs on a positive number: the lowest set bit. *)
Lemma ctz_lowest p :
  0 <= ctz p /\ Z.testbit (Z.pos p) (ctz p) = true
  /\ forall q, 0 <= q < ctz p -> Z.testbit (Z.pos p) q = false.
Proof.
  induction p as [p IH|p IH|]; cbn [ctz].
  - split; [lia|]. split; [reflexivity|]. intros q Hq. lia.
  - destruct IH as (H0 & Hb & Hl). split; [lia|]. split.
    + replace (1 + ctz p) with (Z.succ (ctz p)) by lia.
      change (Z.pos p~0) with (2 * Z.pos p).
      rewrite Z.testbit_even_succ by lia. exact Hb.
    + intros q Hq. change (Z.pos p~0) with (2 * Z.pos p).
      destruct (Z.eq_dec q 0) as [->|Hq0];
        [apply Z.testbit_even_0|].
      replace q with (Z.succ (q - 1)) by lia.
      rewrite Z.testbit_even_succ by lia. apply Hl. lia.
  - split; [lia|]. split; [reflexivity|]. intros q Hq. lia.
Qed.

Lemma ffs_lowest x :
  0 < x ->
  0 <= ffs x - 1 /\ Z.testbit x (ffs x - 1) = true
  /\ forall q, 0 <= q < ffs x - 1 -> Z.testbit x q = false.
Proof.
  intros Hx. destruct x as [|p|p]; try lia. cbn [ffs].
  replace (1 + ctz p - 1) with (ctz p) by lia. apply ctz_lowest.
Qed.

Lemma modify_config_run o f st out :
  outputs (display st) !! o = Some out ->
  exists st',
    modify_config o f st = (Ret tt, st')
    /\ outputs (display st') !! o
       = Some (output_set_config (f (config out)) out)
    /\ calls st' = calls st.
Proof.
  intros Ho. eexists. split; [reflexivity|]. cbn.
  rewrite list_lookup_alter_eq, Ho. split; reflexivity.
Qed.

(** X21 (_kmstest_connector_config and its helpers): when the probe of a
    connector succeeds for a non-negative pipe mask, the configuration it
    leaves in the output names the connector that was asked for, which is
    connected and has a mode, and a pipe that is the lowest one both in
    the mask and among the CRTCs the connector's encoders reach; the
    encoder it names reaches that pipe. *)
Theorem connector_config_success (E : env) (connector_id_ mask : Z)
    (o : nat) (probe : bool) (st st' : state) (out : igt_output) :
  0 <= mask ->
  outputs (display st) !! o = Some out ->
  _kmstest_connector_config E connector_id_ mask o probe st
  = (Ret true, st') ->
  exists out' c enc,
    outputs (display st') !! o = Some out'
    /\ config_connector (config out') = Some c
    /\ connector_id c = connector_id_
    /\ connection c = DRM_MODE_CONNECTED
    /\ modes c <> []
    /\ config_encoder (config out') = Some enc
    /\ 0 <= config_pipe (config out')
    /\ Z.testbit mask (config_pipe (config out')) = true
    /\ Z.testbit (valid_crtc_idx_mask (config out'))
                 (config_pipe (config out')) = true
    /\ Z.testbit (possible_crtcs enc) (config_pipe (config out')) = true
    /\ forall q, 0 <= q < config_pipe (config out') ->
         Z.testbit mask q && Z.testbit (valid_crtc_idx_mask (config out')) q
         = false.
Proof.
  intros Hmask Ho H. unfold _kmstest_connector_config in H.
  destruct (modify_config_run o (config_set_pipe PIPE_NONE) st out Ho)
    as (s1 & R1 & O1 & _).
  rewrite (bind_ret_run _ _ _ _ _ R1) in H.
  apply bind_run in H as [(res & s2 & H2 & H)|[_ Hr]]; [|discriminate].
  injection H2 as <- <-.
  destruct (drm_resources E (calls s1)) as [crtcs|]; [|discriminate].
  apply bind_run in H as [(conn & s3 & H3 & H)|[_ Hr]]; [|discriminate].
  assert (D3 : display s3 = display s1).
  { symmetry. transitivity (display (log drmModeGetResources 0 s1));
      [reflexivity|].
    symmetry. apply (fun S : stable reads_only _ => S _ _ _ H3).
    stable_tac. }
  destruct conn as [c|]; [|discriminate].
  destruct (Z.eqb_spec (connector_id c) connector_id_) as [Hid|];
    cbn [negb] in H; [|discriminate].
  apply bind_run in H as [(vmask & s4 & H4 & H)|[_ Hr]]; [|discriminate].
  pose proof (reads_only_crtc_mask E c _ _ _ H4) as D4.
  unfold reads_only in D4.
  assert (O4 : outputs (display s4) !! o
               = Some (output_set_config
                         (config_set_pipe PIPE_NONE (config out)) out)).
  { rewrite D4, D3. exact O1. }
  destruct (modify_config_run o (config_set_valid_crtc_idx_mask vmask)
              s4 _ O4) as (s5 & R5 & O5 & _).
  rewrite (bind_ret_run _ _ _ _ _ R5) in H.
  apply bind_run in H as [(found & s6 & H6 & H)|[_ Hr]]; [|discriminate].
  destruct found; cbn [negb] in H; [|discriminate].
  destruct (modes c) as [|m0 ms] eqn:Hmodes.
  { (* without a mode the probe does not succeed *)
    apply bind_run in H as [([] & s7 & H7 & H)|[_ Hr]]; [|discriminate].
    destruct (Z.land mask vmask =? 0); [discriminate|].
    apply bind_run in H as [([] & s8 & H8 & H)|[_ Hr]]; [|discriminate].
    apply bind_run in H as [(enc & s9 & H9 & H)|[_ Hr]]; [|discriminate].
    apply bind_run in H as [([] & s10 & H10 & H)|[_ Hr]]; [|discriminate].
    apply bind_run in H as [(crtc & s11 & H11 & H)|[_ Hr]]; [|discriminate].
    apply bind_run in H as [([] & s12 & H12 & H)|[_ Hr]]; [|discriminate].
    destruct (negb (connection c =? DRM_MODE_CONNECTED)); discriminate. }
  apply bind_run in H6 as [(out5 & s5' & G5 & H6)|[_ Hr]]; [|discriminate].
  apply get_output_inv in G5 as [-> G5]. specialize (G5 out5 eq_refl).
  rewrite O5 in G5. injection G5 as <-.
  match type of H6 with
  | (let '(_, _) := ?k in _) _ = _ => destruct k as [fnd mode] eqn:Hk
  end.
  destruct (modify_config_run o (config_set_default_mode mode) s5 _ O5)
    as (s6' & R6 & O6 & _).
  rewrite (bind_ret_run _ _ _ _ _ R6) in H6. injection H6 as _ <-.
  destruct (modify_config_run o (config_set_connector (Some c)) s6' _ O6)
    as (s7 & R7 & O7 & _).
  rewrite (bind_ret_run _ _ _ _ _ R7) in H.
  destruct (Z.eqb_spec (Z.land mask vmask) 0) as [|Hnz]; [discriminate|].
  set (p := ffs (Z.land mask vmask) - 1) in *.
  destruct (modify_config_run o (config_set_pipe p) s7 _ O7)
    as (s8 & R8 & O8 & _).
  rewrite (bind_ret_run _ _ _ _ _ R8) in H.
  apply bind_run in H as [(enc & s9 & H9 & H)|[_ Hr]]; [|discriminate].
  pose proof (reads_only_find_encoder E _ _ _ _ _ H9) as D9.
  unfold reads_only in D9.
  pose proof (find_encoder_reaches E _ _ _ _ _ H9) as Henc.
  rewrite <- D9 in O8.
  destruct (modify_config_run o (config_set_encoder (Some enc)) s9 _ O8)
    as (s10 & R10 & O10 & _).
  rewrite (bind_ret_run _ _ _ _ _ R10) in H.
  apply bind_run in H as [(crtc & s11 & H11 & H)|[_ Hr]]; [|discriminate].
  injection H11 as <- <-.
  assert (O11 : outputs (display (log (drmModeGetCrtc
                   (nth (Z.to_nat p) crtcs 0)) 0 s10)) !! o = _) by exact O10.
  destruct (modify_config_run o
              (config_set_crtc (drm_crtc E (calls s10)
                                  (nth (Z.to_nat p) crtcs 0))) _ _ O11)
    as (s12 & R12 & O12 & _).
  rewrite (bind_ret_run _ _ _ _ _ R12) in H.
  destruct (Z.eqb_spec (connection c) DRM_MODE_CONNECTED) as [Hconn|];
    cbn [negb] in H; [|discriminate].
  injection H as <-.
  assert (Hland : 0 < Z.land mask vmask).
  { pose proof (proj2 (Z.land_nonneg mask vmask) (or_introl Hmask)). lia. }
  destruct (ffs_lowest _ Hland) as (Hp0 & Hpb & Hpl). fold p in Hp0, Hpb, Hpl.
  rewrite Z.land_spec in Hpb. apply andb_true_iff in Hpb as [Hpm Hpv].
  eexists. exists c, enc. split; [exact O12|]. cbn.
  split; [reflexivity|]. split; [exact Hid|]. split; [exact Hconn|].
  split; [rewrite Hmodes; discriminate|]. split; [reflexivity|].
  split; [exact Hp0|]. split; [exact Hpm|]. split; [exact Hpv|].
  split; [apply land_bit; assumption|].
  intros q Hq. rewrite <- Z.land_spec. apply Hpl. exact Hq.
Qed.

(* ================================================================== *)
(** ** The theorems at work on the sample displays *)
(* ================================================================== *)

(** A legacy commit of three planes clears the four flags of the overlay
    plane, whose framebuffer had been set. *)
Lemma C1_witness :
  match plane_at
          (display (snd (do_display_commit quiet_driver COMMIT_LEGACY false
                           (start display_three_planes)))) 0 1 with
  | Some pl' => plane_dirty pl' = (false, false, false, false)
  | None => False
  end.
Proof.
  pose proof (proj1 (C1_commit_clears_plane_flags quiet_driver)
                COMMIT_LEGACY false (start display_three_planes)
                (snd (do_display_commit quiet_driver COMMIT_LEGACY false
                        (start display_three_planes)))
                ltac:(vm_compute; reflexivity) 0%nat 1%nat) as H.
  destruct (plane_at
              (display (snd (do_display_commit quiet_driver COMMIT_LEGACY
                               false (start display_three_planes)))) 0 1)
    as [pl'|] eqn:Hpl.
  - destruct (H pl' eq_refl) as (pl & Hpl0 & Hf & Hp & Hs & Hr).
    vm_compute in Hpl0. injection Hpl0 as <-. cbn in Hr.
    unfold plane_dirty. rewrite Hf, Hp, Hs, Hr. reflexivity.
  - vm_compute in Hpl. discriminate Hpl.
Defined.

(** After set_pipe(A, P) and set_pipe(B, P), an atomic commit fails the
    check and leaves the call log as it was. *)
Lemma C2_witness :
  do_display_commit quiet_driver COMMIT_ATOMIC false two_outputs_bound
  = (Abort, refresh_start two_outputs_bound)
  /\ calls (refresh_start two_outputs_bound) = calls two_outputs_bound.
Proof.
  pose proof (C2_shared_pipe_aborts quiet_driver two_outputs_bound 0 1
                (nth 0 (outputs (display two_outputs_bound)) (output_on 0 0))
                (nth 1 (outputs (display two_outputs_bound)) (output_on 0 0))
                ltac:(vm_compute; reflexivity)
                ltac:(vm_compute; reflexivity)
                ltac:(discriminate)
                ltac:(vm_compute; discriminate)
                ltac:(vm_compute; discriminate)
                ltac:(vm_compute; reflexivity)) as H.
  split.
  - exact (proj1 H COMMIT_ATOMIC false).
  - reflexivity.
Defined.

(** On a pipe with three planes the kind IGT_PLANE_2 resolves to slot 1
    and shares it with no other kind. *)
Lemma C4_witness :
  igt_pipe_get_plane (pipe_A [primary_plane; overlay_plane; cursor_plane])
                     IGT_PLANE_2 = Ret 1.
Proof.
  apply (proj1 (proj2 (C4_get_plane_slots
                         (pipe_A [primary_plane; overlay_plane;
                                  cursor_plane])))).
  - discriminate.
  - unfold n_planes, IGT_PLANE_2. cbn. lia.
Defined.

(** A test-only atomic commit keeps the tracker, accepted or rejected. *)
Lemma C5_witness :
  change_tracker
    (display (snd (igt_display_try_commit_atomic quiet_driver 0x500
                     (start display_three_planes))))
  = change_tracker display_three_planes
  /\ change_tracker
       (display (snd (igt_display_try_commit_atomic rejecting_driver 0x500
                        (start display_three_planes))))
     = change_tracker display_three_planes.
Proof.
  split.
  - apply (C5_test_only_keeps_tracker quiet_driver 0x500
             (start display_three_planes) ltac:(discriminate)
             (fst (igt_display_try_commit_atomic quiet_driver 0x500
                     (start display_three_planes)))).
    vm_compute. reflexivity.
  - apply (C5_test_only_keeps_tracker rejecting_driver 0x500
             (start display_three_planes) ltac:(discriminate)
             (fst (igt_display_try_commit_atomic rejecting_driver 0x500
                     (start display_three_planes)))).
    vm_compute. reflexivity.
Defined.

(** drmModeSetPlane fails under COMMIT_UNIVERSAL: the try-commit returns
    its code at once and keeps the tracker. *)
Lemma C6_witness :
  let run := igt_display_try_commit2 no_setplane_driver COMMIT_UNIVERSAL
               (start display_three_planes) in
  fst run = Ret (-22)
  /\ skipn 7 (calls (snd run)) = []
  /\ change_tracker (display (snd run)) = change_tracker display_three_planes.
Proof.
  cbn zeta.
  apply (C6_checked_error_halts no_setplane_driver COMMIT_UNIVERSAL
           (start display_three_planes)
           (fst (igt_display_try_commit2 no_setplane_driver COMMIT_UNIVERSAL
                   (start display_three_planes)))
           (snd (igt_display_try_commit2 no_setplane_driver COMMIT_UNIVERSAL
                   (start display_three_planes)))
           (firstn 6 (calls (snd (igt_display_try_commit2 no_setplane_driver
                                    COMMIT_UNIVERSAL
                                    (start display_three_planes)))))
           (drmModeSetPlane 20 10 70 0 0 0 1920 1080 0 0 125829120 70778880)
           (-22)).
  - vm_compute. reflexivity.
  - vm_compute. reflexivity.
  - reflexivity.
  - discriminate.
Defined.

(** A legacy commit of a primary plane moved to (5, 0) fails the
    assertion before any call. *)
Lemma C7_witness :
  igt_primary_plane_commit_legacy quiet_driver 0 0 true
    (start display_windowed_primary)
  = (Abort, start display_windowed_primary).
Proof.
  assert (Hpl : plane_at (display (start display_windowed_primary)) 0 0
                = Some (igt_plane_set_position primary_plane 5 0))
    by (vm_compute; reflexivity).
  assert (Hx : crtc_x (igt_plane_set_position primary_plane 5 0) <> 0)
    by (vm_compute; discriminate).
  exact (proj1 (C7_legacy_primary_asserts quiet_driver 0 0 true
                  (start display_windowed_primary)
                  (igt_plane_set_position primary_plane 5 0)
                  Hpl (or_introl Hx))).
Defined.



(* ================================================================== *)
(** ** The helper properties on sample inputs *)
(* ================================================================== *)

Lemma update_edid_csum_closes_block_witness :
  exists edid',
    update_edid_csum 126 edid_block = Some edid'
    /\ length edid' = length edid_block
    /\ byte_sum (take 128 edid') mod 256 = 0
    /\ edid' !! 17%nat = Some ((126 - 90) mod 256)
    /\ forall i, i <> 17%nat -> i <> 127%nat -> edid' !! i = edid_block !! i.
Proof.
  apply (update_edid_csum_closes_block 126 edid_block). vm_compute. lia.
Defined.

Lemma edid_add_3d_checksums_witness :
  let new_edid := fst (kmstest_edid_add_3d true edid_block) in
  let new_length := snd (kmstest_edid_add_3d true edid_block) in
  new_length = Z.of_nat (length edid_block) + 128
  /\ Z.of_nat (length new_edid) = new_length
  /\ byte_sum (take 128 new_edid) mod 256 = 0
  /\ byte_sum (drop (length edid_block) new_edid) mod 256 = 0
  /\ new_edid !! 126%nat = Some ((nth 126 edid_block 0 + 1) mod 256)
  /\ forall i, i <> 126%nat -> i <> 127%nat -> (i < length edid_block)%nat ->
       new_edid !! i = edid_block !! i.
Proof.
  apply (edid_add_3d_checksums true edid_block). vm_compute. lia.
Defined.

Lemma pipe_name_index_round_trip_witness :
  exists c, PipeCrc.kmstest_pipe_name 1 = String c EmptyString
            /\ kmstest_pipe_to_index 22 c = 1.
Proof. apply (proj1 (pipe_name_index_round_trip 22) 1). lia. Defined.

Lemma vbl_flag_is_pipe_select_witness :
  kmstest_get_vbl_flag 2 (start display_three_planes)
  = (if 2 <? 32 then Ret (pipe_select 2) else Abort,
     start display_three_planes).
Proof.
  apply (vbl_flag_is_pipe_select 2 (start display_three_planes)). lia.
Defined.

(** With CRTC 0 excluded the first encoder has nothing to offer and the
    second gives CRTC 1. *)
Lemma find_crtc_never_blacklisted_witness :
  exists (j : nat) e h enc,
    [10; 11; 12] !! j = Some 11 /\ (j < 32)%nat
    /\ Z.testbit 1 (Z.of_nat j) = false
    /\ e ∈ encoders dual_link /\ drm_encoder two_encoder_driver h e = Some enc
    /\ Z.testbit (possible_crtcs enc) (Z.of_nat j) = true
    /\ forall i, (i < j)%nat ->
         Z.testbit (possible_crtcs enc) (Z.of_nat i) = true ->
         Z.testbit 1 (Z.of_nat i) = true.
Proof.
  eapply (find_crtc_never_blacklisted two_encoder_driver [10; 11; 12]
            dual_link 1 (start display_three_planes)).
  vm_compute. reflexivity.
Defined.

(** The driver refuses to turn the second CRTC off: the third is not
    tried. *)
Lemma unset_all_crtcs_stops_at_failure_witness :
  let st' := snd (kmstest_unset_all_crtcs second_crtc_busy [10; 11; 12]
                    (start display_three_planes)) in
  display st' = display (start display_three_planes)
  /\ ((@Abort unit = Ret tt
       /\ calls st' = calls (start display_three_planes)
                      ++ map (fun c => (crtc_off c, 0)) [10; 11; 12])
      \/ (@Abort unit = Abort
          /\ exists pre c post rc,
               [10; 11; 12] = pre ++ c :: post /\ rc <> 0
               /\ calls st' = calls (start display_three_planes)
                              ++ map (fun c => (crtc_off c, 0)) pre
                              ++ [(crtc_off c, rc)])).
Proof.
  apply (unset_all_crtcs_stops_at_failure second_crtc_busy [10; 11; 12]
           (start display_three_planes)).
  vm_compute. reflexivity.
Defined.

Lemma atomic_commit_needs_atomic_display_witness :
  let st' := snd (igt_display_try_commit_atomic quiet_driver 0
                    (start display_legacy_only)) in
  (Ret (-1) = Ret (-1) \/ Ret (-1) = @Abort Z)
  /\ change_tracker (display st')
     = change_tracker (display (start display_legacy_only))
  /\ (exists new, calls st' = calls (start display_legacy_only) ++ new
                  /\ only_queries new)
  /\ igt_display_commit_atomic quiet_driver 0 (start display_legacy_only)
     = (Abort, st').
Proof.
  apply (atomic_commit_needs_atomic_display quiet_driver 0
           (start display_legacy_only)).
  - vm_compute. discriminate.
  - vm_compute. reflexivity.
Defined.

Lemma refresh_check_passes_witness :
  igt_display_refresh quiet_driver (start display_two_pipes)
  = for_each (seq 0 (n_outputs (display (start display_two_pipes))))
             (fun i => igt_output_refresh quiet_driver i true)
             (refresh_start (start display_two_pipes)).
Proof.
  apply (refresh_check_passes quiet_driver (start display_two_pipes)).
  intros [|[|i]] [|[|j]] a b Ha Hb Hij Hna; try discriminate;
    try congruence;
    injection Ha as <-; injection Hb as <-; vm_compute; discriminate.
Defined.

(** A second atomic commit of the display with three planes submits one
    empty transaction. *)
Lemma second_commit_programs_nothing_witness :
  let st1 := snd (do_display_commit quiet_driver COMMIT_ATOMIC true
                    (start display_three_planes)) in
  let run := do_display_commit quiet_driver COMMIT_ATOMIC true st1 in
  exists qs,
    only_queries qs
    /\ (COMMIT_ATOMIC <> COMMIT_ATOMIC -> calls (snd run) = calls st1 ++ qs)
    /\ (COMMIT_ATOMIC = COMMIT_ATOMIC ->
        (fst run = Abort /\ calls (snd run) = calls st1 ++ qs)
        \/ exists rc,
             calls (snd run)
             = calls st1 ++ qs
               ++ [(drmModeAtomicCommit [] DRM_MODE_ATOMIC_ALLOW_MODESET,
                    rc)]
             /\ (fst run = Ret rc
                 \/ (fst run = Abort /\ true = true /\ rc <> 0))).
Proof.
  cbn zeta.
  apply (second_commit_programs_nothing quiet_driver COMMIT_ATOMIC true true
           (start display_three_planes)).
  - vm_compute. reflexivity.
  - vm_compute. reflexivity.
Defined.

Lemma commit_without_output_fails_witness :
  Ret (-1) <> Ret 0
  /\ change_tracker
       (display (snd (do_display_commit quiet_driver COMMIT_UNIVERSAL true
                        (start display_unbound))))
     = change_tracker (display (start display_unbound))
  /\ (true = true -> Ret (-1) = Ret (-1) \/ Ret (-1) = @Abort Z).
Proof.
  apply (commit_without_output_fails quiet_driver COMMIT_UNIVERSAL true
           (start display_unbound)).
  - discriminate.
  - intros x out Hx Ho. apply list_elem_of_singleton in Hx, Ho. subst.
    vm_compute. discriminate.
  - vm_compute. reflexivity.
Defined.

Lemma set_pipe_binds_witness :
  exists x out out',
    let st := start (display_of [primary_plane; cursor_plane]
                                [output_on 50 0]) in
    let st' := snd (igt_output_set_pipe quiet_driver 0 0 st) in
    pipes (display st') !! Z.to_nat 0 = Some x
    /\ outputs (display st) !! 0%nat = Some out
    /\ outputs (display st') !! 0%nat = Some out'
    /\ mode_changed x = true
    /\ (pending_crtc_idx_mask out <> 0 ->
        exists y, pipes (display st')
                  !! Z.to_nat (ffs (pending_crtc_idx_mask out) - 1) = Some y
                  /\ mode_changed y = true)
    /\ (0 <> config_pipe (config out) -> pipe_changed (config out') = true)
    /\ igt_output_get_driving_pipe 0 st' = (Ret (Some (Z.to_nat 0)), st')
    /\ forall plane,
         igt_output_get_plane 0 plane st'
         = (match igt_pipe_get_plane x plane with
            | Ret idx => Ret (Z.to_nat 0, idx)
            | Abort => Abort
            end, st').
Proof.
  apply (set_pipe_binds quiet_driver 0 0
           (start (display_of [primary_plane; cursor_plane]
                              [output_on 50 0]))).
  - vm_compute. discriminate.
  - vm_compute. reflexivity.
Defined.

(** The mode of the first output is overridden and the display is
    refreshed twice. *)
Lemma override_mode_survives_refresh_witness :
  let st := start display_three_planes in
  let st1 := snd (igt_output_override_mode 0 (Some mode_720p) st) in
  let st2 := snd (igt_display_refresh quiet_driver st1) in
  let st3 := snd (igt_display_refresh quiet_driver st2) in
  overridden 0 mode_720p (display st3)
  /\ pipes (display st3) = pipes (display st2)
  /\ exists out, outputs (display st3) !! 0%nat = Some out
                 /\ igt_output_get_mode out = mode_720p.
Proof.
  cbn zeta.
  set (st := start display_three_planes).
  set (st1 := snd (igt_output_override_mode 0 (Some mode_720p) st)).
  set (st2 := snd (igt_display_refresh quiet_driver st1)).
  assert (H : igt_output_override_mode 0 (Some mode_720p) st = (Ret tt, st1))
    by (vm_compute; reflexivity).
  destruct (override_mode_survives_refresh quiet_driver 0 mode_720p st st1 H)
    as (O1 & _ & Hlater).
  assert (O2 : overridden 0 mode_720p (display st2)).
  { apply (Hlater st1 st2 O1). vm_compute. reflexivity. }
  apply (Hlater st2 _ O2). vm_compute. reflexivity.
Defined.

Section CrcSamples.

Import PipeCrc.

(** Two lines are asked for; the file is empty when the second is
    read. *)
Lemma get_crcs_count_within_array_witness :
  length [parsed crc_env legacy_crc (crc_line "1"); crc_zero crc_env]
  = Z.to_nat 2
  /\ 0 <= 1 <= Z.max 0 2.
Proof.
  apply (get_crcs_count_within_array crc_env 2
           {| pipe_crc := legacy_crc;
              replies := [crc_line "1"; no_data; crc_line "22"];
              sys_log := [] |}
           {| pipe_crc := legacy_crc; replies := [crc_line "22"];
              sys_log := line_reads legacy_crc 2 |}).
  vm_compute. reflexivity.
Defined.

Lemma get_crcs_captures_lines_witness :
  (Z.of_nat (length [crc_line "1"; crc_line "22"]) < 2 ->
   forall z, empty_poll crc_env (flags legacy_crc) z = true ->
     igt_pipe_crc_get_crcs crc_env 2
       {| pipe_crc := legacy_crc;
          replies := [crc_line "1"; crc_line "22"] ++ z :: [crc_line "333"];
          sys_log := [] |}
     = (Done (Z.of_nat (length [crc_line "1"; crc_line "22"]),
              map (parsed crc_env legacy_crc) [crc_line "1"; crc_line "22"]
              ++ replicate (Z.to_nat 2 - length [crc_line "1"; crc_line "22"])
                           (crc_zero crc_env)),
        {| pipe_crc := legacy_crc; replies := [crc_line "333"];
           sys_log := [] ++ line_reads legacy_crc
                              (S (length [crc_line "1"; crc_line "22"])) |}))
  /\ (1 <= 2 -> Z.of_nat (length [crc_line "1"; crc_line "22"]) = 2 ->
      igt_pipe_crc_get_crcs crc_env 2
        {| pipe_crc := legacy_crc;
           replies := [crc_line "1"; crc_line "22"] ++ [crc_line "333"];
           sys_log := [] |}
      = (Done (2, map (parsed crc_env legacy_crc)
                      [crc_line "1"; crc_line "22"]),
         {| pipe_crc := legacy_crc; replies := [crc_line "333"];
            sys_log := [] ++ line_reads legacy_crc
                               (length [crc_line "1"; crc_line "22"]) |})).
Proof.
  apply (get_crcs_captures_lines crc_env legacy_crc 2
           [crc_line "1"; crc_line "22"] [crc_line "333"] []).
  repeat constructor; intros out; reflexivity.
Defined.

Lemma read_one_crc_swallows_errors_witness :
  exists out' st',
    read_crc short_scan_env (crc_zero short_scan_env)
      {| pipe_crc := legacy_crc; replies := [crc_line "1"; crc_line "22"];
         sys_log := [] |}
    = (Done (- Z.pos (EINVAL short_scan_env), out'), st')
    /\ read_one_crc short_scan_env (crc_zero short_scan_env)
         {| pipe_crc := legacy_crc; replies := [crc_line "1"; crc_line "22"];
            sys_log := [] |}
       = (Done out', st')
    /\ has_valid_frame out' = true /\ n_words out' = 5
    /\ replies st' = [crc_line "22"].
Proof.
  apply (read_one_crc_swallows_errors short_scan_env legacy_crc
           (crc_line "1") [crc_line "22"] [] (crc_zero short_scan_env)).
  - reflexivity.
  - vm_compute. reflexivity.
  - vm_compute. discriminate.
Defined.


End CrcSamples.

Lemma get_pipe_from_crtc_id_hit_witness :
  exists res_crtcs c h,
    let st := start display_three_planes in
    let st' := snd (kmstest_get_pipe_from_crtc_id two_encoder_driver 11 st) in
    drm_resources two_encoder_driver (calls st) = Some res_crtcs
    /\ 0 <= 1 < Z.of_nat (length res_crtcs)
    /\ res_crtcs !! Z.to_nat 1 = Some c
    /\ drm_crtc two_encoder_driver h c = Some 11
    /\ (forall j c', (j < Z.to_nat 1)%nat -> res_crtcs !! j = Some c' ->
        exists h' cur, drm_crtc two_encoder_driver h' c' = Some cur
                       /\ cur <> 11)
    /\ display st' = display st
    /\ calls st'
       = calls st ++ (drmModeGetResources, 0)
                  :: map (fun c => (drmModeGetCrtc c, 0))
                         (take (S (Z.to_nat 1)) res_crtcs).
Proof.
  apply (get_pipe_from_crtc_id_hit two_encoder_driver 11
           (start display_three_planes)).
  vm_compute. reflexivity.
Defined.

Lemma connector_config_success_witness :
  exists out' c enc,
    outputs (display (snd (_kmstest_connector_config quiet_driver 50 1 0 false
                             (start display_three_planes)))) !! 0%nat
    = Some out'
    /\ config_connector (config out') = Some c
    /\ connector_id c = 50
    /\ connection c = DRM_MODE_CONNECTED
    /\ modes c <> []
    /\ config_encoder (config out') = Some enc
    /\ 0 <= config_pipe (config out')
    /\ Z.testbit 1 (config_pipe (config out')) = true
    /\ Z.testbit (valid_crtc_idx_mask (config out'))
                 (config_pipe (config out')) = true
    /\ Z.testbit (possible_crtcs enc) (config_pipe (config out')) = true
    /\ forall q, 0 <= q < config_pipe (config out') ->
         Z.testbit 1 q && Z.testbit (valid_crtc_idx_mask (config out')) q
         = false.
Proof.
  apply (connector_config_success quiet_driver 50 1 0 false
           (start display_three_planes) _ (output_on 50 1)).
  - lia.
  - reflexivity.
  - vm_compute. reflexivity.
Defined.
